(** * Bato mirror management and fallback service: a shallow embedding

    Embedding of [services/bato_mirror_manager.py] and
    [services/bato_service.py] of universal-manga-downloader.

    Conventions.
    - A Python [str] is a [string] of bytes, its UTF-8 encoding; a [str]
      with a lone surrogate, which has none, is outside the model. The
      characters of a string are the groups of bytes that encode them:
      [str.strip] removes the white space of Unicode, [str.lower] knows
      the one character outside ASCII whose lower case is in ASCII, and
      the decimal digits of [\d] outside ASCII are those of the Unicode
      database of the interpreter, a parameter.
    - A decoded JSON document is a [json] value. A number is an integer
      or a float; JSON objects are finite maps from strings
      ([gmap string json]), whose equality is the equality of Python
      dicts.
    - An exception is a value of [exn]; a call that can raise returns a
      [res]. *)

From stdpp Require Import gmap strings list fin_maps.
From Stdlib Require Import ZArith Ascii String.

#[local] Set Warnings "-register-all".
#[local] Open Scope string_scope.
#[local] Open Scope Z_scope.

(** ** Python strings *)

Module PyStr.

Definition chars (s : string) : list ascii := list_ascii_of_string s.
Definition of_chars (l : list ascii) : string := string_of_list_ascii l.

Definition code (a : ascii) : N := N_of_ascii a.

(** The characters of a string, each as the bytes of its UTF-8 encoding:
    a byte [10xxxxxx] continues the character of the byte before it. *)
Definition is_continuation (a : ascii) : bool :=
  ((128 <=? code a) && (code a <? 192))%N.

Fixpoint characters (l : list ascii) : list (list ascii) :=
  match l with
  | [] => []
  | a :: l' =>
      match characters l' with
      | (b :: c) :: cs =>
          if is_continuation b then (a :: b :: c) :: cs
          else [a] :: (b :: c) :: cs
      | cs => [a] :: cs
      end
  end.

(** [str.isspace] of a character: TAB..CR, FS..US and the space; U+0085
    and U+00A0 ([C2 85], [C2 A0]); U+1680 ([E1 9A 80]); U+2000..U+200A,
    U+2028, U+2029 and U+202F ([E2 80 80..8A], [E2 80 A8], [E2 80 A9],
    [E2 80 AF]); U+205F ([E2 81 9F]); U+3000 ([E3 80 80]). *)
Definition is_space (c : list ascii) : bool :=
  match code <$> c with
  | [b] => (9 <=? b) && (b <=? 13) || (28 <=? b) && (b <=? 32)
  | [b1; b2] => (b1 =? 194) && ((b2 =? 133) || (b2 =? 160))
  | [b1; b2; b3] =>
      (b1 =? 225) && (b2 =? 154) && (b3 =? 128)
      || (b1 =? 226) && (b2 =? 128)
         && ((128 <=? b3) && (b3 <=? 138)
             || (b3 =? 168) || (b3 =? 169) || (b3 =? 175))
      || (b1 =? 226) && (b2 =? 129) && (b3 =? 159)
      || (b1 =? 227) && (b2 =? 128) && (b3 =? 128)
  | _ => false
  end%N.

Fixpoint lstrip_by {A} (p : A → bool) (l : list A) : list A :=
  match l with
  | a :: l' => if p a then lstrip_by p l' else l
  | [] => []
  end.

Definition rstrip_by {A} (p : A → bool) (l : list A) : list A :=
  rev (lstrip_by p (rev l)).

(** [s.strip()] *)
Definition strip (s : string) : string :=
  of_chars
    (List.concat (rstrip_by is_space (lstrip_by is_space (characters (chars s))))).

(** [not s.strip()]: the string is empty or made of white space. *)
Definition blank (s : string) : bool :=
  forallb is_space (characters (chars s)).

(** [s.rstrip(c)] for an ASCII character [c] *)
Definition rstrip_char (c : ascii) (s : string) : string :=
  of_chars (rstrip_by (Ascii.eqb c) (chars s)).

(** [s.lstrip(chars)] with the set of ASCII characters given as a
    predicate *)
Definition lstrip_pred (p : ascii → bool) (s : string) : string :=
  of_chars (lstrip_by p (chars s)).

(** [s.startswith(p)] *)
Definition startswith (p s : string) : bool := String.prefix p s.

Definition is_upper (a : ascii) : bool := ((65 <=? code a) && (code a <=? 90))%N.
Definition is_lower (a : ascii) : bool := ((97 <=? code a) && (code a <=? 122))%N.
Definition is_digit (a : ascii) : bool := ((48 <=? code a) && (code a <=? 57))%N.
Definition is_alpha (a : ascii) : bool := is_upper a || is_lower a.
Definition is_ascii (a : ascii) : bool := (code a <? 128)%N.

Definition lower_char (a : ascii) : ascii :=
  if is_upper a then ascii_of_N (code a + 32) else a.

(** The Kelvin sign U+212A ([E2 84 AA]) *)
Definition is_kelvin (c : list ascii) : bool :=
  match code <$> c with
  | [b1; b2; b3] => (b1 =? 226) && (b2 =? 132) && (b3 =? 170)
  | _ => false
  end%N.

(** The lower case of a character whose lower case is in ASCII: of an
    ASCII character, and of the Kelvin sign, which is [k]. Every other
    character keeps its bytes: its lower case is outside ASCII. *)
Definition lower_character (c : list ascii) : list ascii :=
  if is_kelvin c then ["k"%char] else lower_char <$> c.

(** [s.lower()]: [str.lower] on the strings of ASCII characters and Kelvin
    signs, and on every string as far as the comparison of the result
    with a string of ASCII characters goes. *)
Definition lower (s : string) : string :=
  of_chars (List.concat (lower_character <$> characters (chars s))).

(** [\d] of a character: an ASCII digit, or a character outside ASCII
    that the Unicode database classifies as a decimal digit. *)
Definition is_decimal (decimal : list ascii → bool) (c : list ascii) : bool :=
  match c with
  | [a] => is_digit a
  | _ => decimal c
  end.

(** The characters of the run of decimal digits [cs] starts with *)
Fixpoint digit_run (decimal : list ascii → bool) (cs : list (list ascii)) :
  list (list ascii) :=
  match cs with
  | c :: cs' => if is_decimal decimal c then c :: digit_run decimal cs' else []
  | [] => []
  end.

(** [s.replace(c, d)] for one-character [c] and [d] *)
Definition replace_char (c d : ascii) (s : string) : string :=
  of_chars (map (λ a, if Ascii.eqb a c then d else a) (chars s)).

(** [s.replace(c, "")] for every [c] of a set given as a predicate *)
Definition remove_chars (p : ascii → bool) (s : string) : string :=
  of_chars (filter (λ a, p a = false) (chars s)).

(** [c in s] for a one-character [c] *)
Definition has_char (c : ascii) (s : string) : bool :=
  existsb (Ascii.eqb c) (chars s).

(** [sub in s] *)
Definition contains (sub s : string) : bool :=
  match String.index 0 sub s with Some _ => true | None => false end.

(** Splits before the first character satisfying [p]:
    [(s[:i], s[i:])], or [(s, "")] when there is none. *)
Fixpoint break_at (p : ascii → bool) (l : list ascii) : list ascii * list ascii :=
  match l with
  | [] => ([], [])
  | a :: l' =>
      if p a then ([], l)
      else let '(u, v) := break_at p l' in (a :: u, v)
  end.

(** [s.split(c, 1)]: [None] when [c] does not occur, else the text before
    and after its first occurrence. *)
Definition split_once (c : ascii) (s : string) : option (string * string) :=
  match break_at (Ascii.eqb c) (chars s) with
  | (u, _ :: v) => Some (of_chars u, of_chars v)
  | (_, []) => None
  end.

(** [s.split(c)] *)
Fixpoint split_chars (c : ascii) (cur : list ascii) (l : list ascii) : list string :=
  match l with
  | [] => [of_chars (rev cur)]
  | a :: l' =>
      if Ascii.eqb a c then of_chars (rev cur) :: split_chars c [] l'
      else split_chars c (a :: cur) l'
  end.

Definition split (c : ascii) (s : string) : list string := split_chars c [] (chars s).

(** Python truth value of a string *)
Definition nonempty (s : string) : bool :=
  match s with EmptyString => false | _ => true end.

End PyStr.

(** ** JSON values and the Python operations the code applies to them *)

(** A Python float: not a number, an infinity, or the rational
    [num / den] that a finite double is *)
Inductive pyfloat :=
| NaN
| Infinity (negative : bool)
| Finite (num : Z) (den : positive).

Inductive json :=
| JNull
| JBool (b : bool)
| JInt (z : Z)
| JFloat (f : pyfloat)
| JStr (s : string)
| JArr (l : list json)
| JObj (o : gmap string json).

Inductive exn :=
| RequestException (msg : string)
| ValueError
| TypeError
| AttributeError
| IndexError
| KeyError
| UnicodeDecodeError
| RecursionError.

Inductive res (A : Type) :=
| Ok (a : A)
| Raise (e : exn).
Arguments Ok {A} a.
Arguments Raise {A} e.

#[global] Instance res_ret : MRet res := λ A a, Ok a.
#[global] Instance res_bind : MBind res := λ A B k r,
  match r with Ok a => k a | Raise e => Raise e end.
#[global] Instance res_fmap : FMap res := λ A B f r,
  match r with Ok a => Ok (f a) | Raise e => Raise e end.

(** Python truth value ([bool(v)], [if v], [not v]) *)
Definition truthy (v : json) : bool :=
  match v with
  | JNull => false
  | JBool b => b
  | JInt z => negb (z =? 0)
  | JFloat f => match f with Finite num _ => negb (num =? 0) | _ => true end
  | JStr s => PyStr.nonempty s
  | JArr l => match l with [] => false | _ => true end
  | JObj o => negb (bool_decide (o = ∅))
  end.

(** [v.get(key, default)]: only a dict has [get]. *)
Definition py_get (v : json) (key : string) (dflt : json) : res json :=
  match v with
  | JObj o => Ok (default dflt (o !! key))
  | _ => Raise AttributeError
  end.

(** ** [urllib.parse]: the parts [parse_search_url] runs

    Two pieces of the library are taken as parameters: the validation of a
    netloc that holds brackets or non-ASCII bytes ([ValueError] when it
    fails), and the decoding of a string that holds percent escapes. The
    rest follows CPython 3.12: [urlsplit] strips leading control
    characters and removes TAB, CR and LF, and [parse_qsl] separates
    fields at ["&"] only. *)

Module Urllib.
Import PyStr.

Record ParseResult := {
  scheme : string;
  netloc : string;
  path : string;
  params : string;
  query : string;
  fragment : string
}.

Definition scheme_char (a : ascii) : bool :=
  is_alpha a || is_digit a
  || Ascii.eqb a "+" || Ascii.eqb a "-" || Ascii.eqb a ".".

Definition c0_control_or_space (a : ascii) : bool := (code a <=? 32)%N.

Definition unsafe_url_byte (a : ascii) : bool :=
  (Ascii.eqb a "009" || Ascii.eqb a "010" || Ascii.eqb a "013")%char.

Definition netloc_delim (a : ascii) : bool :=
  Ascii.eqb a "/" || Ascii.eqb a "?" || Ascii.eqb a "#".

Definition uses_params : list string :=
  [""; "ftp"; "hdl"; "prospero"; "http"; "imap"; "https"; "shttp"; "rtsp";
   "rtspu"; "sip"; "sips"; "mms"; "sftp"; "tel"].

(** The scheme of [url] and the text after its colon, when the text before
    the first colon starts with a letter and is made of scheme characters. *)
Definition split_scheme (url : string) : string * string :=
  match split_once ":" url with
  | Some (pre, post) =>
      match chars pre with
      | c :: _ =>
          if is_ascii c && is_alpha c && forallb scheme_char (chars pre)
          then (lower pre, post) else ("", url)
      | [] => ("", url)
      end
  | None => ("", url)
  end.

(** [_splitnetloc(url, 2)] *)
Definition splitnetloc (url : string) : string * string :=
  let '(n, r) := break_at netloc_delim (drop 2 (chars url)) in
  (of_chars n, of_chars r).

(** [_splitparams] *)
Definition splitparams (url : string) : string * string :=
  let '(rlast, rhead) := break_at (Ascii.eqb "/") (rev (chars url)) in
  match break_at (Ascii.eqb ";") (rev rlast) with
  | (u, _ :: v) => (of_chars (rev rhead ++ u)%list, of_chars v)
  | (_, []) => (url, "")
  end.

Section parse.
Variable netloc_check : string → bool.
Variable unquote_escapes : string → string.

Definition urlsplit (url : string) : res ParseResult :=
  let url := lstrip_pred c0_control_or_space url in
  let url := remove_chars unsafe_url_byte url in
  let '(sch, url) := split_scheme url in
  let '(nl, url) :=
    if startswith "//" url then splitnetloc url else ("", url) in
  if xorb (has_char "[" nl) (has_char "]" nl) then Raise ValueError
  else if (has_char "[" nl || negb (forallb is_ascii (chars nl)))
          && negb (netloc_check nl) then Raise ValueError
  else
    let '(url, frag) :=
      match split_once "#" url with Some p => p | None => (url, "") end in
    let '(url, qry) :=
      match split_once "?" url with Some p => p | None => (url, "") end in
    Ok {| scheme := sch; netloc := nl; path := url; params := "";
          query := qry; fragment := frag |}.

Definition urlparse (url : string) : res ParseResult :=
  r ← urlsplit url;
  if bool_decide (scheme r ∈ uses_params) && has_char ";" (path r) then
    let '(p, prm) := splitparams (path r) in
    Ok {| scheme := scheme r; netloc := netloc r; path := p; params := prm;
          query := query r; fragment := fragment r |}
  else Ok r.

(** [unquote]: a string without ["%"] is returned as it is. *)
Definition unquote (s : string) : string :=
  if has_char "%" s then unquote_escapes s else s.

(** [parse_qsl(qs)] with the default arguments: fields without ["="] and
    fields with an empty value are dropped. *)
Definition parse_qsl (qs : string) : list (string * string) :=
  omap (λ name_value,
          match split_once "=" name_value with
          | Some (n, v) =>
              if nonempty v
              then Some (unquote (replace_char "+" " " n),
                         unquote (replace_char "+" " " v))
              else None
          | None => None
          end)
       (split "&" qs).

(** [parse_qs(qs)]: the values of each name, in order of occurrence. *)
Definition parse_qs (qs : string) : gmap string (list string) :=
  foldl (λ (parsed_result : gmap string (list string)) (nv : string * string),
           let '(name, value) := nv in
           match parsed_result !! name with
           | Some vs => <[name := (vs ++ [value])%list]> parsed_result
           | None => <[name := [value]]> parsed_result
           end)
        ∅ (parse_qsl qs).

End parse.
End Urllib.

(** ** [bato_mirror_manager.py] *)

Record MirrorConfig := {
  base_url : string;
  search_path : string;
  search_params : gmap string json
}.

Definition DEFAULT_MIRRORS : list MirrorConfig :=
  [ {| base_url := "https://bato.to"; search_path := "/v4x-search";
       search_params := {[ "type" := JStr "comic" ]} |};
    {| base_url := "https://bato.si"; search_path := "/v4x-search";
       search_params := {[ "type" := JStr "comic" ]} |};
    {| base_url := "https://bato.ing"; search_path := "/v4x-search";
       search_params := {[ "type" := JStr "comic" ]} |} ].

Definition excluded_params : list string :=
  ["word"; "page"; "q"; "query"; "search"; "keyword"].

Section parse_search_url.
Variable netloc_check : string → bool.
Variable unquote_escapes : string → string.

(** The text handed to [urlparse]: stripped, with ["https://"] in front
    when no scheme prefix is there. *)
Definition with_scheme (url : string) : string :=
  let url := PyStr.strip url in
  if PyStr.startswith "http://" url || PyStr.startswith "https://" url
  then url else "https://" +:+ url.

Definition parse_search_url (url : string) : option MirrorConfig :=
  if negb (PyStr.nonempty (PyStr.strip url)) then None
  else
    match Urllib.urlparse netloc_check (with_scheme url) with
    | Raise _ => None
    | Ok parsed =>
        if negb (PyStr.nonempty (Urllib.netloc parsed)) then None
        else
          let query_params :=
            Urllib.parse_qs unquote_escapes (Urllib.query parsed) in
          Some {|
            base_url := Urllib.scheme parsed +:+ "://" +:+ Urllib.netloc parsed;
            search_path :=
              if PyStr.nonempty (Urllib.path parsed)
              then Urllib.path parsed else "/";
            search_params :=
              map_imap (λ key values,
                          if bool_decide (PyStr.lower key ∈ excluded_params)
                          then None else JStr <$> head values)
                       query_params
          |}
    end.

End parse_search_url.

(** *** The persisted configuration file *)

(** What [read_text] and [json.loads] make of the file: it cannot be read
    ([OSError]), it is not JSON ([JSONDecodeError]), reading or decoding
    it raises another exception ([UnicodeDecodeError] for bytes that are
    not UTF-8, [ValueError] for an integer literal of more than 4300
    digits, [RecursionError] for too deep a nesting), or it decodes. *)
Inductive file_content :=
| Unreadable
| Undecodable
| Rejected (e : exn)
| Decoded (data : json).

(** The manager: its two fields, the file at [_config_file] ([None] when it
    does not exist) and whether [write_text] succeeds on it. Its
    [_current_index] is an integer; the object that the constructor makes
    of a file with a float [current_index] is kept apart ([FloatIndexed]
    below). *)
Record BatoMirrorManager := {
  _mirrors : list MirrorConfig;
  _current_index : Z;
  _config_file : option file_content;
  writable : bool
}.

Definition set_index (i : Z) (m : BatoMirrorManager) : BatoMirrorManager :=
  {| _mirrors := _mirrors m; _current_index := i;
     _config_file := _config_file m; writable := writable m |}.

Definition set_mirrors (l : list MirrorConfig) (m : BatoMirrorManager) :
  BatoMirrorManager :=
  {| _mirrors := l; _current_index := _current_index m;
     _config_file := _config_file m; writable := writable m |}.

Definition set_file (f : option file_content) (m : BatoMirrorManager) :
  BatoMirrorManager :=
  {| _mirrors := _mirrors m; _current_index := _current_index m;
     _config_file := f; writable := writable m |}.

Definition len (m : BatoMirrorManager) : Z := Z.of_nat (List.length (_mirrors m)).

(** A number that [_current_index] can hold after the load *)
Inductive number :=
| Int (z : Z)
| Float (f : pyfloat).

(** What the constructor leaves: a manager, or the records and the index
    of an object whose [_current_index] is a float. *)
Inductive constructed :=
| Manager (m : BatoMirrorManager)
| FloatIndexed (mirrors : list MirrorConfig) (index : pyfloat).

(** [l[i]] with Python's negative indexes *)
Definition py_index {A} (l : list A) (i : Z) : res A :=
  let n := Z.of_nat (List.length l) in
  let j := if i <? 0 then i + n else i in
  if (0 <=? j) && (j <? n) then
    match l !! Z.to_nat j with Some x => Ok x | None => Raise IndexError end
  else Raise IndexError.

(** [l.pop(i)] and [l.insert(i, x)] for [0 <= i] *)
Definition pop {A} (i : Z) (l : list A) : list A := delete (Z.to_nat i) l.
Definition insert_at {A} (i : Z) (x : A) (l : list A) : list A :=
  (take (Z.to_nat i) l ++ x :: drop (Z.to_nat i) l)%list.

(** The JSON form of a record, as [json.dumps] writes the dict *)
Definition mirror_json (c : MirrorConfig) : json :=
  JObj {[ "base_url" := JStr (base_url c);
          "search_path" := JStr (search_path c);
          "search_params" := JObj (search_params c) ]}.

Definition payload (m : BatoMirrorManager) : json :=
  JObj {[ "mirrors" := JArr (mirror_json <$> _mirrors m);
          "current_index" := JInt (_current_index m) ]}.

(** [_save_config]: a failed write ([OSError]) is logged and swallowed.
    The directory is taken to exist, so that [mkdir], which is outside the
    [try], does nothing. What a later [json.loads] makes of the text of
    [json.dumps] is the payload itself: the records of a manager have
    string keys and texts that UTF-8 encodes. *)
Definition _save_config (m : BatoMirrorManager) : BatoMirrorManager :=
  if writable m then set_file (Some (Decoded (payload m))) m else m.

Section load.
(** [str(v)] of a value that is not a string, and [dict(v)] of a value
    that is not a dict: [TypeError] or [ValueError] for most values, the
    empty dict for an empty list or string, the dict of the pairs for a
    list of pairs. The keys of that dict are taken to be strings: a list
    with a pair like [[1, 2]], of which [dict] makes a key that is not a
    string, is outside the model. *)
Variable py_repr : json → string.
Variable dict_of_other : json → res (gmap string json).

Definition py_str (v : json) : string :=
  match v with JStr s => s | _ => py_repr v end.

Definition py_dict (v : json) : res (gmap string json) :=
  match v with JObj o => Ok o | _ => dict_of_other v end.

(** One entry of the persisted [mirrors] list: a dict with a [base_url]
    key, a bare URL string (legacy format), or something else, skipped. *)
Definition load_entry (m : json) : res (option MirrorConfig) :=
  match m with
  | JObj o =>
      match o !! "base_url" with
      | Some b =>
          sp ← py_dict (default (JObj ∅) (o !! "search_params"));
          Ok (Some {|
            base_url := PyStr.rstrip_char "/" (py_str b);
            search_path :=
              py_str (default (JStr "/v4x-search") (o !! "search_path"));
            search_params := sp |})
      | None => Ok None
      end
  | JStr s =>
      Ok (Some {| base_url := PyStr.rstrip_char "/" s;
                  search_path := "/v4x-search";
                  search_params := {[ "type" := JStr "comic" ]} |})
  | _ => Ok None
  end.

Fixpoint load_entries (ms : list json) : res (list MirrorConfig) :=
  match ms with
  | [] => Ok []
  | m :: ms' =>
      e ← load_entry m;
      rest ← load_entries ms';
      Ok (match e with Some c => c :: rest | None => rest end)
  end.

(** [n < f] for an integer [n] and a float [f] *)
Definition lt_int_float (n : Z) (f : pyfloat) : bool :=
  match f with
  | NaN => false
  | Infinity negative => negb negative
  | Finite num den => n * Z.pos den <? num
  end.

(** [min(v, n)] for the persisted [current_index]: [n] when [n < v], else
    [v] itself. An integer (a bool counts as 0 or 1) or a float is
    compared, anything else raises. *)
Definition py_min (v : json) (n : Z) : res number :=
  match v with
  | JInt z => Ok (Int (Z.min z n))
  | JBool b => Ok (Int (Z.min (Z.b2z b) n))
  | JFloat f => Ok (if lt_int_float n f then Int n else Float f)
  | _ => Raise TypeError
  end.

(** [_load_config], from the two fields as [__init__] sets them
    ([[]] and [0]): the new records and index, or the exception that
    leaves the [try] block uncaught. *)
Definition _load_config (file : option file_content) :
  res (list MirrorConfig * number) :=
  match file with
  | None => Ok (DEFAULT_MIRRORS, Int 0)
  | Some Unreadable | Some Undecodable => Ok (DEFAULT_MIRRORS, Int 0)
  | Some (Rejected e) => Raise e
  | Some (Decoded data) =>
      mirrors ← py_get data "mirrors" (JArr []);
      loaded ← match mirrors with
               | JArr ((_ :: _) as ms) =>
                   loaded_mirrors ← load_entries ms;
                   Ok (match loaded_mirrors with
                       | [] => DEFAULT_MIRRORS
                       | _ => loaded_mirrors
                       end)
               | _ => Ok DEFAULT_MIRRORS
               end;
      ci ← py_get data "current_index" (JInt 0);
      i ← py_min ci (match loaded with
                     | [] => 0
                     | _ => Z.of_nat (List.length loaded) - 1
                     end);
      Ok (loaded, i)
  end.

(** [BatoMirrorManager(config_dir)] *)
Definition init (file : option file_content) (w : bool) : res constructed :=
  '(ms, i) ← _load_config file;
  Ok (match i with
      | Int z => Manager {| _mirrors := ms; _current_index := z;
                            _config_file := file; writable := w |}
      | Float f => FloatIndexed ms f
      end).

End load.

(** [current_mirror] *)
Definition current_mirror (m : BatoMirrorManager) : res MirrorConfig :=
  match _mirrors m with
  | [] => py_index DEFAULT_MIRRORS 0
  | _ => py_index (_mirrors m) (_current_index m)
  end.

(** [current_mirror] of what the constructor left: a list cannot be
    indexed by a float. *)
Definition constructed_current_mirror (c : constructed) : res MirrorConfig :=
  match c with
  | Manager m => current_mirror m
  | FloatIndexed mirrors _ =>
      match mirrors with
      | [] => py_index DEFAULT_MIRRORS 0
      | _ => Raise TypeError
      end
  end.

Definition current_base_url (m : BatoMirrorManager) : res string :=
  base_url <$> current_mirror m.

(** *** Mutating operations

    Each returns the manager after the call with what the method returns.
    [DEFAULT_MIRRORS] is kept constant: in the source the default records
    are shared with the lists copied from it, so an in-place update of one
    of them also changes its [search_path] and [search_params] (never its
    [base_url]) in [DEFAULT_MIRRORS]. *)

Section add.
Variable netloc_check : string → bool.
Variable unquote_escapes : string → string.

Definition update_search (config existing : MirrorConfig) : MirrorConfig :=
  {| base_url := base_url existing;
     search_path := search_path config;
     search_params := search_params config |}.

Definition add_mirror_from_url (url : string) (m : BatoMirrorManager) :
  BatoMirrorManager * (bool * string) :=
  match parse_search_url netloc_check unquote_escapes url with
  | None =>
      (m, (false,
           "Invalid URL format. Please paste a search URL from your browser."))
  | Some config =>
      match list_find (λ existing, base_url existing = base_url config)
                      (_mirrors m) with
      | Some (i, existing) =>
          (_save_config
             (set_mirrors (<[i := update_search config existing]> (_mirrors m)) m),
           (true, "Updated " +:+ base_url config +:+ " search path to "
                  +:+ search_path config))
      | None =>
          (_save_config (set_mirrors (_mirrors m ++ [config])%list m),
           (true, "Added mirror: " +:+ base_url config +:+ " (path: "
                  +:+ search_path config +:+ ")"))
      end
  end.

End add.

Definition remove_mirror (index : Z) (m : BatoMirrorManager) :
  BatoMirrorManager * (bool * string) :=
  if negb ((0 <=? index) && (index <? len m)) then
    (m, (false, "Invalid mirror index"))
  else if len m <=? 1 then
    (m, (false, "Cannot remove the last mirror"))
  else
    let removed := base_url <$> (_mirrors m !! Z.to_nat index) in
    let m1 := set_mirrors (pop index (_mirrors m)) m in
    let m2 :=
      if len m1 <=? _current_index m1 then set_index (len m1 - 1) m1
      else if index <? _current_index m1
           then set_index (_current_index m1 - 1) m1
           else m1 in
    (_save_config m2, (true, "Removed mirror: " +:+ default "" removed)).

Definition move_mirror (from_index to_index : Z) (m : BatoMirrorManager) :
  BatoMirrorManager * bool :=
  if negb ((0 <=? from_index) && (from_index <? len m)) then (m, false)
  else if negb ((0 <=? to_index) && (to_index <? len m)) then (m, false)
  else if from_index =? to_index then (m, true)
  else
    match _mirrors m !! Z.to_nat from_index with
    | Some mirror =>
        (_save_config
           (set_mirrors
              (insert_at to_index mirror (pop from_index (_mirrors m))) m),
         true)
    | None => (m, false)
    end.

(** [next_mirror]: [None] is "no more mirrors available". *)
Definition next_mirror (m : BatoMirrorManager) :
  BatoMirrorManager * option MirrorConfig :=
  if len m <=? 1 then (m, None)
  else
    let next_index := (_current_index m + 1) `mod` len m in
    if next_index =? 0 then (m, None)
    else
      let m' := _save_config (set_index next_index m) in
      (m', _mirrors m' !! Z.to_nat (_current_index m')).

Definition reset_to_primary (m : BatoMirrorManager) : BatoMirrorManager :=
  if negb (_current_index m =? 0) then _save_config (set_index 0 m) else m.

Definition reset_to_defaults (m : BatoMirrorManager) : BatoMirrorManager :=
  _save_config (set_index 0 (set_mirrors DEFAULT_MIRRORS m)).

(** ** [bato_service.py]

    The scraper session is a transport: what it answers to a request may
    depend on the requests sent before. The service keeps the log of the
    requests it sent and a ghost log of its top-level search sub-requests.
    [_apply_rate_limit] only sleeps and stamps the clock; it is left out. *)

Inductive request :=
| Get (url : string) (params : option (gmap string json))
| PostSearch (api_url : string) (query : string) (page : Z)
| PostComic (api_url : string) (comic_id : string)
| PostChapters (api_url : string) (comic_id : string).

(** A transport failure or a bad status ([RequestException]), or a
    response with its text and what [response.json()] gives. *)
Inductive response :=
| Failed (msg : string)
| Reply (text : string) (decoded : res json).

Record BatoService := {
  _mirror_manager : BatoMirrorManager;
  calls : list request;
  subrequests : list (string * Z)
}.

Definition set_manager (m : BatoMirrorManager) (s : BatoService) : BatoService :=
  {| _mirror_manager := m; calls := calls s; subrequests := subrequests s |}.

Definition log_call (rq : request) (s : BatoService) : BatoService :=
  {| _mirror_manager := _mirror_manager s; calls := (calls s ++ [rq])%list;
     subrequests := subrequests s |}.

Definition log_subrequest (q : string) (page : Z) (s : BatoService) : BatoService :=
  {| _mirror_manager := _mirror_manager s; calls := calls s;
     subrequests := (subrequests s ++ [(q, page)])%list |}.

Record SearchHit := {
  hit_title : json;
  hit_url : string;
  hit_subtitle : json
}.

Record ChapterRef := {
  chapter_title : json;
  chapter_url : string;
  chapter_label : json
}.

Record SeriesInfo := {
  info_title : json;
  info_description : json;
  info_attributes : gmap string json;
  info_chapters : list ChapterRef;
  info_url : string
}.

(** An [a.chapt] anchor as [_extract_chapters] reads it: its [href] when
    that is a string, the stripped texts of its first [b] and [span], and
    its own text. *)
Record Anchor := {
  href : option string;
  b_text : option string;
  span_text : option string;
  text_content : string
}.

Definition is_request_exception (e : exn) : bool :=
  match e with RequestException _ => true | _ => false end.

(** [for x in v] *)
Definition py_iter (v : json) : res (list json) :=
  match v with
  | JArr l => Ok l
  | JObj o => Ok (JStr <$> (map_to_list o).*1)
  | JStr s => Ok ((λ a, JStr (String a EmptyString)) <$> PyStr.chars s)
  | _ => Raise TypeError
  end.

Definition is_errors_str (v : json) : bool :=
  match v with JStr s => String.eqb s "errors" | _ => false end.

(** First match of [/title/(\d+)]: its group, the longest run of decimal
    digits after the first ["/title/"] that a decimal digit follows.
    [decimal] tells the decimal digits among the characters outside
    ASCII. *)
Fixpoint search_title_id (decimal : list ascii → bool) (l : list ascii) :
  option (list ascii) :=
  match l with
  | [] => None
  | _ :: l' =>
      match l with
      | "/" :: "t" :: "i" :: "t" :: "l" :: "e" :: "/" :: rest =>
          match PyStr.digit_run decimal (PyStr.characters rest) with
          | [] => search_title_id decimal l'
          | digits => Some (List.concat digits)
          end
      | _ => search_title_id decimal l'
      end
  end%char.

Section service.
Variable scraper : list request → request → response.
Variable urljoin : string → string → string.
Variable py_repr : json → string.
Variable netloc_check : string → bool.
Variable decimal : list ascii → bool.
Variable max_search_pages : Z.

(** [self._scraper.get/post(...)] followed by [raise_for_status()] *)
Definition send (rq : request) (s : BatoService) : BatoService * res response :=
  (log_call rq s,
   match scraper (calls s) rq with
   | Failed msg => Raise (RequestException msg)
   | r => Ok r
   end).

Definition response_json (r : response) : res json :=
  match r with Reply _ d => d | Failed msg => Raise (RequestException msg) end.

Definition response_text (r : response) : string :=
  match r with Reply t _ => t | Failed _ => "" end.

(** [if "errors" in data: raise RequestException(...)] *)
Definition check_errors (data : json) : res unit :=
  match data with
  | JObj o =>
      match o !! "errors" with
      | Some v => Raise (RequestException ("GraphQL error: " +:+ py_str py_repr v))
      | None => Ok ()
      end
  | JArr l => if existsb is_errors_str l then Raise TypeError else Ok ()
  | JStr s => if PyStr.contains "errors" s then Raise TypeError else Ok ()
  | _ => Raise TypeError
  end.

(** [send] then [response.json()] then the [errors] check *)
Definition post_json (rq : request) (s : BatoService) : BatoService * res json :=
  let '(s1, r) := send rq s in
  (s1, resp ← r; data ← response_json resp; _ ← check_errors data; Ok data).

(** What is raised once the mirrors are exhausted, after the reset *)
Definition exhausted {A} (generic : string) (last_error : option exn)
  (s : BatoService) : BatoService * res A :=
  (set_manager (reset_to_primary (_mirror_manager s)) s,
   Raise (default (RequestException generic) last_error)).

(** The retry loop the three request methods share, with the body of
    their [try] as [attempt]. [fuel] bounds the iterations. *)
Fixpoint fallback_loop {A} (attempt : string → BatoService → BatoService * res A)
  (generic : string) (fuel : nat) (tried_mirrors : list string)
  (last_error : option exn) (s : BatoService) :
  option (BatoService * res (A * string)) :=
  match fuel with
  | O => None
  | S fuel' =>
      match current_base_url (_mirror_manager s) with
      | Raise e => Some (s, Raise e)
      | Ok current_base =>
          if bool_decide (current_base ∈ tried_mirrors)
          then Some (exhausted generic last_error s)
          else
            let tried_mirrors := (tried_mirrors ++ [current_base])%list in
            let '(s1, r) := attempt current_base s in
            match r with
            | Ok a => Some (s1, Ok (a, current_base))
            | Raise e =>
                if is_request_exception e then
                  let '(m', nxt) := next_mirror (_mirror_manager s1) in
                  let s2 := set_manager m' s1 in
                  match nxt with
                  | None => Some (exhausted generic (Some e) s2)
                  | Some _ =>
                      fallback_loop attempt generic fuel' tried_mirrors (Some e) s2
                  end
                else Some (s1, Raise e)
            end
      end
  end.

(** Enough iterations for any store *)
Definition enough (s : BatoService) : nat :=
  S (S (List.length (_mirrors (_mirror_manager s)))).

Definition with_fallback {A} (attempt : string → BatoService → BatoService * res A)
  (generic : string) (s : BatoService) : option (BatoService * res (A * string)) :=
  match current_base_url (_mirror_manager s) with
  | Raise e => Some (s, Raise e)
  | Ok start_mirror => fallback_loop attempt generic (enough s) [] None s
  end.

Definition request_attempt (path : string) (params : option (gmap string json))
  (current_base : string) (s : BatoService) : BatoService * res string :=
  let '(s1, r) := send (Get (urljoin current_base path) params) s in
  (s1, response_text <$> r).

Definition _request_with_fallback (path : string)
  (params : option (gmap string json)) (s : BatoService) :
  option (BatoService * res (string * string)) :=
  with_fallback (request_attempt path params)
    ("All mirrors failed for path: " +:+ path) s.

Definition search_attempt (query : string) (page : Z)
  (current_base : string) (s : BatoService) : BatoService * res json :=
  let api_url := urljoin current_base "/apo/" in
  let '(s1, r) := post_json (PostSearch api_url query page) s in
  (s1,
   data ← r;
   d ← py_get data "data" (JObj ∅);
   results ← py_get d "get_content_searchComic" (JObj ∅);
   py_get results "items" (JArr [])).

Definition _search_with_fallback (query : string) (page : Z) (s : BatoService) :
  option (BatoService * res (json * string)) :=
  with_fallback (search_attempt query page)
    ("All mirrors failed for search: " +:+ query) (log_subrequest query page s).

Definition series_attempt (comic_id : string)
  (current_base : string) (s : BatoService) : BatoService * res (json * json) :=
  let api_url := urljoin current_base "/apo/" in
  let '(s1, r1) := post_json (PostComic api_url comic_id) s in
  match r1 with
  | Raise e => (s1, Raise e)
  | Ok comic_result =>
      let '(s2, r2) := post_json (PostChapters api_url comic_id) s1 in
      (s2,
       chapters_result ← r2;
       d1 ← py_get comic_result "data" (JObj ∅);
       comic_data ← py_get d1 "get_content_comicNode" (JObj ∅);
       d2 ← py_get chapters_result "data" (JObj ∅);
       chapters_data ← py_get d2 "get_content_chapterList" (JArr []);
       Ok (comic_data, chapters_data))
  end.

Definition _get_series_info_graphql (comic_id : string) (s : BatoService) :
  option (BatoService * res (json * json * string)) :=
  with_fallback (series_attempt comic_id)
    ("All mirrors failed for comic ID: " +:+ comic_id) s.

(** [urljoin(base_url, v)] for a truthy [v]: a value that is not a string
    cannot be mixed with the string [base_url]. *)
Definition urljoin_value (base : string) (v : json) : res string :=
  match v with JStr p => Ok (urljoin base p) | _ => Raise TypeError end.

(** The body of [for item in items] of [search_manga] *)
Definition add_hit (base : string) (item : json)
  (acc : list SearchHit * gset string) : res (list SearchHit * gset string) :=
  let '(results, seen_urls) := acc in
  data ← py_get item "data" (JObj ∅);
  url_path ← py_get data "urlPath" (JStr "");
  if negb (truthy url_path) then Ok acc
  else
    series_url ← urljoin_value base url_path;
    if bool_decide (series_url ∈ seen_urls) then Ok acc
    else
      name ← py_get data "name" (JStr "Unknown");
      slug ← py_get data "slug" (JStr "");
      Ok ((results ++ [ {| hit_title := name; hit_url := series_url;
                           hit_subtitle := slug |} ])%list,
          {[ series_url ]} ∪ seen_urls).

Fixpoint add_hits (base : string) (items : list json)
  (acc : list SearchHit * gset string) : res (list SearchHit * gset string) :=
  match items with
  | [] => Ok acc
  | item :: rest => acc' ← add_hit base item acc; add_hits base rest acc'
  end.

(** [range(1, n + 1)] *)
Definition range1 (n : Z) : list Z := Z.of_nat <$> seq 1 (Z.to_nat n).

(** The loop [for page in range(...)] of [search_manga] *)
Fixpoint search_pages (normalized_query : string) (pages : list Z)
  (acc : list SearchHit * gset string) (s : BatoService) :
  option (BatoService * res (list SearchHit)) :=
  match pages with
  | [] => Some (s, Ok acc.1)
  | page :: rest =>
      match _search_with_fallback normalized_query page s with
      | None => None
      | Some (s1, Raise e) => Some (s1, Raise e)
      | Some (s1, Ok (items, base_url)) =>
          if negb (truthy items) then Some (s1, Ok acc.1)
          else
            match l ← py_iter items; add_hits base_url l acc with
            | Raise e => Some (s1, Raise e)
            | Ok acc' => search_pages normalized_query rest acc' s1
            end
      end
  end.

Definition search_manga (query : string) (max_pages : option Z)
  (s : BatoService) : option (BatoService * res (list SearchHit)) :=
  let normalized_query := PyStr.strip query in
  if negb (PyStr.nonempty normalized_query) then Some (s, Ok [])
  else
    let max_pages := default max_search_pages max_pages in
    search_pages normalized_query (range1 (Z.max 1 max_pages)) ([], ∅) s.

(** The body of [for ch in chapters_data] of [get_series_info] *)
Definition add_chapter (base : string) (ch : json) (chapters : list ChapterRef) :
  res (list ChapterRef) :=
  ch_data ← py_get ch "data" (JObj ∅);
  url_path ← py_get ch_data "urlPath" (JStr "");
  if negb (truthy url_path) then Ok chapters
  else
    dname ← py_get ch_data "dname" (JStr "Unknown");
    u ← urljoin_value base url_path;
    Ok (chapters ++ [ {| chapter_title := dname; chapter_url := u;
                         chapter_label := dname |} ])%list.

Fixpoint add_chapters (base : string) (chs : list json)
  (chapters : list ChapterRef) : res (list ChapterRef) :=
  match chs with
  | [] => Ok chapters
  | ch :: rest => c ← add_chapter base ch chapters; add_chapters base rest c
  end.

(** [attributes[label] = data[key]] when [data.get(key)] is truthy *)
Definition add_attribute (data : gmap string json) (key label : string)
  (attributes : gmap string json) : gmap string json :=
  match data !! key with
  | Some v => if truthy v then <[label := v]> attributes else attributes
  | None => attributes
  end.

(** The part of [get_series_info] after the two API calls *)
Definition build_series_info (path : string) (comic_data chapters_data : json)
  (base : string) : res SeriesInfo :=
  data ← py_get comic_data "data" (JObj ∅);
  title ← py_get data "name" (JStr "Unknown Title");
  summary ← py_get data "summary" JNull;
  description ←
    match summary with
    | JObj o => if truthy summary then Ok (default (JStr "") (o !! "code"))
                else Ok (JStr "")
    | _ => Ok (JStr "")
    end;
  attributes ←
    match data with
    | JObj o => Ok (add_attribute o "genres" "Genres"
                      (add_attribute o "authors" "Authors" ∅))
    | _ => Raise AttributeError
    end;
  chs ← py_iter chapters_data;
  chapters ← add_chapters base chs [];
  Ok {| info_title := title; info_description := description;
        info_attributes := attributes; info_chapters := chapters;
        info_url := urljoin base path |}.

Definition get_series_info (series_url : string) (s : BatoService) :
  option (BatoService * res SeriesInfo) :=
  match Urllib.urlparse netloc_check series_url with
  | Raise e => Some (s, Raise e)
  | Ok parsed =>
      let path := Urllib.path parsed in
      match search_title_id decimal (PyStr.chars path) with
      | None => Some (s, Raise ValueError)
      | Some digits =>
          let comic_id := PyStr.of_chars digits in
          match _get_series_info_graphql comic_id s with
          | None => None
          | Some (s1, Raise e) => Some (s1, Raise e)
          | Some (s1, Ok (comic_data, chapters_data, base)) =>
              Some (s1, build_series_info path comic_data chapters_data base)
          end
      end
  end.

(** [" ".join(part for part in [a, b] if part).strip()] *)
Definition join_parts (a b : string) : string :=
  PyStr.strip
    (if PyStr.nonempty a
     then (if PyStr.nonempty b then a +:+ " " +:+ b else a)
     else b).

(** The body of [for anchor in soup.select("a.chapt")] *)
Definition anchor_chapter (url_base : string) (a : Anchor) : option ChapterRef :=
  match href a with
  | None => None
  | Some h =>
      let base_title := default "" (b_text a) in
      let subtitle := default "" (span_text a) in
      let full_title := join_parts base_title subtitle in
      let display_title :=
        if PyStr.nonempty full_title then full_title else text_content a in
      Some {| chapter_title := JStr display_title;
              chapter_url := urljoin url_base h;
              chapter_label :=
                JStr (if PyStr.nonempty base_title then base_title
                      else display_title) |}
  end.

(** [_extract_chapters] over the anchors that [soup.select] found *)
Definition _extract_chapters (anchors : list Anchor) (base : option string)
  (s : BatoService) : res (list ChapterRef) :=
  url_base ← match base with
             | Some b => if PyStr.nonempty b then Ok b
                         else current_base_url (_mirror_manager s)
             | None => current_base_url (_mirror_manager s)
             end;
  Ok (rev (omap (anchor_chapter url_base) anchors)).

End service.

(** ** Stores used in examples *)

Definition mk_mirror (b : string) : MirrorConfig :=
  {| base_url := b; search_path := "/v4x-search";
     search_params := {[ "type" := JStr "comic" ]} |}.

Definition mirror_A : MirrorConfig := mk_mirror "https://a.example".
Definition mirror_B : MirrorConfig := mk_mirror "https://b.example".
Definition mirror_C : MirrorConfig := mk_mirror "https://c.example".

Definition store_ABC (i : Z) : BatoMirrorManager :=
  {| _mirrors := [mirror_A; mirror_B; mirror_C]; _current_index := i;
     _config_file := None; writable := true |}.

(** ** The data invariant of a store

    No empty [base_url], no repeated [base_url], and an index inside the
    list when there is one. *)
Definition store_inv (m : BatoMirrorManager) : Prop :=
  (∀ c, c ∈ _mirrors m → base_url c ≠ "")
  ∧ NoDup (base_url <$> _mirrors m)
  ∧ (_mirrors m ≠ [] → 0 ≤ _current_index m < len m).

(** ** Enumerating fallback candidates

    [advance_all] calls [next_mirror] until it answers [None] and collects
    the mirrors it answered; [None] when [fuel] calls were not enough. *)
Fixpoint advance_all (fuel : nat) (m : BatoMirrorManager) :
  option (list MirrorConfig * BatoMirrorManager) :=
  match fuel with
  | O => None
  | S fuel' =>
      match next_mirror m with
      | (m', None) => Some ([], m')
      | (m', Some c) =>
          '(visited, m'') ← advance_all fuel' m';
          Some (c :: visited, m'')
      end
  end.

(** ** Predicates and example data of the statements *)

(** The reading of C1 as it is written: the mirrors that repeated calls of
    [next_mirror] answer are, up to order, all the records but the one at
    the starting index. *)
Definition visits_every_other_mirror (m : BatoMirrorManager) : Prop :=
  ∃ fuel visited m',
    advance_all fuel m = Some (visited, m')
    ∧ visited ≡ₚ delete (Z.to_nat (_current_index m)) (_mirrors m).

(** The [base_url]s of a store, in order *)
Definition urls (m : BatoMirrorManager) : list string := base_url <$> _mirrors m.

(** The persisted [current_index], when the file decodes to a dict, is not
    a negative integer. *)
Definition persisted_index_nonneg (file : option file_content) : Prop :=
  ∀ o z, file = Some (Decoded (JObj o)) →
         o !! "current_index" = Some (JInt z) → 0 ≤ z.

(** The file is missing, or cannot be read or decoded. *)
Definition no_decoded_file (file : option file_content) : Prop :=
  ∀ data, file ≠ Some (Decoded data).

(** A persisted file that lists one origin twice, once with a trailing
    slash *)
Definition file_with_repeated_origin : option file_content :=
  Some (Decoded (JObj {[ "mirrors" := JArr [JStr "https://bato.to";
                                           JStr "https://bato.to/"];
                         "current_index" := JInt 0 ]})).

(** The last character of [s] is a slash. *)
Definition ends_with_slash (s : string) : Prop :=
  list.last (PyStr.chars s) = Some "/"%char.

(** What §3 says of the records of a store besides the data invariant:
    there is at least one, and a [base_url] is an origin, without a
    trailing slash. *)
Definition origins (l : list MirrorConfig) : Prop :=
  l ≠ [] ∧ Forall (λ c, ¬ ends_with_slash (base_url c)) l.

(** The document [_save_config] writes for records [l] and index [i] *)
Definition persisted (l : list MirrorConfig) (i : Z) : json :=
  JObj {[ "mirrors" := JArr (mirror_json <$> l);
          "current_index" := JInt i ]}.

(** A search URL between a no-break space U+00A0 and an ideographic space
    U+3000, with the key [keyword] written with the Kelvin sign U+212A *)
Definition padded_url : string :=
  PyStr.of_chars (ascii_of_N <$> [194; 160]%N) +:+ "bato.ing/s?"
  +:+ PyStr.of_chars (ascii_of_N <$> [226; 132; 170]%N) +:+ "eyword=1&a=b"
  +:+ PyStr.of_chars (ascii_of_N <$> [227; 128; 128]%N).

(** What the round trip needs of a store *)
Definition saveable (m : BatoMirrorManager) : Prop :=
  origins (_mirrors m) ∧ _current_index m ≤ len m - 1.

(** A store that satisfies the data invariant and whose only [base_url]
    ends with a slash *)
Definition store_with_slash : BatoMirrorManager :=
  {| _mirrors := [mk_mirror "https://a.example/"]; _current_index := 0;
     _config_file := None; writable := true |}.

(** The file holds the float [f] as its [current_index]. *)
Definition persisted_float (file : option file_content) (f : pyfloat) : Prop :=
  ∃ o, file = Some (Decoded (JObj o)) ∧ o !! "current_index" = Some (JFloat f).

(** A file without [mirrors] whose [current_index] is not a number *)
Definition file_with_nan_index : option file_content :=
  Some (Decoded (JObj {[ "current_index" := JFloat NaN ]})).

(** The values given to [key] in a list of query pairs, in order *)
Definition values_of (key : string) (pairs : list (string * string)) : list string :=
  (filter (λ nv, nv.1 = key) pairs).*2.

(** An attempt uses the transport and leaves the mirror manager alone. *)
Definition attempt_frame {A}
  (attempt : string → BatoService → BatoService * res A) : Prop :=
  ∀ b s, _mirror_manager (attempt b s).1 = _mirror_manager s.

(** What the loop does after an attempt on [current_base] has raised [e]
    in state [s1] *)
Definition after_failure {A}
  (attempt : string → BatoService → BatoService * res A) (generic : string)
  (fuel : nat) (tried_mirrors : list string) (e : exn) (s1 : BatoService) :
  option (BatoService * res (A * string)) :=
  if is_request_exception e then
    match next_mirror (_mirror_manager s1) with
    | (m', None) => Some (exhausted generic (Some e) (set_manager m' s1))
    | (m', Some _) =>
        fallback_loop attempt generic fuel tried_mirrors (Some e)
          (set_manager m' s1)
    end
  else Some (s1, Raise e).

Definition join (base path : string) : string := base +:+ path.

Definition service_at (m : BatoMirrorManager) : BatoService :=
  {| _mirror_manager := m; calls := []; subrequests := [] |}.

Definition request_url (rq : request) : string :=
  match rq with
  | Get url _ => url
  | PostSearch api _ _ => api
  | PostComic api _ => api
  | PostChapters api _ => api
  end.

(** A transport on which every mirror is down *)
Definition all_down : list request → request → response :=
  λ _ _, Failed "down".

(** A transport on which only the origin [up] answers *)
Definition only_up (up : string) (answer : json) : list request → request → response :=
  λ _ rq, if String.prefix up (request_url rq)
          then Reply "payload" (Ok answer) else Failed "down".

(** The scenario of the spec: A and B fail, C answers; the request returns
    C's payload and leaves C current. *)
Definition after_recovery_on_C : BatoService :=
  {| _mirror_manager :=
       _save_config (set_index 2 (_save_config (set_index 1 (store_ABC 0))));
     calls := [Get "https://a.example/x" None; Get "https://b.example/x" None;
               Get "https://c.example/x" None];
     subrequests := [] |}.

(** The state after a request on [A; B; C] with C current when every
    mirror is down: one call, to C, and the index back at 0. *)
Definition after_failure_on_C : BatoService :=
  {| _mirror_manager := _save_config (set_index 0 (store_ABC 2));
     calls := [Get "https://c.example/x" None];
     subrequests := [] |}.

(** A transport on which the origin [bad] answers the metadata query and
    fails the chapter list, and every other origin answers both. *)
Definition chapters_down_on (bad : string) (comic chapters : json) :
  list request → request → response :=
  λ _ rq,
    match rq with
    | PostComic _ _ => Reply "" (Ok comic)
    | PostChapters api _ =>
        if String.prefix bad api then Failed "chapter list down"
        else Reply "" (Ok chapters)
    | _ => Failed "down"
    end.

(** The transport of the test suite: one canned answer per kind of query *)
Definition fake_scraper (comic chapters : json) : list request → request → response :=
  λ _ rq,
    match rq with
    | PostComic _ _ => Reply "" (Ok comic)
    | PostChapters _ _ => Reply "" (Ok chapters)
    | _ => Reply "" (Ok (JObj {[ "data" := JObj ∅ ]}))
    end.

Definition test_comic_response : json :=
  JObj {[ "data" := JObj {[ "get_content_comicNode" := JObj {[ "data" :=
    JObj {[ "id" := JStr "12345"; "slug" := JStr "sample-series";
            "name" := JStr "Sample Series";
            "urlPath" := JStr "/title/12345-sample-series";
            "authors" := JArr [JStr "Author One"];
            "genres" := JArr [JStr "Action"; JStr "Comedy"];
            "summary" := JObj {[ "code" := JStr "A short description." ]} ]} ]} ]} ]}.

Definition test_chapter (id path dname : string) : json :=
  JObj {[ "id" := JStr id;
          "data" := JObj {[ "id" := JStr id; "urlPath" := JStr path;
                            "dname" := JStr dname ]} ]}.

(** The upstream chapter list of the test, newest first *)
Definition test_chapters_response : json :=
  JObj {[ "data" := JObj {[ "get_content_chapterList" :=
    JArr [test_chapter "ch2" "/chapter/2" "Ch 2 Title Two";
          test_chapter "ch1" "/chapter/1" "Ch 1 Title One"] ]} ]}.

Definition default_service : BatoService :=
  service_at {| _mirrors := DEFAULT_MIRRORS; _current_index := 0;
                _config_file := None; writable := true |}.

Section chapter_entries_def.
Variable urljoin : string → string → string.

(** The entry that one upstream chapter contributes: none when it has no
    [urlPath] (or when reading it raises), one otherwise. *)
Definition chapter_entries (base : string) (ch : json) : list ChapterRef :=
  match add_chapter urljoin base ch [] with Ok l => l | Raise _ => [] end.

End chapter_entries_def.

(** The run of the repository's own test
    [test_get_series_info_extracts_metadata] *)
Definition test_series_info : SeriesInfo :=
  {| info_title := JStr "Sample Series";
     info_description := JStr "A short description.";
     info_attributes :=
       {[ "Authors" := JArr [JStr "Author One"];
          "Genres" := JArr [JStr "Action"; JStr "Comedy"] ]};
     info_chapters :=
       [ {| chapter_title := JStr "Ch 2 Title Two";
            chapter_url := "https://bato.to/chapter/2";
            chapter_label := JStr "Ch 2 Title Two" |};
         {| chapter_title := JStr "Ch 1 Title One";
            chapter_url := "https://bato.to/chapter/1";
            chapter_label := JStr "Ch 1 Title One" |} ];
     info_url := "https://bato.to/title/12345-sample-series" |}.

Definition after_test_lookup : BatoService :=
  {| _mirror_manager := _mirror_manager default_service;
     calls := [PostComic "https://bato.to/apo/" "12345";
               PostChapters "https://bato.to/apo/" "12345"];
     subrequests := [] |}.

Section single_page_result_def.
Variable urljoin : string → string → string.

(** What [search_manga] makes of the answer to its only sub-request *)
Definition single_page_result (r : res (json * string)) : res (list SearchHit) :=
  match r with
  | Raise e => Raise e
  | Ok (items, base_url) =>
      if negb (truthy items) then Ok []
      else
        l ← py_iter items;
        acc ← add_hits urljoin base_url l ([], ∅);
        Ok acc.1
  end.

End single_page_result_def.

(** The query ["query"] between a no-break space U+00A0 and an ideographic
    space U+3000 *)
Definition padded_query : string :=
  PyStr.of_chars (ascii_of_N <$> [194; 160]%N) +:+ "query"
  +:+ PyStr.of_chars (ascii_of_N <$> [227; 128; 128]%N).

(** A search with page limit 0 on a transport that answers no items: one
    sub-request, one call, an empty result. *)
Definition after_empty_search : BatoService :=
  {| _mirror_manager := _mirror_manager default_service;
     calls := [PostSearch "https://bato.to/apo/" "query" 1];
     subrequests := [("query", 1)] |}.

(** ** More of [bato_mirror_manager.py] and its callers in the settings tab *)

(** [format_mirror_display] *)
Definition format_mirror_display (index : Z) (m : BatoMirrorManager) : string :=
  if negb ((0 <=? index) && (index <? len m)) then ""
  else
    match _mirrors m !! Z.to_nat index with
    | Some mirror =>
        (if index =? _current_index m then "* " else "  ")
        +:+ base_url mirror +:+ " [" +:+ search_path mirror +:+ "]"
    | None => ""
    end.

(** The lines [_refresh_bato_mirrors_list] of the settings tab puts in the
    list box: [format_mirror_display(i)] for every [i] of
    [enumerate(mirrors)]. *)
Definition mirror_lines (m : BatoMirrorManager) : list string :=
  (λ i, format_mirror_display (Z.of_nat i) m) <$> seq 0 (List.length (_mirrors m)).

(** [_move_bato_mirror_up] and [_move_bato_mirror_down] of the settings
    tab, for the selected [index]: the manager and the selected line after
    the call. The list box is refreshed and the selection set anew only
    when [move_mirror] answers [True]. *)
Definition _move_bato_mirror_up (index : Z) (m : BatoMirrorManager) :
  BatoMirrorManager * Z :=
  if index =? 0 then (m, index)
  else
    let '(m', moved) := move_mirror index (index - 1) m in
    (m', if moved then index - 1 else index).

Definition _move_bato_mirror_down (index : Z) (m : BatoMirrorManager) :
  BatoMirrorManager * Z :=
  if len m - 1 <=? index then (m, index)
  else
    let '(m', moved) := move_mirror index (index + 1) m in
    (m', if moved then index + 1 else index).

(** [_add_bato_mirror] of the settings tab, for the text of the entry
    field: the manager, the text of the entry field and the status line
    after the call. *)
Section add_bato_mirror.
Variable netloc_check : string → bool.
Variable unquote_escapes : string → string.

Definition _add_bato_mirror (entry : string) (m : BatoMirrorManager) :
  BatoMirrorManager * string * string :=
  let url := PyStr.strip entry in
  if negb (PyStr.nonempty url) then
    (m, entry, "Status: Please paste a search URL from your browser.")
  else
    let '(m', (success, message)) :=
      add_mirror_from_url netloc_check unquote_escapes url m in
    (m', if success then "" else entry, "Status: " +:+ message).

End add_bato_mirror.

(** Where the record at position [j] of the list after
    [l.insert(t, l.pop(f))] was before *)
Definition moved_from (f t j : nat) : nat :=
  if decide (j = t) then f
  else if decide (j < t)%nat then (if decide (j < f)%nat then j else S j)
       else (if decide (j ≤ f)%nat then (j - 1)%nat else j).

(** The public operations that change a manager *)
Inductive operation :=
| AddMirrorFromUrl (url : string)
| RemoveMirror (index : Z)
| MoveMirror (from_index to_index : Z)
| NextMirror
| ResetToPrimary
| ResetToDefaults.

Section run_def.
Variable netloc_check : string → bool.
Variable unquote_escapes : string → string.

Definition run (op : operation) (m : BatoMirrorManager) : BatoMirrorManager :=
  match op with
  | AddMirrorFromUrl url =>
      (add_mirror_from_url netloc_check unquote_escapes url m).1
  | RemoveMirror index => (remove_mirror index m).1
  | MoveMirror from_index to_index => (move_mirror from_index to_index m).1
  | NextMirror => (next_mirror m).1
  | ResetToPrimary => reset_to_primary m
  | ResetToDefaults => reset_to_defaults m
  end.

End run_def.

(** An entry of the persisted [mirrors] list that the load turns into a
    record: a dict with a [base_url] key, or a string. *)
Definition is_entry (v : json) : bool :=
  match v with
  | JObj o => bool_decide (is_Some (o !! "base_url"))
  | JStr _ => true
  | _ => false
  end.

(** The record the load makes of a bare URL string (legacy format) *)
Definition legacy_record (s : string) : MirrorConfig :=
  {| base_url := PyStr.rstrip_char "/" s;
     search_path := "/v4x-search";
     search_params := {[ "type" := JStr "comic" ]} |}.

(** A persisted [current_index] that [min] accepts: a number *)
Definition is_number (v : json) : bool :=
  match v with JInt _ | JBool _ | JFloat _ => true | _ => false end.

(** ** More of [bato_service.py] *)

(** The loop invariant of [search_manga]: the URLs of the results are
    pairwise distinct and all in [seen_urls]. *)
Definition hits_inv (acc : list SearchHit * gset string) : Prop :=
  NoDup (hit_url <$> acc.1) ∧ ∀ u, u ∈ hit_url <$> acc.1 → u ∈ acc.2.

(** Characters as [PyStr.characters] makes them: each is a first byte
    with the bytes that continue it, and each but the first of the list
    starts with a byte that does not continue another. *)
Definition well_formed (cs : list (list ascii)) : Prop :=
  Forall (λ c, ∃ a t, c = a :: t
                      ∧ Forall (λ b, PyStr.is_continuation b = true) t) cs
  ∧ Forall (λ c, ∃ a t, c = a :: t ∧ PyStr.is_continuation a = false)
      (tail cs).

(** A query of white space: a space, the ideographic space U+3000, the
    no-break space U+00A0 and a line feed *)
Definition blank_query : string :=
  PyStr.of_chars (ascii_of_N <$> [32; 227; 128; 128; 194; 160; 10]%N).

(** The sub-requests of a search that went through the pages [1..k] *)
Definition page_requests (query : string) (k : nat) : list (string * Z) :=
  (λ p, (query, Z.of_nat p)) <$> seq 1 k.

(** The transport of the repository's test
    [test_search_manga_parses_results]: two items with the same path on
    page 1, one item on page 2, none on page 3 *)
Definition test_search_item (id slug name path : string) : json :=
  JObj {[ "id" := JStr id;
          "data" := JObj {[ "id" := JStr id; "slug" := JStr slug;
                            "name" := JStr name; "urlPath" := JStr path ]} ]}.

Definition test_search_response (page : Z) (items : list json) : json :=
  JObj {[ "data" := JObj {[ "get_content_searchComic" := JObj {[
    "reqWord" := JStr "query"; "reqPage" := JInt page;
    "paging" := JObj {[ "pages" := JInt 2; "page" := JInt page ]};
    "items" := JArr items ]} ]} ]}.

Definition test_search_scraper : list request → request → response :=
  λ _ rq,
    match rq with
    | PostSearch _ _ page =>
        Reply ""
          (Ok (if page =? 1 then
                 test_search_response 1
                   [test_search_item "1" "series-one" "Series One"
                      "/title/1-series-one";
                    test_search_item "2" "series-one-dup" "Series One Duplicate"
                      "/title/1-series-one"]
               else if page =? 2 then
                 test_search_response 2
                   [test_search_item "3" "series-two" "Series Two"
                      "/title/2-series-two"]
               else
                 JObj {[ "data" := JObj {[ "get_content_searchComic" :=
                   JObj {[ "items" := JArr [] ]} ]} ]}))
    | _ => Reply "" (Ok (JObj {[ "data" := JObj ∅ ]}))
    end.

Definition after_test_search : BatoService :=
  {| _mirror_manager := _mirror_manager default_service;
     calls := [PostSearch "https://bato.to/apo/" "query" 1;
               PostSearch "https://bato.to/apo/" "query" 2;
               PostSearch "https://bato.to/apo/" "query" 3];
     subrequests := [("query", 1); ("query", 2); ("query", 3)] |}.

Definition test_search_hits : list SearchHit :=
  [ {| hit_title := JStr "Series One";
       hit_url := "https://bato.to/title/1-series-one";
       hit_subtitle := JStr "series-one" |};
    {| hit_title := JStr "Series Two";
       hit_url := "https://bato.to/title/2-series-two";
       hit_subtitle := JStr "series-two" |} ].

(** The records a fallback-wrapped call can reach: the first [k] from the
    current one on, in list order *)
Definition targets (m : BatoMirrorManager) (k : nat) : list MirrorConfig :=
  take k (drop (Z.to_nat (_current_index m)) (_mirrors m)).

(** Where a fallback-wrapped call that made [k] attempts from the manager
    [m] leaves [_current_index]: at 0 when it raises a [RequestException]
    (the manager was reset), else at the record of its last attempt. *)
Definition final_index {A} (m : BatoMirrorManager) (k : nat) (r : res A) : Z :=
  match r with
  | Raise (RequestException _) => 0
  | _ => _current_index m + Z.of_nat k - 1
  end.

(** State and error of a request on [A; B; C] from A when every mirror is
    down *)
Definition after_failure_from_A : BatoService :=
  {| _mirror_manager :=
       _save_config
         (set_index 0
            (_save_config (set_index 2 (_save_config (set_index 1 (store_ABC 0))))));
     calls := [Get "https://a.example/x" None; Get "https://b.example/x" None;
               Get "https://c.example/x" None];
     subrequests := [] |}.

(** [id] is a comic id that [path] holds: the run of decimal digits, not
    empty, right after an occurrence of ["/title/"]. *)
Definition comic_id_of (decimal : list ascii → bool) (path id : string) : Prop :=
  id ≠ ""
  ∧ ∃ pre rest,
      PyStr.chars path = (pre ++ PyStr.chars "/title/" ++ rest)%list
      ∧ PyStr.chars id
        = List.concat (PyStr.digit_run decimal (PyStr.characters rest)).

(** [path] holds no comic id: no decimal digit is the character after an
    occurrence of ["/title/"]. *)
Definition no_comic_id (decimal : list ascii → bool) (path : string) : Prop :=
  ∀ pre rest c,
    PyStr.chars path = (pre ++ PyStr.chars "/title/" ++ rest)%list →
    head (PyStr.characters rest) = Some c →
    PyStr.is_decimal decimal c = false.

(** [rq] is one of the two queries of a series lookup for [id]. *)
Definition series_request (id : string) (rq : request) : Prop :=
  ∃ api, rq = PostComic api id ∨ rq = PostChapters api id.

(** The description [get_series_info] makes of the [summary] of the
    metadata: its [code] when the summary is a non-empty dict *)
Definition description_of (data : gmap string json) : json :=
  match data !! "summary" with
  | Some (JObj o) => if bool_decide (o = ∅) then JStr ""
                     else default (JStr "") (o !! "code")
  | _ => JStr ""
  end.

(** The two attributes [get_series_info] can return: label and key *)
Definition attribute_source (label key : string) : Prop :=
  (label = "Authors" ∧ key = "authors") ∨ (label = "Genres" ∧ key = "genres").

(** A [div.attr-item] as [_extract_attributes] reads it: the stripped text
    of its first [b.text-muted], when there is one, and of its first
    [span], when there is one, the stripped texts of the [a], [u] and
    [span] elements below that span, in document order, with the text of
    the span itself. *)
Record AttrItem := {
  label_tag : option string;
  value_container : option (list string * string)
}.

(** [collected if len(collected) > 1 else collected[0]] *)
Definition attribute_value (collected : list string) : json :=
  match collected with
  | [text] => JStr text
  | _ => JArr (JStr <$> collected)
  end.

(** The body of [for attr_item in soup.select("div.attr-item")] *)
Definition add_attr_item (attributes : gmap string json) (item : AttrItem) :
  gmap string json :=
  match label_tag item, value_container item with
  | Some label_text, Some (children, own_text) =>
      let label := PyStr.rstrip_char ":" label_text in
      let collected := filter (λ text, PyStr.nonempty text = true) children in
      let collected :=
        match collected with
        | [] => if PyStr.nonempty own_text then [own_text] else []
        | _ => collected
        end in
      match collected with
      | [] => attributes
      | _ => <[label := attribute_value collected]> attributes
      end
  | _, _ => attributes
  end.

(** [_extract_attributes] over the items that [soup.select] found *)
Definition _extract_attributes (items : list AttrItem) : gmap string json :=
  foldl add_attr_item ∅ items.

(** A value [_extract_attributes] stores: a non-empty text, or a list of
    two or more non-empty texts *)
Definition attribute_value_ok (v : json) : Prop :=
  (∃ text, v = JStr text ∧ text ≠ "")
  ∨ (∃ texts, v = JArr (JStr <$> texts) ∧ (2 ≤ List.length texts)%nat
              ∧ Forall (λ text, text ≠ "") texts).

(** ** [parsers/base_parser.py]

    [sanitize_filename] works on the characters of a Python string one by
    one: a name is taken here as the list of its code points. *)

Module BaseParser.

Definition underscore : N := 95.

(** The characters of the class [a-zA-Z0-9_.-] *)
Definition allowed (c : N) : bool :=
  ((97 <=? c) && (c <=? 122) || (65 <=? c) && (c <=? 90)
   || (48 <=? c) && (c <=? 57)
   || (c =? 95) || (c =? 46) || (c =? 45))%N.

(** [re.sub(r'[^a-zA-Z0-9_.-]', '_', name)] *)
Definition replace_illegal (name : list N) : list N :=
  (λ c, if allowed c then c else underscore) <$> name.

(** What [re.sub(r'_{3,}', '__', ...)] puts for a run of [run]
    underscores: two when the run has three or more, else the run *)
Definition flush (run : nat) : list N :=
  if (3 <=? run)%nat then [underscore; underscore]
  else replicate run underscore.

(** [re.sub(r'_{3,}', '__', s)]: the scan of [s], with the length of the
    run of underscores read so far *)
Fixpoint collapse (run : nat) (l : list N) : list N :=
  match l with
  | [] => flush run
  | c :: l' =>
      if (c =? underscore)%N then collapse (S run) l'
      else (flush run ++ c :: collapse 0 l')%list
  end.

(** [s.lstrip('_')] and [s.strip('_')] *)
Fixpoint lstrip (l : list N) : list N :=
  match l with
  | c :: l' => if (c =? underscore)%N then lstrip l' else l
  | [] => []
  end.

Definition strip (l : list N) : list N := rev (lstrip (rev (lstrip l))).

Definition sanitize_filename (name : list N) : list N :=
  strip (collapse 0 (replace_illegal name)).

(** Three underscores in a row somewhere in [l] *)
Definition has_triple (l : list N) : Prop :=
  ∃ pre post, l = (pre ++ [underscore; underscore; underscore] ++ post)%list.

(** The same, decided from left to right *)
Fixpoint triple_free (l : list N) : bool :=
  match l with
  | a :: l' =>
      match l' with
      | b :: c :: _ =>
          negb ((a =? underscore) && (b =? underscore) && (c =? underscore))%N
          && triple_free l'
      | _ => true
      end
  | [] => true
  end.

(** A name that [sanitize_filename] has nothing to do on *)
Definition clean (l : list N) : Prop :=
  Forall (λ c, allowed c = true) l
  ∧ ¬ has_triple l
  ∧ head l ≠ Some underscore
  ∧ list.last l ≠ Some underscore.

End BaseParser.

(** * Theorems *)

(** ** Frame lemmas for [_save_config] and the setters *)

Lemma save_mirrors m : _mirrors (_save_config m) = _mirrors m.
Proof. unfold _save_config. by destruct (writable m). Qed.

Lemma save_index m : _current_index (_save_config m) = _current_index m.
Proof. unfold _save_config. by destruct (writable m). Qed.

Lemma save_writable m : writable (_save_config m) = writable m.
Proof. unfold _save_config. by destruct (writable m) eqn:E. Qed.

Lemma save_len m : len (_save_config m) = len m.
Proof. unfold len. by rewrite save_mirrors. Qed.

Lemma save_store_inv m : store_inv m → store_inv (_save_config m).
Proof.
  unfold store_inv. by rewrite save_mirrors, save_index, save_len.
Qed.

Lemma len_nonneg m : 0 ≤ len m.
Proof. unfold len. lia. Qed.

(** ** [remove_mirror] *)

Lemma remove_mirror_rejected index m :
  ¬ (0 ≤ index < len m) ∨ len m ≤ 1 →
  remove_mirror index m
  = (m, (false, if (0 <=? index) && (index <? len m)
                then "Cannot remove the last mirror"
                else "Invalid mirror index")).
Proof.
  intros H. unfold remove_mirror.
  destruct ((0 <=? index) && (index <? len m)) eqn:E; simpl; [|done].
  destruct (len m <=? 1) eqn:E1; [done|].
  apply andb_true_iff in E as [?%Z.leb_le ?%Z.ltb_lt].
  apply Z.leb_gt in E1. lia.
Qed.

Lemma length_pop {A} (i : Z) (l : list A) :
  0 ≤ i < Z.of_nat (List.length l) →
  Z.of_nat (List.length (pop i l)) = Z.of_nat (List.length l) - 1.
Proof.
  intros H. unfold pop.
  rewrite length_delete by (apply lookup_lt_is_Some_2; lia). lia.
Qed.

Lemma remove_mirror_accepted index m :
  0 ≤ index < len m → 1 < len m →
  ∃ msg m',
    remove_mirror index m = (m', (true, msg))
    ∧ _mirrors m' = pop index (_mirrors m)
    ∧ len m' = len m - 1
    ∧ _current_index m'
      = (if len m - 1 <=? _current_index m then len m - 2
         else if index <? _current_index m then _current_index m - 1
              else _current_index m).
Proof.
  intros Hi Hl. unfold remove_mirror.
  replace ((0 <=? index) && (index <? len m)) with true
    by (symmetry; apply andb_true_iff; split; [apply Z.leb_le|apply Z.ltb_lt]; lia).
  replace (len m <=? 1) with false by (symmetry; apply Z.leb_gt; lia).
  simpl.
  assert (Hlen : len (set_mirrors (pop index (_mirrors m)) m) = len m - 1).
  { unfold len. simpl. apply length_pop. exact Hi. }
  rewrite Hlen. eexists _, _. split; [reflexivity|].
  rewrite save_mirrors, save_len, save_index.
  destruct (len m - 1 <=? _current_index m); simpl.
  - repeat split; [|lia]. unfold len. simpl. rewrite length_pop; [|exact Hi]. done.
  - destruct (index <? _current_index m); simpl; repeat split;
      unfold len; simpl; rewrite length_pop; try exact Hi; done.
Qed.


Example remove_mirror_before_current :
  let '(m', (ok, _)) := remove_mirror 0 (store_ABC 2) in
  ok = true ∧ _mirrors m' = [mirror_B; mirror_C] ∧ _current_index m' = 1.
Proof. vm_compute. done. Qed.

Example remove_mirror_sole_record :
  let m := {| _mirrors := [mirror_A]; _current_index := 0;
              _config_file := None; writable := true |} in
  remove_mirror 0 m = (m, (false, "Cannot remove the last mirror")).
Proof. reflexivity. Qed.

(** ** [next_mirror] as an enumeration of fallback candidates *)

Lemma next_mirror_step m :
  0 ≤ _current_index m → _current_index m + 1 < len m →
  next_mirror m
  = (_save_config (set_index (_current_index m + 1) m),
     _mirrors m !! S (Z.to_nat (_current_index m))).
Proof.
  intros H0 H1. unfold next_mirror.
  replace (len m <=? 1) with false by (symmetry; apply Z.leb_gt; lia).
  rewrite Z.mod_small by lia.
  replace (_current_index m + 1 =? 0) with false
    by (symmetry; apply Z.eqb_neq; lia).
  rewrite save_mirrors, save_index. simpl.
  by rewrite <- Z2Nat.inj_succ by lia.
Qed.

Lemma next_mirror_at_last m :
  _current_index m = len m - 1 → next_mirror m = (m, None).
Proof.
  intros H. unfold next_mirror.
  destruct (len m <=? 1) eqn:E; [done|]. apply Z.leb_gt in E.
  replace (_current_index m + 1) with (len m) by lia.
  by rewrite Z.mod_same by lia.
Qed.

Lemma advance_all_from (fuel : nat) m :
  0 ≤ _current_index m < len m →
  len m - _current_index m ≤ Z.of_nat fuel →
  ∃ m', advance_all fuel m
        = Some (drop (S (Z.to_nat (_current_index m))) (_mirrors m), m')
      ∧ _mirrors m' = _mirrors m
      ∧ _current_index m' = len m - 1.
Proof.
  revert m. induction fuel as [|fuel IH]; intros m Hi Hf; [lia|].
  simpl. destruct (decide (_current_index m + 1 < len m)) as [Hlt|Hge].
  - rewrite next_mirror_step by lia.
    destruct (lookup_lt_is_Some_2 (_mirrors m) (S (Z.to_nat (_current_index m))))
      as [c Hc]; [unfold len in *; lia|].
    rewrite Hc.
    set (m1 := _save_config (set_index (_current_index m + 1) m)).
    assert (Hm1 : _mirrors m1 = _mirrors m) by (unfold m1; by rewrite save_mirrors).
    assert (Hi1 : _current_index m1 = _current_index m + 1)
      by (unfold m1; by rewrite save_index).
    assert (Hl1 : len m1 = len m) by (unfold len; by rewrite Hm1).
    destruct (IH m1) as (m' & Ha & Hm' & Hi'); [lia|lia|].
    rewrite Ha. simpl. exists m'. split; [|split; congruence].
    rewrite Hi1, Hm1, Z2Nat.inj_add, Nat.add_1_r by lia.
    by rewrite <- (drop_S _ _ _ Hc).
  - rewrite next_mirror_at_last by lia.
    exists m. split; [|split; [done|lia]].
    rewrite drop_ge; [done|]. unfold len in *. lia.
Qed.

(** C1, as stated, fails: from index 1 of [A; B; C] the enumeration
    answers C and stops, since the successor of index 2 wraps to 0; A is
    never visited. *)
Lemma next_mirror_skips_earlier_mirrors :
  ¬ visits_every_other_mirror (store_ABC 1).
Proof.
  intros (fuel & visited & m' & Ha & Hp).
  destruct fuel as [|[|fuel]]; [done|done|].
  cbn in Ha. injection Ha as <- _.
  apply Permutation_length in Hp. done.
Qed.

(** C1, amended. In a store of [n >= 2] records with a valid starting
    index [i], calling [next_mirror] until it answers [None] visits the
    records at the indexes [i+1 .. n-1], each once and in that order, and
    then stops with [_current_index = n-1] and the records untouched:
    the records before index [i] are not visited. When the records are
    pairwise distinct the starting record is not among the visited ones. *)
Theorem next_mirror_visits_later_mirrors m :
  2 ≤ len m → 0 ≤ _current_index m < len m →
  ∃ m',
    advance_all (List.length (_mirrors m)) m
    = Some (drop (S (Z.to_nat (_current_index m))) (_mirrors m), m')
    ∧ _mirrors m' = _mirrors m
    ∧ _current_index m' = len m - 1
    ∧ (∀ c, NoDup (_mirrors m) →
         _mirrors m !! Z.to_nat (_current_index m) = Some c →
         c ∉ drop (S (Z.to_nat (_current_index m))) (_mirrors m)).
Proof.
  intros Hn Hi.
  destruct (advance_all_from (List.length (_mirrors m)) m) as (m' & Ha & Hm & Hc);
    [done|unfold len in *; lia|].
  exists m'. repeat split; try done.
  intros c Hnd Hl [j Hj]%list_elem_of_lookup.
  rewrite lookup_drop in Hj.
  pose proof (NoDup_lookup _ _ _ _ Hnd Hl Hj). lia.
Qed.

Lemma next_mirror_visits_later_mirrors_witness :
  ∃ m',
    advance_all 3 (store_ABC 0) = Some ([mirror_B; mirror_C], m')
    ∧ _mirrors m' = [mirror_A; mirror_B; mirror_C]
    ∧ _current_index m' = 2.
Proof.
  destruct (next_mirror_visits_later_mirrors (store_ABC 0))
    as (m' & Ha & Hm & Hi & _); [done|done|].
  exists m'. by repeat split.
Defined.


(** ** The data invariant under the operations *)

Lemma store_inv_urls m :
  store_inv m ↔
  ("" ∉ urls m) ∧ NoDup (urls m)
  ∧ (_mirrors m ≠ [] → 0 ≤ _current_index m < len m).
Proof.
  unfold store_inv, urls. split; intros (H1 & H2 & H3).
  - split; [|done].
    intros (c & Hc & Hin)%list_elem_of_fmap. by apply (H1 c).
  - split; [|done].
    intros c Hin Hc. apply H1. rewrite <- Hc. by apply list_elem_of_fmap_2.
Qed.

Lemma append_nonempty (s t : string) : t ≠ "" → s +:+ t ≠ "".
Proof. destruct s; [done|]. simpl. discriminate. Qed.

Lemma len_pos_iff m : _mirrors m ≠ [] ↔ 1 ≤ len m.
Proof. unfold len. destruct (_mirrors m); simpl; split; (done || lia). Qed.

Section add_facts.
Variable netloc_check : string → bool.
Variable unquote_escapes : string → string.

Lemma parse_search_url_base_url url c :
  parse_search_url netloc_check unquote_escapes url = Some c →
  ∃ parsed,
    Urllib.urlparse netloc_check (with_scheme url) = Ok parsed
    ∧ Urllib.netloc parsed ≠ ""
    ∧ base_url c = Urllib.scheme parsed +:+ "://" +:+ Urllib.netloc parsed.
Proof.
  unfold parse_search_url.
  destruct (negb (PyStr.nonempty (PyStr.strip url))); [done|].
  destruct (Urllib.urlparse netloc_check (with_scheme url)) as [parsed|]; [|done].
  destruct (Urllib.netloc parsed) eqn:En; [done|]. simpl.
  intros [= <-]. exists parsed. rewrite En. by repeat split.
Qed.

Lemma parse_search_url_nonempty url c :
  parse_search_url netloc_check unquote_escapes url = Some c → base_url c ≠ "".
Proof.
  intros (parsed & _ & _ & ->)%parse_search_url_base_url.
  by apply append_nonempty.
Qed.

Lemma add_mirror_from_url_inv url m :
  _mirrors m ≠ [] → store_inv m →
  let m' := (add_mirror_from_url netloc_check unquote_escapes url m).1 in
  _mirrors m' ≠ [] ∧ store_inv m'.
Proof.
  intros Hne Hinv. unfold add_mirror_from_url.
  destruct (parse_search_url netloc_check unquote_escapes url) as [config|] eqn:Ep;
    [|done].
  apply parse_search_url_nonempty in Ep.
  apply store_inv_urls in Hinv as (H1 & H2 & H3).
  specialize (H3 Hne).
  destruct (list_find _ _) as [[i existing]|] eqn:Ef; simpl;
    rewrite save_mirrors; simpl.
  - apply list_find_Some in Ef as (Hl & _ & _). split.
    + intros E%(f_equal List.length). rewrite length_insert in E.
      destruct (_mirrors m); done.
    + apply save_store_inv, store_inv_urls; unfold urls, len in *; simpl.
      rewrite list_fmap_insert. simpl.
      rewrite list_insert_id by (by rewrite list_lookup_fmap, Hl).
      by rewrite length_insert.
  - apply list_find_None in Ef. split; [by destruct (_mirrors m)|].
    apply save_store_inv, store_inv_urls; unfold urls, len in *; simpl.
    rewrite fmap_app, length_app. simpl. repeat split.
    + intros [?|?%list_elem_of_singleton]%elem_of_app; [done|congruence].
    + apply NoDup_app. repeat split; [done| |apply NoDup_singleton].
      intros x (c & -> & Hc)%list_elem_of_fmap Hx%list_elem_of_singleton.
      rewrite Forall_forall in Ef. by apply (Ef c).
    + lia.
    + lia.
Qed.

End add_facts.

Lemma remove_mirror_inv index m :
  _mirrors m ≠ [] → store_inv m →
  let m' := (remove_mirror index m).1 in _mirrors m' ≠ [] ∧ store_inv m'.
Proof.
  intros Hne Hinv.
  destruct (decide (0 ≤ index < len m ∧ 1 < len m)) as [[Hi Hl]|Hn].
  - destruct (remove_mirror_accepted index m Hi Hl)
      as (msg & m' & -> & Hm & Hlen & Hidx). simpl.
    apply store_inv_urls in Hinv as (H1 & H2 & H3). specialize (H3 Hne).
    split; [apply len_pos_iff; lia|].
    apply store_inv_urls. unfold urls in *. rewrite Hm. unfold pop.
    rewrite list_fmap_delete. split; [|split].
    + intros Hin. apply H1. eapply list_elem_of_delete_inv, Hin.
    + exact (sublist_NoDup _ _ H2 (sublist_delete _ _)).
    + intros _. rewrite Hidx, Hlen.
      destruct (len m - 1 <=? _current_index m) eqn:E1;
        [apply Z.leb_le in E1|apply Z.leb_gt in E1];
        [|destruct (index <? _current_index m) eqn:E2;
           [apply Z.ltb_lt in E2|apply Z.ltb_ge in E2]]; lia.
  - by rewrite remove_mirror_rejected by lia.
Qed.

Lemma insert_at_delete_Permutation {A} (l : list A) (f t : Z) x :
  l !! Z.to_nat f = Some x → insert_at t x (pop f l) ≡ₚ l.
Proof.
  intros Hl. unfold insert_at, pop.
  rewrite <- Permutation_middle, take_drop.
  symmetry. by apply delete_Permutation.
Qed.

Lemma move_mirror_inv from_index to_index m :
  _mirrors m ≠ [] → store_inv m →
  let m' := (move_mirror from_index to_index m).1 in
  _mirrors m' ≠ [] ∧ store_inv m'.
Proof.
  intros Hne Hinv. unfold move_mirror.
  destruct (negb _); [done|]. destruct (negb _); [done|].
  destruct (from_index =? to_index); [done|].
  destruct (_mirrors m !! Z.to_nat from_index) as [mirror|] eqn:El; [|done].
  simpl. rewrite save_mirrors. simpl.
  pose proof (insert_at_delete_Permutation _ from_index to_index _ El) as Hp.
  split.
  - intros E. rewrite E in Hp. by apply Permutation_nil_l in Hp.
  - apply save_store_inv.
    apply store_inv_urls in Hinv as (H1 & H2 & H3).
    apply store_inv_urls. unfold urls, len in *. simpl.
    assert (Hu : base_url <$> insert_at to_index mirror (pop from_index (_mirrors m))
                 ≡ₚ base_url <$> _mirrors m) by (by apply fmap_Permutation).
    rewrite (Permutation_length Hp).
    split; [by rewrite Hu|]. split; [by rewrite Hu|]. intros _. by apply H3.
Qed.

Lemma next_mirror_inv m :
  _mirrors m ≠ [] → store_inv m →
  let m' := (next_mirror m).1 in _mirrors m' ≠ [] ∧ store_inv m'.
Proof.
  intros Hne Hinv. unfold next_mirror.
  destruct (len m <=? 1) eqn:E; [done|]. apply Z.leb_gt in E.
  destruct (_ =? 0); [done|]. simpl. rewrite save_mirrors. split; [done|].
  apply save_store_inv.
  apply store_inv_urls in Hinv as (H1 & H2 & H3).
  apply store_inv_urls. unfold urls, len in *. simpl.
  repeat split; try done; apply Z.mod_pos_bound; lia.
Qed.

Lemma reset_to_primary_inv m :
  _mirrors m ≠ [] → store_inv m →
  _mirrors (reset_to_primary m) ≠ [] ∧ store_inv (reset_to_primary m).
Proof.
  intros Hne Hinv. unfold reset_to_primary.
  destruct (negb _); [|done]. rewrite save_mirrors. split; [done|].
  apply save_store_inv.
  apply store_inv_urls in Hinv as (H1 & H2 & H3).
  apply store_inv_urls. unfold urls, len in *. simpl.
  repeat split; try done; specialize (H3 Hne); lia.
Qed.

Lemma DEFAULT_MIRRORS_inv f w :
  store_inv {| _mirrors := DEFAULT_MIRRORS; _current_index := 0;
               _config_file := f; writable := w |}.
Proof.
  apply store_inv_urls. unfold urls, len. simpl. repeat split; try lia.
  - intros H. repeat (apply elem_of_cons in H as [H|H]; [done|]).
    by apply elem_of_nil in H.
  - apply (bool_decide_unpack _). by vm_compute.
Qed.

Lemma reset_to_defaults_inv m :
  _mirrors (reset_to_defaults m) ≠ [] ∧ store_inv (reset_to_defaults m).
Proof.
  unfold reset_to_defaults. rewrite save_mirrors. split; [done|].
  apply save_store_inv, DEFAULT_MIRRORS_inv.
Qed.

(** ** [_load_config] *)

Section load_facts.
Variable py_repr : json → string.
Variable dict_of_other : json → res (gmap string json).

Lemma py_min_bound v n i : py_min v n = Ok (Int i) → i ≤ n.
Proof.
  destruct v as [| | |f| | |]; simpl; try done; try (intros [= <-]; lia).
  destruct (lt_int_float n f); [|done]. intros [= <-]. lia.
Qed.

Lemma py_min_nonneg v n i :
  py_min v n = Ok (Int i) → 0 ≤ n → (∀ z, v = JInt z → 0 ≤ z) → 0 ≤ i.
Proof.
  destruct v as [| [] | z |f| | |]; simpl; try done;
    try (intros [= <-] Hn Hz; lia).
  - intros [= <-] Hn Hz. specialize (Hz z eq_refl). lia.
  - destruct (lt_int_float n f); [|done]. by intros [= <-].
Qed.

Lemma py_min_float v n f :
  py_min v n = Ok (Float f) → v = JFloat f ∧ lt_int_float n f = false.
Proof.
  destruct v as [| | |g| | |]; simpl; try done.
  destruct (lt_int_float n g) eqn:E; [done|]. by intros [= <-].
Qed.

Lemma py_min_float_above f n z :
  py_min (JFloat f) n = Ok (Int z) → lt_int_float n f = true ∧ z = n.
Proof.
  simpl. destruct (lt_int_float n f); [|done]. by intros [= <-].
Qed.

Lemma load_config_shape file ms i :
  _load_config py_repr dict_of_other file = Ok (ms, i) →
  ms ≠ []
  ∧ match i with
    | Int z =>
        z ≤ Z.of_nat (List.length ms) - 1
        ∧ (persisted_index_nonneg file → 0 ≤ z)
        ∧ (∀ f, persisted_float file f →
             lt_int_float (Z.of_nat (List.length ms) - 1) f = true
             ∧ z = Z.of_nat (List.length ms) - 1)
    | Float f =>
        persisted_float file f
        ∧ lt_int_float (Z.of_nat (List.length ms) - 1) f = false
    end
  ∧ (no_decoded_file file → ms = DEFAULT_MIRRORS ∧ i = Int 0).
Proof.
  unfold _load_config, no_decoded_file.
  destruct file as [[| |e|data]|];
    try done;
    try (intros [= <- <-]; split; [done|]; split; [|done];
         split; [simpl; lia|]; split; [intros; lia|];
         by intros f (o & ? & _)).
  destruct data as [| | | | | |o]; try done. simpl.
  set (loaded := match default (JArr []) (o !! "mirrors") with
                 | JArr ((_ :: _) as ms0) =>
                     loaded_mirrors ← load_entries py_repr dict_of_other ms0;
                     Ok (match loaded_mirrors with
                         | [] => DEFAULT_MIRRORS
                         | _ => loaded_mirrors
                         end)
                 | _ => Ok DEFAULT_MIRRORS
                 end).
  assert (Hne : ∀ l, loaded = Ok l → l ≠ []).
  { unfold loaded. intros l.
    destruct (default (JArr []) (o !! "mirrors")) as [| | | | |[|j js]|];
      try (by intros [= <-]).
    destruct (load_entries _ _ _) as [[|c cs]|]; simpl; by intros [= <-]. }
  destruct loaded as [l|] eqn:El; [|done]. simpl.
  specialize (Hne l eq_refl).
  destruct (py_min _ _) as [i'|] eqn:Em; [|done]. simpl.
  intros [= <- <-].
  assert (Hlen : 0 ≤ Z.of_nat (List.length l) - 1)
    by (destruct l; [done|simpl; lia]).
  assert (Hden : match l with [] => 0 | _ => Z.of_nat (List.length l) - 1 end
                 = Z.of_nat (List.length l) - 1) by (by destruct l).
  rewrite Hden in Em. split; [done|]. split.
  - destruct i' as [z|f].
    + split; [by apply py_min_bound in Em|]. split.
      * intros Hp. eapply py_min_nonneg; [exact Em|done|].
        intros z' Hz.
        destruct (o !! "current_index") as [ci|] eqn:Eo; simpl in Hz.
        -- subst ci. by apply (Hp o z').
        -- injection Hz as <-. done.
      * intros f (o' & [= <-] & Hf). rewrite Hf in Em. simpl default in Em.
        by apply py_min_float_above.
    + apply py_min_float in Em as [Hv Hf]. split; [|done].
      exists o. split; [done|].
      destruct (o !! "current_index") as [ci|]; simpl in Hv; by subst.
  - intros Hno. by destruct (Hno (JObj o)).
Qed.

End load_facts.

(** C5, as stated, fails: loading a file that lists the same origin twice
    yields two records with the same [base_url]. *)
Lemma load_keeps_repeated_base_url :
  ∃ m, init (λ _, "") (λ _, Raise TypeError) file_with_repeated_origin true
       = Ok (Manager m)
       ∧ ¬ store_inv m.
Proof.
  eexists. split; [vm_compute; reflexivity|].
  intros (_ & Hnd & _). simpl in Hnd.
  apply NoDup_cons in Hnd as [Hnd _]. apply Hnd. by left.
Qed.

(** Nor is the index always clamped into the range: a persisted
    [current_index] that is not a number ([NaN]) is not greater than the
    last position, and the constructor stores it as it is. *)
Example load_keeps_float_index :
  init (λ _, "") (λ _, Raise TypeError) file_with_nan_index true
  = Ok (FloatIndexed DEFAULT_MIRRORS NaN).
Proof. by vm_compute. Qed.

Section invariant.
Variable netloc_check : string → bool.
Variable unquote_escapes : string → string.
Variable py_repr : json → string.
Variable dict_of_other : json → res (gmap string json).

(** C5, amended. From a store with at least one record that satisfies the
    data invariant, every mutating operation ([add_mirror_from_url],
    [remove_mirror], [move_mirror], [next_mirror], [reset_to_primary],
    [reset_to_defaults]) leaves a store with at least one record that
    satisfies it. A constructor that returns always leaves at least one
    record. When the index it leaves is an integer, it is
    [<= len - 1], and also [>= 0] when the persisted index is not a
    negative integer; and the whole invariant holds when the file is
    missing or cannot be read or decoded. A persisted [current_index]
    that is a float greater than [len - 1] is replaced by [len - 1]; one
    that is a float not greater than [len - 1] (so [NaN], [-Infinity],
    [0.5], [1.0]) is stored as it is, and [current_mirror] then raises
    [TypeError]; and the index left is a float in this case only. The
    load does not check the persisted [base_url]s of a file that
    decodes. *)
Theorem store_inv_after_operations :
  (∀ m, _mirrors m ≠ [] → store_inv m →
     ∀ url index from_index to_index,
       let ok m' := _mirrors m' ≠ [] ∧ store_inv m' in
       ok (add_mirror_from_url netloc_check unquote_escapes url m).1
       ∧ ok (remove_mirror index m).1
       ∧ ok (move_mirror from_index to_index m).1
       ∧ ok (next_mirror m).1
       ∧ ok (reset_to_primary m)
       ∧ ok (reset_to_defaults m))
  ∧ (∀ file w c, init py_repr dict_of_other file w = Ok c →
       match c with
       | Manager m =>
           _mirrors m ≠ []
           ∧ _current_index m ≤ len m - 1
           ∧ (persisted_index_nonneg file → 0 ≤ _current_index m)
           ∧ (∀ f, persisted_float file f →
                lt_int_float (len m - 1) f = true
                ∧ _current_index m = len m - 1)
           ∧ (no_decoded_file file → store_inv m)
       | FloatIndexed mirrors f =>
           mirrors ≠ []
           ∧ persisted_float file f
           ∧ lt_int_float (Z.of_nat (List.length mirrors) - 1) f = false
           ∧ constructed_current_mirror c = Raise TypeError
       end)
  ∧ (∀ o f w,
       o !! "mirrors" = None → o !! "current_index" = Some (JFloat f) →
       init py_repr dict_of_other (Some (Decoded (JObj o))) w
       = Ok (if lt_int_float 2 f
             then Manager {| _mirrors := DEFAULT_MIRRORS; _current_index := 2;
                             _config_file := Some (Decoded (JObj o));
                             writable := w |}
             else FloatIndexed DEFAULT_MIRRORS f)).
Proof.
  split; [|split].
  - intros m Hne Hinv url index from_index to_index. simpl.
    split; [by apply add_mirror_from_url_inv|].
    split; [by apply remove_mirror_inv|].
    split; [by apply move_mirror_inv|].
    split; [by apply next_mirror_inv|].
    split; [by apply reset_to_primary_inv|apply reset_to_defaults_inv].
  - intros file w c. unfold init.
    destruct (_load_config _ _ file) as [[ms i]|] eqn:El; [|done].
    simpl. intros [= <-].
    apply load_config_shape in El as (Hne & Hi & Hd).
    destruct i as [z|f].
    + unfold len. simpl. destruct Hi as (Hi & Hp & Hf).
      split; [done|]. split; [done|]. split; [done|]. split; [done|].
      intros [-> [= ->]]%Hd. apply DEFAULT_MIRRORS_inv.
    + destruct Hi as [Hp Hf]. split; [done|]. split; [done|]. split; [done|].
      simpl. by destruct ms.
  - intros o f w Hm Hi. unfold init, _load_config, py_get.
    rewrite Hm, Hi. cbn [default id mbind res_bind py_min].
    change (match DEFAULT_MIRRORS with
            | [] => 0
            | _ => Z.of_nat (List.length DEFAULT_MIRRORS) - 1
            end) with 2.
    by destruct (lt_int_float 2 f).
Qed.

End invariant.

Lemma store_inv_after_operations_witness :
  let ok m' := _mirrors m' ≠ [] ∧ store_inv m' in
  ok (store_ABC 1)
  ∧ ok (add_mirror_from_url (λ _, true) (λ s, s)
          "b.example/search?word=x" (store_ABC 1)).1
  ∧ ok (remove_mirror 0 (store_ABC 1)).1.
Proof.
  assert (H : _mirrors (store_ABC 1) ≠ [] ∧ store_inv (store_ABC 1)).
  { split; [done|]. apply store_inv_urls. unfold urls, len. simpl.
    split; [|split; [|lia]].
    - intros H. repeat (apply elem_of_cons in H as [H|H]; [done|]).
      by apply elem_of_nil in H.
    - apply (bool_decide_unpack _). by vm_compute. }
  destruct H as [Hne Hinv].
  destruct (proj1 (store_inv_after_operations (λ _, true) (λ s, s)
                     (λ _, "") (λ _, Raise TypeError))
              (store_ABC 1) Hne Hinv "b.example/search?word=x" 0 0 0)
    as (Ha & Hr & _).
  split; [by split|]. split; [exact Ha|exact Hr].
Defined.

(** ** Saving and loading again *)

Lemma payload_persisted m : payload m = persisted (_mirrors m) (_current_index m).
Proof. reflexivity. Qed.

Lemma of_chars_chars s : PyStr.of_chars (PyStr.chars s) = s.
Proof. apply string_of_list_ascii_of_string. Qed.

Lemma chars_of_chars l : PyStr.chars (PyStr.of_chars l) = l.
Proof. apply list_ascii_of_string_of_list_ascii. Qed.

Lemma lstrip_by_head {A} (p : A → bool) a l :
  p a = false → PyStr.lstrip_by p (a :: l) = a :: l.
Proof. intros H. simpl. by rewrite H. Qed.

Lemma rstrip_by_id {A} (p : A → bool) l :
  (∀ a, list.last l = Some a → p a = false) → PyStr.rstrip_by p l = l.
Proof.
  intros H. unfold PyStr.rstrip_by.
  destruct (rev l) as [|a t] eqn:E.
  - simpl. apply (f_equal (@rev _)) in E. by rewrite rev_involutive in E.
  - rewrite lstrip_by_head.
    + by rewrite <- E, rev_involutive.
    + apply H. apply (f_equal (@rev _)) in E. rewrite rev_involutive in E.
      rewrite E. simpl. by rewrite last_snoc.
Qed.

Lemma rstrip_char_id c s :
  list.last (PyStr.chars s) ≠ Some c → PyStr.rstrip_char c s = s.
Proof.
  intros H. unfold PyStr.rstrip_char.
  rewrite rstrip_by_id; [apply of_chars_chars|].
  intros a Ha. destruct (Ascii.eqb_spec c a) as [->|]; [by destruct H|done].
Qed.

Section roundtrip.
Variable py_repr : json → string.
Variable dict_of_other : json → res (gmap string json).

Lemma load_entry_mirror_json c :
  ¬ ends_with_slash (base_url c) →
  load_entry py_repr dict_of_other (mirror_json c) = Ok (Some c).
Proof.
  intros H. unfold load_entry, mirror_json.
  rewrite lookup_insert_eq.
  repeat (rewrite lookup_insert_eq || rewrite lookup_singleton_eq
          || rewrite lookup_insert_ne by done).
  simpl. rewrite rstrip_char_id by exact H. by destruct c.
Qed.

Lemma load_entries_cons m ms :
  load_entries py_repr dict_of_other (m :: ms)
  = (e ← load_entry py_repr dict_of_other m;
     rest ← load_entries py_repr dict_of_other ms;
     Ok (match e with Some c => c :: rest | None => rest end)).
Proof. reflexivity. Qed.

Lemma load_entries_mirror_json l :
  Forall (λ c, ¬ ends_with_slash (base_url c)) l →
  load_entries py_repr dict_of_other (mirror_json <$> l) = Ok l.
Proof.
  induction 1 as [|c l Hc _ IH]; [done|].
  rewrite fmap_cons, load_entries_cons, load_entry_mirror_json by done.
  simpl. by rewrite IH.
Qed.

Lemma load_persisted l i :
  origins l →
  _load_config py_repr dict_of_other (Some (Decoded (persisted l i)))
  = Ok (l, Int (Z.min i (Z.of_nat (List.length l) - 1))).
Proof.
  intros [Hne Hl]. unfold _load_config, persisted, py_get.
  repeat (rewrite lookup_insert_eq || rewrite lookup_singleton_eq
          || rewrite lookup_insert_ne by done).
  pose proof (load_entries_mirror_json l Hl) as He.
  destruct l as [|c l]; [done|].
  rewrite fmap_cons in *. cbn [default mbind res_bind id].
  rewrite He. reflexivity.
Qed.

End roundtrip.

(** *** The records that the load and the parser make are origins *)

Lemma chars_append (s t : string) :
  PyStr.chars (s +:+ t) = (PyStr.chars s ++ PyStr.chars t)%list.
Proof. induction s as [|a s IH]; simpl; [done|]. by rewrite IH. Qed.

Lemma lstrip_by_first {A} (p : A → bool) l a t :
  PyStr.lstrip_by p l = a :: t → p a = false.
Proof.
  induction l as [|b l IH]; simpl; [done|].
  destruct (p b) eqn:E; [done|]. by intros [= <- _].
Qed.

Lemma rstrip_by_last {A} (p : A → bool) l a :
  list.last (PyStr.rstrip_by p l) = Some a → p a = false.
Proof.
  unfold PyStr.rstrip_by.
  destruct (PyStr.lstrip_by p (rev l)) as [|b t] eqn:E; [done|].
  simpl. rewrite last_snoc. intros [= <-]. by eapply lstrip_by_first.
Qed.

Lemma rstrip_char_no_slash s : ¬ ends_with_slash (PyStr.rstrip_char "/" s).
Proof.
  unfold ends_with_slash, PyStr.rstrip_char. rewrite chars_of_chars.
  intros H%rstrip_by_last. done.
Qed.

Lemma break_at_fst p l : Forall (λ a, p a = false) (PyStr.break_at p l).1.
Proof.
  induction l as [|a l IH]; simpl; [constructor|].
  destruct (p a) eqn:E; [constructor|].
  destruct (PyStr.break_at p l) as [u v]. simpl in *. by constructor.
Qed.

Lemma last_Forall {A} (P : A → Prop) (l : list A) a :
  Forall P l → list.last l = Some a → P a.
Proof.
  intros Hl Ha. rewrite Forall_forall in Hl. apply Hl.
  destruct (last_Some l a) as [[l' ->] _]; [done|].
  apply elem_of_app. right. by left.
Qed.

Lemma splitnetloc_no_slash url :
  ¬ ends_with_slash (Urllib.splitnetloc url).1.
Proof.
  unfold Urllib.splitnetloc, ends_with_slash.
  pose proof (break_at_fst Urllib.netloc_delim (drop 2 (PyStr.chars url))) as H.
  destruct (PyStr.break_at _ _) as [n r]. simpl in *.
  rewrite chars_of_chars. intros Hl.
  by pose proof (last_Forall _ _ _ H Hl).
Qed.

Section origin_facts.
Variable netloc_check : string → bool.
Variable unquote_escapes : string → string.
Variable py_repr : json → string.
Variable dict_of_other : json → res (gmap string json).

Lemma urlsplit_netloc url r :
  Urllib.urlsplit netloc_check url = Ok r →
  Urllib.netloc r ≠ "" → ¬ ends_with_slash (Urllib.netloc r).
Proof.
  unfold Urllib.urlsplit.
  destruct (Urllib.split_scheme _) as [sch u].
  destruct (PyStr.startswith "//" u) eqn:Es.
  - pose proof (splitnetloc_no_slash u) as Hn.
    destruct (Urllib.splitnetloc u) as [nl u']. simpl in Hn.
    destruct (xorb _ _); [done|]. destruct (_ && _); [done|].
    destruct (match PyStr.split_once "#" u' with Some p => p | None => (u', "") end)
      as [u1 frag].
    destruct (match PyStr.split_once "?" u1 with Some p => p | None => (u1, "") end)
      as [u2 qry].
    by intros [= <-].
  - simpl.
    destruct (match PyStr.split_once "#" u with Some p => p | None => (u, "") end)
      as [u1 frag].
    destruct (match PyStr.split_once "?" u1 with Some p => p | None => (u1, "") end)
      as [u2 qry].
    by intros [= <-].
Qed.

Lemma urlparse_netloc url r :
  Urllib.urlparse netloc_check url = Ok r →
  Urllib.netloc r ≠ "" → ¬ ends_with_slash (Urllib.netloc r).
Proof.
  unfold Urllib.urlparse.
  destruct (Urllib.urlsplit netloc_check url) as [r0|] eqn:E; [|done].
  simpl. pose proof (urlsplit_netloc _ _ E) as H.
  destruct (_ && _).
  - destruct (Urllib.splitparams _) as [p prm]. by intros [= <-].
  - by intros [= <-].
Qed.

Lemma parse_search_url_origin url c :
  parse_search_url netloc_check unquote_escapes url = Some c →
  ¬ ends_with_slash (base_url c).
Proof.
  intros (parsed & Hp & Hn & ->)%parse_search_url_base_url.
  pose proof (urlparse_netloc _ _ Hp Hn) as H.
  unfold ends_with_slash in *. rewrite !chars_append.
  destruct (PyStr.chars (Urllib.netloc parsed)) as [|a l] eqn:E.
  - apply (f_equal PyStr.of_chars) in E. rewrite of_chars_chars in E. done.
  - by rewrite app_assoc, last_app_cons.
Qed.

Lemma load_entry_origin m c :
  load_entry py_repr dict_of_other m = Ok (Some c) →
  ¬ ends_with_slash (base_url c).
Proof.
  destruct m as [| | | |s| |o]; simpl; try done.
  - intros [= <-]. apply rstrip_char_no_slash.
  - destruct (o !! "base_url") as [b|]; [|done].
    destruct (py_dict _ _) as [sp|]; [|done]. simpl.
    intros [= <-]. apply rstrip_char_no_slash.
Qed.

Lemma load_entries_origin ms l :
  load_entries py_repr dict_of_other ms = Ok l →
  Forall (λ c, ¬ ends_with_slash (base_url c)) l.
Proof.
  revert l. induction ms as [|m ms IH]; intros l.
  - intros [= <-]. constructor.
  - rewrite load_entries_cons.
    destruct (load_entry _ _ m) as [e|] eqn:Ee; [|done].
    destruct (load_entries _ _ ms) as [rest|]; [|done].
    simpl. intros [= <-]. specialize (IH rest eq_refl).
    destruct e as [c|]; [|done]. constructor; [|done].
    by eapply load_entry_origin.
Qed.

Lemma DEFAULT_MIRRORS_origins : origins DEFAULT_MIRRORS.
Proof. split; [done|]. repeat constructor; by vm_compute. Qed.

Lemma load_config_origins file ms i :
  _load_config py_repr dict_of_other file = Ok (ms, i) → origins ms.
Proof.
  unfold _load_config.
  destruct file as [[| |e|data]|];
    try done; try (intros [= <- <-]; apply DEFAULT_MIRRORS_origins).
  destruct data as [| | | | | |o]; try done. unfold py_get.
  cbn [mbind res_bind].
  destruct (default (JArr []) (o !! "mirrors")) as [| | | | |[|j js]|];
    cbn [mbind res_bind];
    try (destruct (py_min _ _); [|done]; intros [= <- <-];
         apply DEFAULT_MIRRORS_origins).
  destruct (load_entries _ _ (j :: js)) as [l|] eqn:El; [|done].
  cbn [mbind res_bind].
  destruct (py_min _ _); [|done]. cbn [mbind res_bind]. intros [= <- <-].
  destruct l; [apply DEFAULT_MIRRORS_origins|].
  split; [done|]. by eapply load_entries_origin.
Qed.

End origin_facts.

Section saveable_facts.
Variable netloc_check : string → bool.
Variable unquote_escapes : string → string.
Variable py_repr : json → string.
Variable dict_of_other : json → res (gmap string json).

Lemma saveable_save m : saveable m → saveable (_save_config m).
Proof. unfold saveable. by rewrite save_mirrors, save_index, save_len. Qed.

(** Every operation keeps what the round trip needs. *)
Lemma run_saveable op m :
  saveable m → saveable (run netloc_check unquote_escapes op m).
Proof.
  intros IH. destruct op as [url|index|f t| | |]; simpl.
  - destruct IH as [[Hne Ho] Hi]. unfold add_mirror_from_url.
    destruct (parse_search_url _ _ url) as [config|] eqn:Ep; [|done].
    apply parse_search_url_origin in Ep.
    destruct (list_find _ _) as [[i existing]|] eqn:Ef; simpl;
      apply saveable_save; unfold saveable, origins, len in *; simpl.
    + apply list_find_Some in Ef as (Hl & _ & _).
      rewrite length_insert. split; [split|done].
      * intros E%(f_equal List.length). rewrite length_insert in E.
        by destruct (_mirrors m).
      * apply Forall_insert; [done|]. simpl.
        rewrite Forall_forall in Ho. apply Ho.
        by eapply list_elem_of_lookup_2.
    + rewrite length_app. simpl. split; [split|lia].
      * by destruct (_mirrors m).
      * apply Forall_app. split; [done|]. by constructor.
  - destruct IH as [[Hne Ho] Hi].
    destruct (decide (0 ≤ index < len m ∧ 1 < len m)) as [[Hx Hl]|Hn].
    + destruct (remove_mirror_accepted index m Hx Hl)
        as (msg & m' & -> & Hm & Hlen & Hidx). simpl.
      unfold saveable, origins. rewrite Hm, Hidx, Hlen. split; [split|].
      * rewrite <- Hm. apply len_pos_iff. lia.
      * unfold pop. by apply Forall_delete.
      * destruct (len m - 1 <=? _current_index m) eqn:E1;
          [apply Z.leb_le in E1|apply Z.leb_gt in E1];
          [|destruct (index <? _current_index m) eqn:E2;
             [apply Z.ltb_lt in E2|apply Z.ltb_ge in E2]]; lia.
    + by rewrite remove_mirror_rejected by lia.
  - destruct IH as [[Hne Ho] Hi]. unfold move_mirror.
    destruct (negb _); [done|]. destruct (negb _); [done|].
    destruct (f =? t); [done|].
    destruct (_mirrors m !! Z.to_nat f) as [mirror|] eqn:El; [|done].
    simpl. apply saveable_save.
    pose proof (insert_at_delete_Permutation _ f t _ El) as Hp.
    unfold saveable, origins, len in *. simpl.
    rewrite (Permutation_length Hp). split; [split|done].
    + intros E. rewrite E in Hp. by apply Permutation_nil_l in Hp.
    + by rewrite Hp.
  - destruct IH as [[Hne Ho] Hi]. unfold next_mirror.
    destruct (len m <=? 1) eqn:E; [done|]. apply Z.leb_gt in E.
    destruct (_ =? 0); [done|]. simpl. apply saveable_save.
    unfold saveable, len in *. simpl. split; [done|].
    pose proof (Z.mod_pos_bound (_current_index m + 1)
                  (Z.of_nat (List.length (_mirrors m)))). lia.
  - destruct IH as [[Hne Ho] Hi]. unfold reset_to_primary.
    destruct (negb _); [|done]. apply saveable_save.
    unfold saveable, len in *. simpl. split; [done|].
    destruct (_mirrors m); [done|simpl; lia].
  - unfold reset_to_defaults. apply saveable_save.
    split; [apply DEFAULT_MIRRORS_origins|]. unfold len. simpl. lia.
Qed.

(** The file that [_save_config] wrote loads as the store that was
    saved. *)
Lemma init_saved m w :
  saveable m → writable m = true →
  init py_repr dict_of_other (_config_file (_save_config m)) w
  = Ok (Manager {| _mirrors := _mirrors m;
                   _current_index := _current_index m;
                   _config_file := Some (Decoded (payload m));
                   writable := w |}).
Proof.
  intros [Ho Hi] Hw. unfold _save_config. rewrite Hw.
  change (_config_file (set_file (Some (Decoded (payload m))) m))
    with (Some (Decoded (payload m))).
  unfold init. rewrite payload_persisted at 1.
  rewrite load_persisted by done.
  unfold len in Hi. cbn [mbind res_bind]. by rewrite Z.min_l by lia.
Qed.


End saveable_facts.

Lemma store_ABC_inv i : 0 ≤ i < 3 → store_inv (store_ABC i).
Proof.
  intros Hi. apply store_inv_urls. unfold urls, len. simpl.
  split; [|split; [|lia]].
  - intros H. repeat (apply elem_of_cons in H as [H|H]; [done|]).
    by apply elem_of_nil in H.
  - apply (bool_decide_unpack _). by vm_compute.
Qed.

Lemma store_ABC_origins : origins [mirror_A; mirror_B; mirror_C].
Proof. split; [done|]. repeat constructor; by vm_compute. Qed.



(** ** [parse_search_url] *)

Lemma prefix_append p s :
  String.prefix p s = true → ∃ r, s = p +:+ r.
Proof.
  revert s. induction p as [|a p IH]; intros s.
  - by exists s.
  - destruct s as [|b s]; simpl; [done|].
    destruct (ascii_dec a b) as [->|]; [|done].
    intros [r ->]%IH. by exists r.
Qed.

Lemma lstrip_pred_cons p a s :
  p a = false → PyStr.lstrip_pred p (String a s) = String a s.
Proof.
  intros H. unfold PyStr.lstrip_pred. simpl. rewrite H. simpl.
  f_equal. apply of_chars_chars.
Qed.

Lemma remove_chars_cons p a s :
  p a = false →
  PyStr.remove_chars p (String a s) = String a (PyStr.remove_chars p s).
Proof.
  intros H. unfold PyStr.remove_chars. simpl.
  by rewrite filter_cons_True by done.
Qed.

Lemma split_scheme_http r :
  Urllib.split_scheme ("http://" +:+ r) = ("http", "//" +:+ r).
Proof.
  unfold Urllib.split_scheme, PyStr.split_once, PyStr.chars, PyStr.of_chars.
  simpl. by rewrite string_of_list_ascii_of_string.
Qed.

Lemma split_scheme_https r :
  Urllib.split_scheme ("https://" +:+ r) = ("https", "//" +:+ r).
Proof.
  unfold Urllib.split_scheme, PyStr.split_once, PyStr.chars, PyStr.of_chars.
  simpl. by rewrite string_of_list_ascii_of_string.
Qed.

Lemma remove_chars_nil p : PyStr.remove_chars p "" = "".
Proof. reflexivity. Qed.

Lemma remove_chars_app p pre s :
  PyStr.remove_chars p (pre +:+ s)
  = PyStr.remove_chars p pre +:+ PyStr.remove_chars p s.
Proof.
  induction pre as [|a pre IH]; [done|].
  change (String a pre +:+ s) with (String a (pre +:+ s)).
  unfold PyStr.remove_chars in *. simpl.
  destruct (p a) eqn:E.
  - by rewrite !filter_cons_False by (by rewrite E).
  - rewrite !filter_cons_True by done. simpl. by rewrite IH.
Qed.

Lemma lstrip_pred_keep p a pre s :
  p a = false →
  PyStr.lstrip_pred p (String a pre +:+ s) = String a pre +:+ s.
Proof. intros H. by apply lstrip_pred_cons. Qed.

Lemma urlsplit_clean_http r :
  PyStr.remove_chars Urllib.unsafe_url_byte
    (PyStr.lstrip_pred Urllib.c0_control_or_space ("http://" +:+ r))
  = "http://" +:+ PyStr.remove_chars Urllib.unsafe_url_byte r.
Proof. by rewrite lstrip_pred_keep, remove_chars_app by done. Qed.

Lemma urlsplit_clean_https r :
  PyStr.remove_chars Urllib.unsafe_url_byte
    (PyStr.lstrip_pred Urllib.c0_control_or_space ("https://" +:+ r))
  = "https://" +:+ PyStr.remove_chars Urllib.unsafe_url_byte r.
Proof. by rewrite lstrip_pred_keep, remove_chars_app by done. Qed.

Section parse_facts.
Variable netloc_check : string → bool.
Variable unquote_escapes : string → string.

Lemma urlsplit_scheme_of sch url rest p :
  Urllib.split_scheme
    (PyStr.remove_chars Urllib.unsafe_url_byte
       (PyStr.lstrip_pred Urllib.c0_control_or_space url)) = (sch, rest) →
  Urllib.urlsplit netloc_check url = Ok p → Urllib.scheme p = sch.
Proof.
  intros Hs. unfold Urllib.urlsplit. rewrite Hs.
  destruct (if PyStr.startswith "//" rest then Urllib.splitnetloc rest
            else ("", rest)) as [nl u].
  destruct (xorb _ _); [done|]. destruct (_ && _); [done|].
  destruct (match PyStr.split_once "#" u with Some p => p | None => (u, "") end)
    as [u1 frag].
  destruct (match PyStr.split_once "?" u1 with Some p => p | None => (u1, "") end)
    as [u2 qry].
  by intros [= <-].
Qed.

Lemma urlparse_scheme url p p' :
  Urllib.urlsplit netloc_check url = Ok p →
  Urllib.urlparse netloc_check url = Ok p' →
  Urllib.scheme p' = Urllib.scheme p.
Proof.
  unfold Urllib.urlparse. intros ->. simpl.
  destruct (_ && _).
  - destruct (Urllib.splitparams _) as [q prm]. by intros [= <-].
  - by intros [= <-].
Qed.

Lemma with_scheme_scheme url parsed :
  Urllib.urlparse netloc_check (with_scheme url) = Ok parsed →
  Urllib.scheme parsed
  = if PyStr.startswith "http://" (PyStr.strip url) then "http" else "https".
Proof.
  intros Hp.
  destruct (Urllib.urlsplit netloc_check (with_scheme url)) as [p|] eqn:Es;
    [|by unfold Urllib.urlparse in Hp; rewrite Es in Hp].
  rewrite (urlparse_scheme _ _ _ Es Hp). clear Hp. revert Es.
  unfold with_scheme.
  destruct (PyStr.startswith "http://" (PyStr.strip url)) eqn:E1.
  - apply prefix_append in E1 as [r ->]. simpl orb. cbv iota.
    eapply urlsplit_scheme_of.
    by rewrite urlsplit_clean_http, split_scheme_http.
  - destruct (PyStr.startswith "https://" (PyStr.strip url)) eqn:E2.
    + apply prefix_append in E2 as [r ->]. simpl orb. cbv iota.
      eapply urlsplit_scheme_of.
      by rewrite urlsplit_clean_https, split_scheme_https.
    + simpl orb. cbv iota. eapply urlsplit_scheme_of.
      by rewrite urlsplit_clean_https, split_scheme_https.
Qed.

End parse_facts.

Lemma parse_qs_fold_lookup pairs (acc : gmap string (list string)) key :
  foldl (λ (parsed_result : gmap string (list string)) (nv : string * string),
           let '(name, value) := nv in
           match parsed_result !! name with
           | Some vs => <[name := (vs ++ [value])%list]> parsed_result
           | None => <[name := [value]]> parsed_result
           end) acc pairs !! key
  = match acc !! key with
    | Some a => Some (a ++ values_of key pairs)%list
    | None => match values_of key pairs with [] => None | vs => Some vs end
    end.
Proof.
  revert acc. induction pairs as [|[n v] pairs IH]; intros acc.
  - simpl. unfold values_of. simpl. destruct (acc !! key); [|done].
    by rewrite app_nil_r.
  - simpl foldl. rewrite IH. unfold values_of.
    destruct (decide (n = key)) as [->|Hne].
    + rewrite filter_cons_True by done. simpl.
      destruct (acc !! key) as [a|] eqn:Ea; rewrite lookup_insert_eq.
      * by rewrite <- app_assoc.
      * done.
    + rewrite filter_cons_False by done.
      by destruct (acc !! n); rewrite lookup_insert_ne by done.
Qed.

Section parse_search_url_facts.
Variable netloc_check : string → bool.
Variable unquote_escapes : string → string.

Lemma parse_qs_lookup qs key :
  Urllib.parse_qs unquote_escapes qs !! key
  = match values_of key (Urllib.parse_qsl unquote_escapes qs) with
    | [] => None
    | vs => Some vs
    end.
Proof.
  unfold Urllib.parse_qs. by rewrite parse_qs_fold_lookup, lookup_empty.
Qed.

Lemma parse_search_url_params url c :
  parse_search_url netloc_check unquote_escapes url = Some c →
  ∃ parsed,
    Urllib.urlparse netloc_check (with_scheme url) = Ok parsed
    ∧ ∀ key,
        search_params c !! key
        = if bool_decide (PyStr.lower key ∈ excluded_params) then None
          else JStr <$> head (values_of key
                 (Urllib.parse_qsl unquote_escapes (Urllib.query parsed))).
Proof.
  unfold parse_search_url.
  destruct (negb (PyStr.nonempty (PyStr.strip url))); [done|].
  destruct (Urllib.urlparse netloc_check (with_scheme url)) as [parsed|]; [|done].
  destruct (negb _); [done|]. intros [= <-]. exists parsed. split; [done|].
  intros key. simpl. rewrite map_lookup_imap, parse_qs_lookup.
  destruct (values_of _ _) as [|v vs]; simpl; by destruct (bool_decide _).
Qed.

(** C9. The scenario URL parses to the record of the spec. In general,
    when [parse_search_url] returns a record: its [base_url] is the scheme
    followed by ["://"] and the netloc of the URL, the scheme being
    ["https"] whenever the stripped input does not start with
    ["http://"] (so also when it carries no scheme at all, where
    ["https://"] is put in front before parsing); a key whose lower-case
    form is one of [word, page, q, query, search, keyword] is absent from
    [search_params]; and every other key is bound to the value of its
    first occurrence in the query. Stripping and lower case are those of
    [str.strip] and [str.lower]: the white space of Unicode around the
    URL is removed, and the key written with the Kelvin sign, whose lower
    case is [keyword], is excluded. *)
Theorem parse_search_url_spec :
  parse_search_url netloc_check unquote_escapes
    "bato.ing/v4x-search?type=comic&word=test&page=2"
  = Some {| base_url := "https://bato.ing"; search_path := "/v4x-search";
            search_params := {[ "type" := JStr "comic" ]} |}
  ∧ parse_search_url netloc_check unquote_escapes
      "  bato.ing/s?Type=a&WORD=x&Page=3&type=b&Type=c&KeyWord=k "
    = Some {| base_url := "https://bato.ing"; search_path := "/s";
              search_params := {[ "Type" := JStr "a"; "type" := JStr "b" ]} |}
  ∧ parse_search_url netloc_check unquote_escapes padded_url
    = Some {| base_url := "https://bato.ing"; search_path := "/s";
              search_params := {[ "a" := JStr "b" ]} |}
  ∧ ∀ url c,
      parse_search_url netloc_check unquote_escapes url = Some c →
      ∃ parsed,
        Urllib.urlparse netloc_check (with_scheme url) = Ok parsed
        ∧ with_scheme url
          = (if PyStr.startswith "http://" (PyStr.strip url)
                || PyStr.startswith "https://" (PyStr.strip url)
             then PyStr.strip url else "https://" +:+ PyStr.strip url)
        ∧ Urllib.netloc parsed ≠ ""
        ∧ base_url c
          = (if PyStr.startswith "http://" (PyStr.strip url)
             then "http" else "https") +:+ "://" +:+ Urllib.netloc parsed
        ∧ (∀ key, PyStr.lower key ∈ excluded_params →
             search_params c !! key = None)
        ∧ (∀ key, PyStr.lower key ∉ excluded_params →
             search_params c !! key
             = JStr <$> head (values_of key
                 (Urllib.parse_qsl unquote_escapes (Urllib.query parsed)))).
Proof.
  split; [by vm_compute|]. split; [by vm_compute|]. split; [by vm_compute|].
  intros url c Hc.
  destruct (parse_search_url_base_url _ _ _ _ Hc) as (parsed & Hp & Hn & Hb).
  destruct (parse_search_url_params _ _ Hc) as (parsed' & Hp' & Hk).
  rewrite Hp in Hp'. injection Hp' as <-.
  exists parsed. split; [done|]. split; [done|]. split; [done|].
  split; [by rewrite Hb, (with_scheme_scheme _ _ _ Hp)|].
  split; intros key Hkey; rewrite Hk.
  - by rewrite bool_decide_eq_true_2.
  - by rewrite bool_decide_eq_false_2.
Qed.

End parse_search_url_facts.

(** ** The retry loop *)

Lemma fallback_loop_step {A} (attempt : string → BatoService → BatoService * res A)
  generic fuel tried last_error s current_base :
  current_base_url (_mirror_manager s) = Ok current_base →
  current_base ∉ tried →
  fallback_loop attempt generic (S fuel) tried last_error s
  = match attempt current_base s with
    | (s1, Ok a) => Some (s1, Ok (a, current_base))
    | (s1, Raise e) =>
        after_failure attempt generic fuel (tried ++ [current_base]) e s1
    end.
Proof.
  intros Hc Ht. simpl. rewrite Hc.
  rewrite bool_decide_eq_false_2 by done.
  destruct (attempt current_base s) as [s1 [a|e]]; [done|].
  unfold after_failure. destruct (is_request_exception e); [|done].
  by destruct (next_mirror (_mirror_manager s1)) as [m' [c|]].
Qed.

Lemma with_fallback_first {A} (attempt : string → BatoService → BatoService * res A)
  generic s current_base :
  current_base_url (_mirror_manager s) = Ok current_base →
  with_fallback attempt generic s
  = match attempt current_base s with
    | (s1, Ok a) => Some (s1, Ok (a, current_base))
    | (s1, Raise e) =>
        after_failure attempt generic
          (S (List.length (_mirrors (_mirror_manager s)))) [current_base] e s1
    end.
Proof.
  intros Hc. unfold with_fallback. rewrite Hc. unfold enough.
  rewrite (fallback_loop_step _ _ _ _ _ _ _ Hc) by apply not_elem_of_nil.
  done.
Qed.

Lemma next_mirror_mirrors m : _mirrors (next_mirror m).1 = _mirrors m.
Proof.
  unfold next_mirror. destruct (len m <=? 1); [done|].
  destruct (_ =? 0); [done|]. simpl. by rewrite save_mirrors.
Qed.

Lemma next_mirror_some m m' c :
  next_mirror m = (m', Some c) →
  _mirrors m' = _mirrors m ∧ 0 < _current_index m' < len m.
Proof.
  unfold next_mirror. destruct (len m <=? 1) eqn:E; [done|].
  apply Z.leb_gt in E.
  destruct (_ =? 0) eqn:E0; [done|]. apply Z.eqb_neq in E0.
  simpl. rewrite save_mirrors, save_index. simpl. intros [= <- _].
  rewrite save_mirrors, save_index. simpl. split; [done|].
  pose proof (Z.mod_pos_bound (_current_index m + 1) (len m)). lia.
Qed.

Lemma exhausted_not_ok {A} generic last_error s s' (x : A) :
  exhausted generic last_error s ≠ (s', Ok x).
Proof. unfold exhausted. by intros [= _ ?]. Qed.

(** A success is the success of one attempt, on the mirror that is
    current when the attempt starts; that mirror is the starting one or
    one that [next_mirror] moved to. *)
Lemma fallback_loop_success {A} (attempt : string → BatoService → BatoService * res A)
  generic fuel tried last_error s s' a base :
  attempt_frame attempt →
  fallback_loop attempt generic fuel tried last_error s = Some (s', Ok (a, base)) →
  ∃ s0,
    attempt base s0 = (s', Ok a)
    ∧ current_base_url (_mirror_manager s0) = Ok base
    ∧ _mirrors (_mirror_manager s0) = _mirrors (_mirror_manager s)
    ∧ (_mirror_manager s0 = _mirror_manager s
       ∨ 0 < _current_index (_mirror_manager s0)).
Proof.
  intros Hf. revert tried last_error s.
  induction fuel as [|fuel IH]; intros tried last_error s; [done|].
  simpl.
  destruct (current_base_url (_mirror_manager s)) as [cb|] eqn:Ec; [|done].
  destruct (bool_decide (cb ∈ tried)).
  { unfold exhausted. intros H. discriminate H. }
  destruct (attempt cb s) as [s1 [x|e]] eqn:Ea.
  - intros [= <- <- <-]. exists s. by repeat split; [..|left].
  - destruct (is_request_exception e); [|done].
    pose proof (Hf cb s) as Hm. rewrite Ea in Hm. simpl in Hm.
    destruct (next_mirror (_mirror_manager s1)) as [m' [c|]] eqn:En.
    + intros (s0 & H1 & H2 & H3 & H4)%IH.
      apply next_mirror_some in En as [Hmm Hi]. simpl in *.
      exists s0. split; [done|]. split; [done|].
      split; [congruence|]. right.
      destruct H4 as [->|]; [lia|done].
    + unfold exhausted. intros H. discriminate H.
Qed.

(** *** The loop returns: [enough] iterations suffice *)

Lemma next_mirror_some_succ m m' c :
  next_mirror m = (m', Some c) → 0 ≤ _current_index m < len m →
  _mirrors m' = _mirrors m
  ∧ _current_index m' = _current_index m + 1
  ∧ _current_index m + 1 < len m.
Proof.
  unfold next_mirror. destruct (len m <=? 1) eqn:E; [done|].
  apply Z.leb_gt in E. intros H Hi.
  destruct (decide (_current_index m + 1 < len m)) as [Hlt|Hge].
  - rewrite Z.mod_small in H by lia.
    destruct (_ =? 0); [done|]. injection H as <- _.
    by rewrite save_index, save_mirrors.
  - replace (_current_index m + 1) with (len m) in H by lia.
    by rewrite Z.mod_same in H by lia.
Qed.

Lemma fallback_loop_returns_from {A}
  (attempt : string → BatoService → BatoService * res A)
  generic fuel tried last_error s :
  attempt_frame attempt →
  0 ≤ _current_index (_mirror_manager s) < len (_mirror_manager s) →
  len (_mirror_manager s) - _current_index (_mirror_manager s) ≤ Z.of_nat fuel →
  is_Some (fallback_loop attempt generic fuel tried last_error s).
Proof.
  intros Hf. revert tried last_error s.
  induction fuel as [|fuel IH]; intros tried last_error s Hi Hfuel; [lia|].
  simpl.
  destruct (current_base_url (_mirror_manager s)) as [cb|]; [|done].
  destruct (bool_decide (cb ∈ tried)); [done|].
  pose proof (Hf cb s) as Hm.
  destruct (attempt cb s) as [s1 [x|e]]; [done|]. simpl in Hm.
  destruct (is_request_exception e); [|done].
  destruct (next_mirror (_mirror_manager s1)) as [m' [c|]] eqn:En; [|done].
  rewrite Hm in En.
  apply next_mirror_some_succ in En as (Hmm & Hidx & Hlt); [|done].
  apply IH; unfold len in *; simpl; rewrite ?Hmm, ?Hidx; lia.
Qed.

Lemma with_fallback_returns {A}
  (attempt : string → BatoService → BatoService * res A) generic s :
  attempt_frame attempt → is_Some (with_fallback attempt generic s).
Proof.
  intros Hf. unfold with_fallback.
  destruct (current_base_url (_mirror_manager s)) as [cb|] eqn:Ec; [|done].
  unfold enough.
  rewrite (fallback_loop_step _ _ _ _ _ _ _ Ec) by apply not_elem_of_nil.
  pose proof (Hf cb s) as Hm.
  destruct (attempt cb s) as [s1 [x|e]]; [done|]. simpl in Hm.
  unfold after_failure. destruct (is_request_exception e); [|done].
  destruct (next_mirror (_mirror_manager s1)) as [m' [c|]] eqn:En; [|done].
  rewrite Hm in En. apply next_mirror_some in En as [Hmm Hi].
  apply fallback_loop_returns_from; [done|..];
    unfold len in *; simpl; rewrite ?Hmm; lia.
Qed.

(** *** The three request methods use framed attempts *)

Section attempts.
Variable scraper : list request → request → response.
Variable urljoin : string → string → string.
Variable py_repr : json → string.

Lemma send_manager rq s :
  _mirror_manager (send scraper rq s).1 = _mirror_manager s.
Proof. done. Qed.

Lemma send_calls rq s : calls (send scraper rq s).1 = (calls s ++ [rq])%list.
Proof. done. Qed.

Lemma post_json_state rq s :
  (post_json scraper py_repr rq s).1 = log_call rq s.
Proof. done. Qed.

Lemma request_attempt_frame path params :
  attempt_frame (request_attempt scraper urljoin path params).
Proof. by intros b s. Qed.

Lemma search_attempt_frame query page :
  attempt_frame (search_attempt scraper urljoin py_repr query page).
Proof. by intros b s. Qed.

Lemma series_attempt_frame comic_id :
  attempt_frame (series_attempt scraper urljoin py_repr comic_id).
Proof.
  intros b s. unfold series_attempt.
  pose proof (post_json_state (PostComic (urljoin b "/apo/") comic_id) s) as H1.
  destruct (post_json _ _ (PostComic _ _) s) as [s1 [j|e]]; simpl in H1; subst s1;
    [|done].
  pose proof (post_json_state (PostChapters (urljoin b "/apo/") comic_id)
                (log_call (PostComic (urljoin b "/apo/") comic_id) s)) as H2.
  destruct (post_json _ _ (PostChapters _ _) _) as [s2 r2]; simpl in H2.
  by subst s2.
Qed.

End attempts.

(** ** Fallback scenarios on the store [A; B; C] *)

(** C3. When a fallback-wrapped request returns successfully with the
    payload [a] and the origin [base], then [a] is what the attempt on
    [base] returned, [base] being the current mirror when that attempt
    started; the manager is left as it was at that moment (it is the
    starting one, or one [next_mirror] moved to, whose index is not 0: no
    reset to the primary happened), so [base] is still the current mirror
    and the next fallback-wrapped request makes its first attempt on
    [base]. *)
Theorem fallback_success_keeps_mirror {A}
  (attempt : string → BatoService → BatoService * res A) generic s s' a base :
  attempt_frame attempt →
  with_fallback attempt generic s = Some (s', Ok (a, base)) →
  ∃ s0,
    attempt base s0 = (s', Ok a)
    ∧ current_base_url (_mirror_manager s0) = Ok base
    ∧ _mirror_manager s' = _mirror_manager s0
    ∧ (_mirror_manager s' = _mirror_manager s
       ∨ 0 < _current_index (_mirror_manager s'))
    ∧ current_base_url (_mirror_manager s') = Ok base
    ∧ ∀ B (attempt' : string → BatoService → BatoService * res B) generic',
        with_fallback attempt' generic' s'
        = match attempt' base s' with
          | (s1, Ok b) => Some (s1, Ok (b, base))
          | (s1, Raise e) =>
              after_failure attempt' generic'
                (S (List.length (_mirrors (_mirror_manager s')))) [base] e s1
          end.
Proof.
  intros Hf. unfold with_fallback.
  destruct (current_base_url (_mirror_manager s)) as [cb|] eqn:Ec; [|done].
  intros (s0 & Ha & Hc & Hm & Hi)%fallback_loop_success; [|done].
  pose proof (Hf base s0) as Hfr. rewrite Ha in Hfr. simpl in Hfr.
  exists s0. split; [done|]. split; [done|]. split; [done|].
  split; [rewrite Hfr; destruct Hi; [by left|by right]|].
  split; [by rewrite Hfr|].
  intros B attempt' generic'. apply with_fallback_first. by rewrite Hfr.
Qed.

Lemma recovery_on_C_run :
  _request_with_fallback (only_up "https://c.example" JNull) join "/x" None
    (service_at (store_ABC 0))
  = Some (after_recovery_on_C, Ok ("payload", "https://c.example")).
Proof. by vm_compute. Qed.

Lemma fallback_success_keeps_mirror_witness :
  _current_index (_mirror_manager after_recovery_on_C) = 2
  ∧ current_base_url (_mirror_manager after_recovery_on_C)
    = Ok "https://c.example".
Proof.
  split; [done|].
  destruct (fallback_success_keeps_mirror
              (request_attempt (only_up "https://c.example" JNull) join "/x" None)
              ("All mirrors failed for path: " +:+ "/x")
              (service_at (store_ABC 0)) after_recovery_on_C
              "payload" "https://c.example"
              (request_attempt_frame _ _ _ _) recovery_on_C_run)
    as (s0 & _ & _ & _ & _ & Hc & _).
  exact Hc.
Defined.

(** C2, as stated, fails: with C current and every mirror down, the
    request calls C only. [next_mirror] answers [None] at once (the
    successor of index 2 wraps to 0), so A is never tried. *)
Lemma fallback_from_C_never_tries_A :
  _request_with_fallback all_down join "/x" None (service_at (store_ABC 2))
  = Some (after_failure_on_C, Raise (RequestException "down"))
  ∧ Get "https://a.example/x" None ∉ calls after_failure_on_C.
Proof.
  split; [by vm_compute|].
  intros H. apply list_elem_of_singleton in H. discriminate H.
Qed.

(** C2, amended. In a store whose current mirror is the last record (C in
    [A; B; C]), a fallback-wrapped request whose attempt on that mirror
    fails with a request failure makes no other attempt: [next_mirror]
    reports no next mirror, the executor resets [_current_index] to 0 and
    raises that failure, the last one it met. (The exit of the loop raises
    the generic failure only when no failure was recorded.) *)
Theorem fallback_at_last_mirror_stops {A}
  (attempt : string → BatoService → BatoService * res A)
  generic s base msg s1 :
  attempt_frame attempt →
  _current_index (_mirror_manager s) = len (_mirror_manager s) - 1 →
  current_base_url (_mirror_manager s) = Ok base →
  attempt base s = (s1, Raise (RequestException msg)) →
  with_fallback attempt generic s
  = Some (set_manager (reset_to_primary (_mirror_manager s)) s1,
          Raise (RequestException msg))
  ∧ _current_index (reset_to_primary (_mirror_manager s)) = 0
  ∧ _mirrors (reset_to_primary (_mirror_manager s)) = _mirrors (_mirror_manager s)
  ∧ (∀ s2, @exhausted A generic None s2
           = (set_manager (reset_to_primary (_mirror_manager s2)) s2,
              Raise (RequestException generic))).
Proof.
  intros Hf Hi Hc Ha. split; [|split; [|split; [|done]]].
  - rewrite (with_fallback_first _ _ _ _ Hc), Ha.
    unfold after_failure. simpl is_request_exception. cbv iota.
    pose proof (Hf base s) as Hm. rewrite Ha in Hm. simpl in Hm.
    rewrite Hm, next_mirror_at_last by done. done.
  - unfold reset_to_primary.
    destruct (_current_index (_mirror_manager s) =? 0) eqn:E; simpl.
    + by apply Z.eqb_eq in E.
    + by rewrite save_index.
  - unfold reset_to_primary. destruct (negb _); [|done].
    by rewrite save_mirrors.
Qed.

Lemma fallback_at_last_mirror_stops_witness :
  with_fallback (request_attempt all_down join "/x" None)
    ("All mirrors failed for path: " +:+ "/x") (service_at (store_ABC 2))
  = Some (set_manager (reset_to_primary (store_ABC 2))
            (log_call (Get "https://c.example/x" None) (service_at (store_ABC 2))),
          Raise (RequestException "down"))
  ∧ _current_index (reset_to_primary (store_ABC 2)) = 0.
Proof.
  destruct (fallback_at_last_mirror_stops
              (request_attempt all_down join "/x" None)
              ("All mirrors failed for path: " +:+ "/x")
              (service_at (store_ABC 2)) "https://c.example" "down"
              (log_call (Get "https://c.example/x" None)
                 (service_at (store_ABC 2)))
              (request_attempt_frame _ _ _ _) eq_refl eq_refl eq_refl)
    as (H1 & H2 & _).
  by split.
Defined.

(** ** The two calls of a series lookup *)

Section series.
Variable scraper : list request → request → response.
Variable urljoin : string → string → string.
Variable py_repr : json → string.

Lemma post_json_failed rq s msg :
  scraper (calls s) rq = Failed msg →
  post_json scraper py_repr rq s = (log_call rq s, Raise (RequestException msg)).
Proof. unfold post_json, send. by intros ->. Qed.

Lemma post_json_errors rq s text o v :
  scraper (calls s) rq = Reply text (Ok (JObj o)) →
  o !! "errors" = Some v →
  post_json scraper py_repr rq s
  = (log_call rq s,
     Raise (RequestException ("GraphQL error: " +:+ py_str py_repr v))).
Proof. unfold post_json, send. intros -> Hv. simpl. by rewrite Hv. Qed.

Lemma series_attempt_ok comic_id base s s' comic_data chapters_data :
  series_attempt scraper urljoin py_repr comic_id base s
  = (s', Ok (comic_data, chapters_data)) →
  let api_url := urljoin base "/apo/" in
  let s1 := log_call (PostComic api_url comic_id) s in
  ∃ comic_result chapters_result,
    post_json scraper py_repr (PostComic api_url comic_id) s
    = (s1, Ok comic_result)
    ∧ post_json scraper py_repr (PostChapters api_url comic_id) s1
      = (s', Ok chapters_result)
    ∧ s' = log_call (PostChapters api_url comic_id) s1.
Proof.
  unfold series_attempt. cbv zeta.
  pose proof (post_json_state scraper py_repr
                (PostComic (urljoin base "/apo/") comic_id) s) as H1.
  destruct (post_json _ _ (PostComic _ _) s) as [s1 [j1|e1]];
    simpl in H1; subst s1; [|done].
  pose proof (post_json_state scraper py_repr
                (PostChapters (urljoin base "/apo/") comic_id)
                (log_call (PostComic (urljoin base "/apo/") comic_id) s)) as H2.
  destruct (post_json _ _ (PostChapters _ _) _) as [s2 [j2|e2]];
    simpl in H2; subst s2; [|done].
  cbn [mbind res_bind]. intros Heq.
  assert (s' = log_call (PostChapters (urljoin base "/apo/") comic_id)
                 (log_call (PostComic (urljoin base "/apo/") comic_id) s))
    as -> by congruence.
  by exists j1, j2.
Qed.

Lemma series_attempt_chapters_fail comic_id base s comic_result s2 e :
  let api_url := urljoin base "/apo/" in
  let s1 := log_call (PostComic api_url comic_id) s in
  post_json scraper py_repr (PostComic api_url comic_id) s = (s1, Ok comic_result) →
  post_json scraper py_repr (PostChapters api_url comic_id) s1 = (s2, Raise e) →
  series_attempt scraper urljoin py_repr comic_id base s = (s2, Raise e).
Proof. cbv zeta. intros H1 H2. unfold series_attempt. by rewrite H1, H2. Qed.


End series.

(** A lookup on [A; B; C] where A answers the metadata query and fails the
    chapter list: the answer comes from B, after two calls to A and two
    calls to B. *)
Example series_lookup_falls_back_after_chapter_failure :
  ∃ s',
    _get_series_info_graphql
      (chapters_down_on "https://a.example" (JObj ∅) (JObj ∅)) join (λ _, "")
      "42" (service_at (store_ABC 0))
    = Some (s', Ok (JObj ∅, JArr [], "https://b.example"))
    ∧ calls s' = [PostComic "https://a.example/apo/" "42";
                  PostChapters "https://a.example/apo/" "42";
                  PostComic "https://b.example/apo/" "42";
                  PostChapters "https://b.example/apo/" "42"]
    ∧ _current_index (_mirror_manager s') = 1.
Proof. eexists. split; [by vm_compute|]. by split. Qed.

(** ** The order of the chapters of a series *)

Section chapters.
Variable scraper : list request → request → response.
Variable urljoin : string → string → string.
Variable py_repr : json → string.
Variable netloc_check : string → bool.
Variable decimal : list ascii → bool.

Lemma add_chapter_app base ch acc :
  add_chapter urljoin base ch acc
  = match add_chapter urljoin base ch [] with
    | Ok l => Ok (acc ++ l)%list
    | Raise e => Raise e
    end.
Proof.
  unfold add_chapter.
  destruct (py_get ch "data" (JObj ∅)) as [ch_data|]; [|done]. cbn [mbind res_bind].
  destruct (py_get ch_data "urlPath" (JStr "")) as [url_path|]; [|done].
  cbn [mbind res_bind].
  destruct (negb (truthy url_path)); [by rewrite app_nil_r|].
  destruct (py_get ch_data "dname" (JStr "Unknown")) as [dname|]; [|done].
  cbn [mbind res_bind].
  by destruct (urljoin_value urljoin base url_path).
Qed.

Lemma add_chapters_order base chs acc chapters :
  add_chapters urljoin base chs acc = Ok chapters →
  chapters = (acc ++ (chs ≫= chapter_entries urljoin base))%list.
Proof.
  revert acc. induction chs as [|ch chs IH]; intros acc.
  - simpl. intros [= <-]. by rewrite app_nil_r.
  - simpl add_chapters. rewrite add_chapter_app, bind_cons.
    unfold chapter_entries at 1.
    destruct (add_chapter urljoin base ch []) as [l|]; [|done].
    cbn [mbind res_bind]. intros ->%IH. by rewrite app_assoc.
Qed.

Lemma chapter_entries_of_dict base (o d : gmap string json) p :
  o !! "data" = Some (JObj d) → d !! "urlPath" = Some (JStr p) → p ≠ "" →
  chapter_entries urljoin base (JObj o)
  = [ {| chapter_title := default (JStr "Unknown") (d !! "dname");
         chapter_url := urljoin base p;
         chapter_label := default (JStr "Unknown") (d !! "dname") |} ].
Proof.
  intros Ho Hd Hp. unfold chapter_entries, add_chapter. simpl.
  rewrite Ho. simpl. rewrite Hd. simpl. by destruct p.
Qed.

Lemma build_series_info_chapters path comic_data chapters_data base info :
  build_series_info urljoin path comic_data chapters_data base = Ok info →
  ∃ chs, py_iter chapters_data = Ok chs
         ∧ info_chapters info = chs ≫= chapter_entries urljoin base.
Proof.
  unfold build_series_info.
  destruct (py_get comic_data "data" (JObj ∅)) as [data|]; [|done].
  cbn [mbind res_bind].
  destruct (py_get data "name" _) as [title|]; [|done]. cbn [mbind res_bind].
  destruct (py_get data "summary" _) as [summary|]; [|done]. cbn [mbind res_bind].
  destruct (match summary with
            | JObj o => if truthy summary
                        then Ok (default (JStr "") (o !! "code"))
                        else Ok (JStr "")
            | _ => Ok (JStr "")
            end) as [description|]; [|done]. cbn [mbind res_bind].
  destruct (match data with
            | JObj o => Ok (add_attribute o "genres" "Genres"
                              (add_attribute o "authors" "Authors" ∅))
            | _ => Raise AttributeError
            end) as [attributes|]; [|done]. cbn [mbind res_bind].
  destruct (py_iter chapters_data) as [chs|]; [|done]. cbn [mbind res_bind].
  destruct (add_chapters urljoin base chs []) as [chapters|] eqn:Ec; [|done].
  cbn [mbind res_bind]. intros [= <-]. exists chs. split; [done|].
  simpl. by apply add_chapters_order in Ec.
Qed.

Lemma get_series_info_chapters series_url s s' info :
  get_series_info scraper urljoin py_repr netloc_check decimal series_url s
  = Some (s', Ok info) →
  ∃ comic_id comic_data chapters_data base chs,
    _get_series_info_graphql scraper urljoin py_repr comic_id s
    = Some (s', Ok (comic_data, chapters_data, base))
    ∧ py_iter chapters_data = Ok chs
    ∧ info_chapters info = chs ≫= chapter_entries urljoin base.
Proof.
  unfold get_series_info.
  destruct (Urllib.urlparse netloc_check series_url) as [parsed|]; [|done].
  destruct (search_title_id _) as [digits|]; [|done].
  destruct (_get_series_info_graphql _ _ _ _ s)
    as [[s1 [[[comic_data chapters_data] base]|e]]|] eqn:Eg; [|done|done].
  intros [= <- Hb].
  apply build_series_info_chapters in Hb as (chs & Hi & Hc).
  by exists (PyStr.of_chars digits), comic_data, chapters_data, base, chs.
Qed.

End chapters.

Lemma test_series_run :
  get_series_info (fake_scraper test_comic_response test_chapters_response)
    join (λ _, "") (λ _, true) (λ _, false)
    "https://bato.to/title/12345-sample-series" default_service
  = Some (after_test_lookup, Ok test_series_info).
Proof. by vm_compute. Qed.


Section chapter_order.
Variable scraper : list request → request → response.
Variable urljoin : string → string → string.
Variable py_repr : json → string.
Variable netloc_check : string → bool.
Variable decimal : list ascii → bool.


End chapter_order.


(** ** The page bound of [search_manga] *)

(** A property of the service that attempts and manager updates keep is
    kept by the retry loop. *)
Lemma fallback_loop_preserves {A} (P : BatoService → Prop)
  (attempt : string → BatoService → BatoService * res A)
  generic fuel tried last_error s s' r :
  (∀ b s0, P s0 → P (attempt b s0).1) →
  (∀ m s0, P s0 → P (set_manager m s0)) →
  P s →
  fallback_loop attempt generic fuel tried last_error s = Some (s', r) → P s'.
Proof.
  intros Ha Hm. revert tried last_error s.
  induction fuel as [|fuel IH]; intros tried last_error s Hs; [done|].
  simpl.
  destruct (current_base_url (_mirror_manager s)) as [cb|]; [|by intros [= <- _]].
  destruct (bool_decide (cb ∈ tried)).
  { unfold exhausted. intros [= <- _]. by apply Hm. }
  pose proof (Ha cb s Hs) as Hs1.
  destruct (attempt cb s) as [s1 [x|e]]; simpl in Hs1; [by intros [= <- _]|].
  destruct (is_request_exception e); [|by intros [= <- _]].
  destruct (next_mirror (_mirror_manager s1)) as [m' [c|]].
  - apply IH. by apply Hm.
  - unfold exhausted. intros [= <- _]. by apply Hm, Hm.
Qed.

Lemma with_fallback_preserves {A} (P : BatoService → Prop)
  (attempt : string → BatoService → BatoService * res A) generic s s' r :
  (∀ b s0, P s0 → P (attempt b s0).1) →
  (∀ m s0, P s0 → P (set_manager m s0)) →
  P s →
  with_fallback attempt generic s = Some (s', r) → P s'.
Proof.
  intros Ha Hm Hs. unfold with_fallback.
  destruct (current_base_url (_mirror_manager s)); [|by intros [= <- _]].
  by apply fallback_loop_preserves.
Qed.

(** A success follows an attempt, so whatever every attempt establishes
    holds after a success. *)
Lemma with_fallback_success_after_attempt {A} (Q : BatoService → Prop)
  (attempt : string → BatoService → BatoService * res A) generic s s' x :
  attempt_frame attempt →
  (∀ b s0, Q (attempt b s0).1) →
  with_fallback attempt generic s = Some (s', Ok x) → Q s'.
Proof.
  intros Hf Hq. unfold with_fallback.
  destruct (current_base_url (_mirror_manager s)); [|done].
  destruct x as [payload base].
  intros (s0 & Hs0 & _)%fallback_loop_success; [|done].
  specialize (Hq base s0). by rewrite Hs0 in Hq.
Qed.

Lemma range1_one n : n ≤ 0 → range1 (Z.max 1 n) = [1].
Proof. intros H. by rewrite Z.max_l by lia. Qed.

Section search.
Variable scraper : list request → request → response.
Variable urljoin : string → string → string.
Variable py_repr : json → string.
Variable max_search_pages : Z.

Lemma search_attempt_state query page b s :
  (search_attempt scraper urljoin py_repr query page b s).1
  = log_call (PostSearch (urljoin b "/apo/") query page) s.
Proof. done. Qed.

Lemma search_with_fallback_returns query page s :
  is_Some (_search_with_fallback scraper urljoin py_repr query page s).
Proof. apply with_fallback_returns, search_attempt_frame. Qed.

Lemma search_with_fallback_subrequests query page s s' r :
  _search_with_fallback scraper urljoin py_repr query page s = Some (s', r) →
  subrequests s' = (subrequests s ++ [(query, page)])%list.
Proof.
  unfold _search_with_fallback.
  apply (with_fallback_preserves
           (λ s0, subrequests s0 = (subrequests s ++ [(query, page)])%list));
    [|done..].
  intros b s0 Hs0. by rewrite search_attempt_state.
Qed.

Lemma search_with_fallback_calls query page s s' r :
  _search_with_fallback scraper urljoin py_repr query page s = Some (s', r) →
  (List.length (calls s) ≤ List.length (calls s'))%nat.
Proof.
  unfold _search_with_fallback.
  apply (with_fallback_preserves
           (λ s0, (List.length (calls s) ≤ List.length (calls s0))%nat));
    [|done..].
  intros b s0 Hs0. rewrite search_attempt_state. simpl.
  rewrite length_app. simpl. lia.
Qed.

Lemma search_pages_single query s :
  search_pages scraper urljoin py_repr query [1] ([], ∅) s
  = match _search_with_fallback scraper urljoin py_repr query 1 s with
    | None => None
    | Some (s1, r) => Some (s1, single_page_result urljoin r)
    end.
Proof.
  simpl.
  destruct (_search_with_fallback _ _ _ query 1 s)
    as [[s1 [[items base]|e]]|]; [|done|done].
  simpl. destruct (negb (truthy items)); [done|].
  destruct (py_iter items) as [l|]; [|done]. cbn [mbind res_bind].
  by destruct (add_hits urljoin base l ([], ∅)).
Qed.

End search.

(** A success is the success of an attempt started in a state that has
    every property the attempts and the manager updates keep. *)
Lemma fallback_loop_success_from {A} (P : BatoService → Prop)
  (attempt : string → BatoService → BatoService * res A)
  generic fuel tried last_error s s' a base :
  (∀ b s0, P s0 → P (attempt b s0).1) →
  (∀ m s0, P s0 → P (set_manager m s0)) →
  P s →
  fallback_loop attempt generic fuel tried last_error s = Some (s', Ok (a, base)) →
  ∃ s0, P s0 ∧ attempt base s0 = (s', Ok a).
Proof.
  intros Ha Hm. revert tried last_error s.
  induction fuel as [|fuel IH]; intros tried last_error s Hs; [done|].
  simpl.
  destruct (current_base_url (_mirror_manager s)) as [cb|]; [|done].
  destruct (bool_decide (cb ∈ tried)).
  { unfold exhausted. intros H. discriminate H. }
  pose proof (Ha cb s Hs) as Hs1.
  destruct (attempt cb s) as [s1 [x|e]] eqn:Ea; simpl in Hs1.
  - intros [= <- <- <-]. by exists s.
  - destruct (is_request_exception e); [|done].
    destruct (next_mirror (_mirror_manager s1)) as [m' [c|]].
    + apply IH. by apply Hm.
    + unfold exhausted. intros H. discriminate H.
Qed.

Section search_manga_facts.
Variable scraper : list request → request → response.
Variable urljoin : string → string → string.
Variable py_repr : json → string.
Variable max_search_pages : Z.

Lemma search_with_fallback_ok_calls query page s s' x :
  _search_with_fallback scraper urljoin py_repr query page s = Some (s', Ok x) →
  (List.length (calls s) < List.length (calls s'))%nat.
Proof.
  unfold _search_with_fallback, with_fallback.
  destruct (current_base_url _); [|done]. destruct x as [items base].
  intros (s0 & Hs0 & Ha)%(fallback_loop_success_from
    (λ s0, (List.length (calls s) ≤ List.length (calls s0))%nat)); [|..|done|done].
  - pose proof (search_attempt_state scraper urljoin py_repr query page base s0) as Hst.
    rewrite Ha in Hst. simpl in Hst. subst s'. simpl.
    rewrite length_app. simpl. lia.
  - intros b s1 Hs1. rewrite search_attempt_state. simpl.
    rewrite length_app. simpl. lia.
Qed.

(** C10. For a query that is not blank (that [str.strip] does not make
    empty: not made of the white space of Unicode only) and a page limit
    [<= 0] (given, or taken from the configuration), [search_manga]
    returns, after exactly one paginated sub-request, for page 1 and for
    the stripped query: the page bound is [max(1, max_pages)]. Its result is what that sub-request answered (an
    empty list when it answered no items), and it has a result only after
    a request was sent to a mirror. *)
Theorem search_manga_nonpositive_limit query max_pages s :
  PyStr.strip query ≠ "" →
  default max_search_pages max_pages ≤ 0 →
  ∃ s' r1,
    _search_with_fallback scraper urljoin py_repr (PyStr.strip query) 1 s
    = Some (s', r1)
    ∧ search_manga scraper urljoin py_repr max_search_pages query max_pages s
      = Some (s', single_page_result urljoin r1)
    ∧ subrequests s' = (subrequests s ++ [(PyStr.strip query, 1)])%list
    ∧ (List.length (calls s) ≤ List.length (calls s'))%nat
    ∧ (∀ hits, single_page_result urljoin r1 = Ok hits →
         (List.length (calls s) < List.length (calls s'))%nat).
Proof.
  intros Hq Hp.
  destruct (search_with_fallback_returns scraper urljoin py_repr
              (PyStr.strip query) 1 s) as [[s' r1] Hs].
  exists s', r1. split; [done|]. split; [|split; [|split]].
  - unfold search_manga.
    destruct (PyStr.strip query) as [|a q] eqn:E; [done|]. simpl negb. cbv iota.
    rewrite range1_one by done.
    by rewrite search_pages_single, Hs.
  - by eapply search_with_fallback_subrequests.
  - by eapply search_with_fallback_calls.
  - intros hits Hr. destruct r1 as [x|e]; [|done].
    by eapply search_with_fallback_ok_calls.
Qed.

End search_manga_facts.

Lemma empty_search_run :
  search_manga (fake_scraper JNull JNull) join (λ _, "") 3 padded_query (Some 0)
    default_service
  = Some (after_empty_search, Ok []).
Proof. by vm_compute. Qed.

Lemma search_manga_nonpositive_limit_witness :
  ∃ s' r1,
    _search_with_fallback (fake_scraper JNull JNull) join (λ _, "")
      (PyStr.strip padded_query) 1 default_service
    = Some (s', r1)
    ∧ search_manga (fake_scraper JNull JNull) join (λ _, "") 3 padded_query
        (Some 0) default_service
      = Some (s', single_page_result join r1)
    ∧ subrequests s'
      = (subrequests default_service ++ [(PyStr.strip padded_query, 1)])%list
    ∧ (List.length (calls default_service) ≤ List.length (calls s'))%nat
    ∧ (∀ hits, single_page_result join r1 = Ok hits →
         (List.length (calls default_service) < List.length (calls s'))%nat).
Proof.
  apply (search_manga_nonpositive_limit (fake_scraper JNull JNull) join
           (λ _, "") 3 padded_query (Some 0) default_service).
  - by vm_compute.
  - simpl. lia.
Defined.

(** * Further properties of the mirror manager *)

(** ** [add_mirror_from_url] *)

Lemma update_search_same config existing :
  base_url existing = base_url config → update_search config existing = config.
Proof. intros H. unfold update_search. rewrite H. by destruct config. Qed.

Section add_more.
Variable netloc_check : string → bool.
Variable unquote_escapes : string → string.

Lemma add_mirror_from_url_cases url m :
  match parse_search_url netloc_check unquote_escapes url with
  | None =>
      add_mirror_from_url netloc_check unquote_escapes url m
      = (m, (false,
             "Invalid URL format. Please paste a search URL from your browser."))
  | Some config =>
      match list_find (λ existing, base_url existing = base_url config)
                      (_mirrors m) with
      | Some (i, existing) =>
          ∃ msg,
            add_mirror_from_url netloc_check unquote_escapes url m
            = (_save_config (set_mirrors (<[i := config]> (_mirrors m)) m),
               (true, msg))
      | None =>
          ∃ msg,
            add_mirror_from_url netloc_check unquote_escapes url m
            = (_save_config (set_mirrors (_mirrors m ++ [config]) m),
               (true, msg))
      end
  end.
Proof.
  unfold add_mirror_from_url.
  destruct (parse_search_url _ _ url) as [config|]; [|done].
  destruct (list_find _ _) as [[i existing]|] eqn:Ef; [|by eexists].
  apply list_find_Some in Ef as (_ & Hb & _).
  rewrite update_search_same by done. by eexists.
Qed.

(** X1. [add_mirror_from_url] rejects a URL that does not parse and leaves
    the manager as it is. Otherwise it succeeds and keeps [_current_index];
    when a record with the parsed origin exists, the first such record is
    replaced by the parsed one and the list keeps its length and its
    origins; when none exists, the parsed record is appended. *)
Theorem add_mirror_from_url_outcome url m :
  match parse_search_url netloc_check unquote_escapes url with
  | None =>
      add_mirror_from_url netloc_check unquote_escapes url m
      = (m, (false,
             "Invalid URL format. Please paste a search URL from your browser."))
  | Some config =>
      let '(m', (ok, _)) :=
        add_mirror_from_url netloc_check unquote_escapes url m in
      ok = true
      ∧ _current_index m' = _current_index m
      ∧ ((base_url config ∈ urls m
          ∧ urls m' = urls m
          ∧ ∃ i, urls m !! i = Some (base_url config)
                 ∧ (∀ j, (j < i)%nat → urls m !! j ≠ Some (base_url config))
                 ∧ _mirrors m' = <[i := config]> (_mirrors m))
         ∨ (¬ (base_url config ∈ urls m)
            ∧ _mirrors m' = ((_mirrors m) ++ [config])%list))
  end.
Proof.
  pose proof (add_mirror_from_url_cases url m) as H.
  destruct (parse_search_url _ _ url) as [config|]; [|done].
  destruct (list_find _ _) as [[i existing]|] eqn:Ef.
  - destruct H as [msg ->]. unfold urls.
    rewrite save_index, !save_mirrors. simpl.
    apply list_find_Some in Ef as (Hl & Hb & Hfirst).
    split; [done|]. split; [done|]. left.
    assert (Hu : (base_url <$> _mirrors m) !! i = Some (base_url config))
      by (by rewrite list_lookup_fmap, Hl; simpl; rewrite Hb).
    split; [by eapply list_elem_of_lookup_2|].
    split; [by rewrite list_fmap_insert, list_insert_id|].
    exists i. split; [done|]. split; [|done].
    intros j Hj. rewrite list_lookup_fmap.
    destruct (_mirrors m !! j) as [c|] eqn:Ec; [|done]. simpl.
    intros [= Hc]. by apply (Hfirst j c).
  - destruct H as [msg ->]. unfold urls.
    rewrite save_index, !save_mirrors. simpl.
    apply list_find_None in Ef.
    split; [done|]. split; [done|]. right. split; [|done].
    intros (c & Hc & Hin)%list_elem_of_fmap.
    rewrite Forall_forall in Ef. by apply (Ef c).
Qed.


Lemma save_set_mirrors_twice L m :
  _save_config (set_mirrors L (_save_config (set_mirrors L m)))
  = _save_config (set_mirrors L m).
Proof. by destruct m as [l i f [|]]. Qed.

Lemma list_find_insert_same (l : list MirrorConfig) i config existing :
  list_find (λ e, base_url e = base_url config) l = Some (i, existing) →
  list_find (λ e, base_url e = base_url config) (<[i := config]> l)
  = Some (i, config).
Proof.
  intros (Hl & Hb & Hfirst)%list_find_Some. apply list_find_Some.
  split; [apply list_lookup_insert_eq; by eapply lookup_lt_Some|].
  split; [done|]. intros j y Hj Hlt.
  rewrite list_lookup_insert_ne in Hj by lia. by eapply Hfirst.
Qed.

Lemma list_find_app_new (l : list MirrorConfig) config :
  list_find (λ e, base_url e = base_url config) l = None →
  list_find (λ e, base_url e = base_url config) (l ++ [config])%list
  = Some (List.length l, config).
Proof.
  intros Hn. rewrite list_find_app_r by done. simpl.
  rewrite decide_True by done. simpl. done.
Qed.

(** X2. Adding the same URL a second time changes nothing: the manager
    after two calls of [add_mirror_from_url] with one URL is the manager
    after the first call (records, index and file). *)
Theorem add_mirror_from_url_twice url m :
  (add_mirror_from_url netloc_check unquote_escapes url
     (add_mirror_from_url netloc_check unquote_escapes url m).1).1
  = (add_mirror_from_url netloc_check unquote_escapes url m).1.
Proof.
  pose proof (add_mirror_from_url_cases url m) as H.
  pose proof (add_mirror_from_url_cases url
                (add_mirror_from_url netloc_check unquote_escapes url m).1) as H1.
  destruct (parse_search_url _ _ url) as [config|] eqn:Ep.
  - destruct (list_find _ (_mirrors m)) as [[i existing]|] eqn:Ef.
    + destruct H as [msg H]. rewrite H in *. cbn [fst] in *.
      rewrite save_mirrors in H1. cbn [_mirrors set_mirrors] in H1.
      rewrite (list_find_insert_same _ _ _ _ Ef) in H1.
      destruct H1 as [msg1 ->]. cbn [fst].
      rewrite list_insert_insert_eq. apply save_set_mirrors_twice.
    + destruct H as [msg H]. rewrite H in *. cbn [fst] in *.
      rewrite save_mirrors in H1. cbn [_mirrors set_mirrors] in H1.
      rewrite (list_find_app_new _ _ Ef) in H1.
      destruct H1 as [msg1 ->]. cbn [fst].
      rewrite list_insert_id
        by (by rewrite lookup_app_r, Nat.sub_diag by lia).
      apply save_set_mirrors_twice.
  - rewrite H in *. cbn [fst] in *. by rewrite H1.
Qed.

End add_more.

(** ** [move_mirror] *)

Lemma insert_at_lookup {A} (l : list A) (t : nat) x :
  (t ≤ List.length l)%nat →
  (take t l ++ x :: drop t l)%list !! t = Some x.
Proof.
  intros Ht. apply list_lookup_middle. rewrite length_take. lia.
Qed.

Lemma delete_insert_at {A} (l : list A) (t : nat) x :
  (t ≤ List.length l)%nat → delete t (take t l ++ x :: drop t l)%list = l.
Proof.
  intros Ht.
  replace t with (List.length (take t l)) at 1 by (rewrite length_take; lia).
  by rewrite delete_middle, take_drop.
Qed.

(** X3. [move_mirror] answers [True] exactly when both positions are in
    range, and never touches [_current_index]. A rejected call and a move
    of a record onto its own position leave the manager as it is. After an
    accepted call the record that was at [from_index] is at [to_index],
    and the other records keep their relative order: taking the moved
    record out of the new list gives the old list without it. *)
Theorem move_mirror_outcome from_index to_index m :
  let '(m', moved) := move_mirror from_index to_index m in
  _current_index m' = _current_index m
  ∧ (moved = true ↔ 0 ≤ from_index < len m ∧ 0 ≤ to_index < len m)
  ∧ (moved = false → m' = m)
  ∧ (from_index = to_index → m' = m)
  ∧ (moved = true →
       _mirrors m' !! Z.to_nat to_index = _mirrors m !! Z.to_nat from_index
       ∧ pop to_index (_mirrors m') = pop from_index (_mirrors m)
       ∧ len m' = len m).
Proof.
  unfold move_mirror.
  destruct (Z.leb_spec 0 from_index), (Z.ltb_spec from_index (len m));
    cbn [andb negb];
    try (split; [done|]; split; [split; [done|lia]|]; by repeat split).
  destruct (Z.leb_spec 0 to_index), (Z.ltb_spec to_index (len m));
    cbn [andb negb];
    try (split; [done|]; split; [split; [done|lia]|]; by repeat split).
  destruct (Z.eqb_spec from_index to_index) as [->|Hne].
  { split; [done|]. split; [done|]. by repeat split. }
  destruct (_mirrors m !! Z.to_nat from_index) as [mirror|] eqn:El.
  - rewrite save_index. unfold len. rewrite !save_mirrors.
    cbn [_mirrors _current_index set_mirrors].
    pose proof (length_delete (_mirrors m) (Z.to_nat from_index)
                  (mk_is_Some _ _ El)) as Hlen.
    assert (Hd : (Z.to_nat to_index
                  ≤ List.length (delete (Z.to_nat from_index) (_mirrors m)))%nat)
      by (unfold len in *; lia).
    split; [done|]. split; [done|]. split; [done|]. split; [done|].
    intros _. unfold insert_at, pop.
    split; [by apply insert_at_lookup|].
    split; [by apply delete_insert_at|].
    rewrite length_app, length_take. simpl. rewrite length_drop.
    unfold len in *. lia.
  - apply lookup_ge_None in El. unfold len in *. lia.
Qed.

Lemma move_mirror_accepted from_index to_index m mirror :
  0 ≤ from_index < len m → 0 ≤ to_index < len m → from_index ≠ to_index →
  _mirrors m !! Z.to_nat from_index = Some mirror →
  move_mirror from_index to_index m
  = (_save_config
       (set_mirrors (insert_at to_index mirror (pop from_index (_mirrors m))) m),
     true).
Proof.
  intros Hf Ht Hne El. unfold move_mirror.
  replace ((0 <=? from_index) && (from_index <? len m)) with true
    by (symmetry; apply andb_true_iff; split; [apply Z.leb_le|apply Z.ltb_lt]; lia).
  replace ((0 <=? to_index) && (to_index <? len m)) with true
    by (symmetry; apply andb_true_iff; split; [apply Z.leb_le|apply Z.ltb_lt]; lia).
  replace (from_index =? to_index) with false by (symmetry; by apply Z.eqb_neq).
  by rewrite El.
Qed.

(** *** The move buttons of the settings tab *)

Lemma swap_by_move_up {A} (l1 l2 : list A) a b :
  insert_at (Z.of_nat (List.length l1)) b
    (pop (Z.of_nat (List.length l1) + 1) (l1 ++ a :: b :: l2)%list)
  = (l1 ++ b :: a :: l2)%list.
Proof.
  unfold insert_at, pop. rewrite Nat2Z.id.
  replace (Z.to_nat (Z.of_nat (List.length l1) + 1)) with (S (List.length l1))
    by lia.
  induction l1 as [|x l1 IH]; [done|]. simpl in *. by f_equal.
Qed.

Lemma swap_by_move_down {A} (l1 l2 : list A) a b :
  insert_at (Z.of_nat (List.length l1) + 1) a
    (pop (Z.of_nat (List.length l1)) (l1 ++ a :: b :: l2)%list)
  = (l1 ++ b :: a :: l2)%list.
Proof.
  unfold insert_at, pop. rewrite Nat2Z.id.
  replace (Z.to_nat (Z.of_nat (List.length l1) + 1)) with (S (List.length l1))
    by lia.
  induction l1 as [|x l1 IH]; [done|]. simpl in *. by f_equal.
Qed.

Lemma lookup_neighbour {A} (l1 l2 : list A) a b :
  (l1 ++ a :: b :: l2)%list !! S (List.length l1) = Some b.
Proof. by induction l1. Qed.

Lemma len_neighbours m (l1 l2 : list MirrorConfig) a b :
  _mirrors m = (l1 ++ a :: b :: l2)%list →
  len m = Z.of_nat (List.length l1) + 2 + Z.of_nat (List.length l2).
Proof. intros H. unfold len. rewrite H, length_app. simpl. lia. Qed.

Lemma move_up_swap m l1 a b l2 :
  _mirrors m = (l1 ++ a :: b :: l2)%list →
  _move_bato_mirror_up (Z.of_nat (List.length l1) + 1) m
  = (_save_config (set_mirrors (l1 ++ b :: a :: l2)%list m),
     Z.of_nat (List.length l1)).
Proof.
  intros H. pose proof (len_neighbours _ _ _ _ _ H) as Hlen.
  unfold _move_bato_mirror_up.
  replace (Z.of_nat (List.length l1) + 1 =? 0) with false
    by (symmetry; apply Z.eqb_neq; lia).
  rewrite (move_mirror_accepted _ _ _ b) by
    (try lia; rewrite H;
     replace (Z.to_nat (Z.of_nat (List.length l1) + 1))
       with (S (List.length l1)) by lia;
     apply lookup_neighbour).
  rewrite H. replace (Z.of_nat (List.length l1) + 1 - 1)
    with (Z.of_nat (List.length l1)) by lia.
  by rewrite swap_by_move_up.
Qed.

Lemma move_down_swap m l1 a b l2 :
  _mirrors m = (l1 ++ a :: b :: l2)%list →
  _move_bato_mirror_down (Z.of_nat (List.length l1)) m
  = (_save_config (set_mirrors (l1 ++ b :: a :: l2)%list m),
     Z.of_nat (List.length l1) + 1).
Proof.
  intros H. pose proof (len_neighbours _ _ _ _ _ H) as Hlen.
  unfold _move_bato_mirror_down.
  replace (len m - 1 <=? Z.of_nat (List.length l1)) with false
    by (symmetry; apply Z.leb_gt; lia).
  rewrite (move_mirror_accepted _ _ _ a) by
    (try lia; rewrite H, Nat2Z.id; by apply list_lookup_middle).
  rewrite H. by rewrite swap_by_move_down.
Qed.

(** X4. The buttons Move Up and Move Down of the settings tab swap the
    selected record with its neighbour above or below, in the manager and
    in the file it saves, and the selection follows the record that was
    selected; [_current_index] stays as it is. *)
Theorem move_buttons_swap_neighbours m l1 a b l2 :
  _mirrors m = (l1 ++ a :: b :: l2)%list →
  let i := Z.of_nat (List.length l1) in
  let up := _move_bato_mirror_up (i + 1) m in
  let down := _move_bato_mirror_down i m in
  _mirrors up.1 = (l1 ++ b :: a :: l2)%list
  ∧ up.2 = i
  ∧ _mirrors down.1 = (l1 ++ b :: a :: l2)%list
  ∧ down.2 = i + 1
  ∧ _current_index up.1 = _current_index m
  ∧ _current_index down.1 = _current_index m
  ∧ (writable m = true →
       _config_file up.1 = Some (Decoded (payload up.1))
       ∧ _config_file down.1 = Some (Decoded (payload down.1))).
Proof.
  intros H. cbv zeta.
  rewrite (move_up_swap _ _ _ _ _ H), (move_down_swap _ _ _ _ _ H).
  cbn [fst snd]. rewrite save_mirrors, save_index.
  split; [done|]. split; [done|]. split; [done|]. split; [done|].
  split; [done|]. split; [done|]. intros Hw.
  unfold _save_config. cbn [writable set_mirrors]. by rewrite Hw.
Qed.

Lemma move_buttons_swap_neighbours_witness :
  let up := _move_bato_mirror_up 1 (store_ABC 0) in
  _mirrors up.1 = [mirror_B; mirror_A; mirror_C] ∧ up.2 = 0.
Proof.
  pose proof (move_buttons_swap_neighbours (store_ABC 0) [] mirror_A mirror_B
                [mirror_C] eq_refl) as H.
  cbv zeta in *. by destruct H as (H1 & H2 & _).
Defined.

Lemma neighbours_at {A} (l : list A) (i : nat) :
  (0 < i < List.length l)%nat →
  ∃ l1 a b l2, l = (l1 ++ a :: b :: l2)%list ∧ S (List.length l1) = i.
Proof.
  intros Hi. destruct i as [|i]; [lia|].
  destruct (lookup_lt_is_Some_2 l i) as [a Ha]; [lia|].
  destruct (lookup_lt_is_Some_2 l (S i)) as [b Hb]; [lia|].
  exists (take i l), a, b, (drop (S (S i)) l). split.
  - rewrite <- (take_drop_middle l i a Ha) at 1. do 2 f_equal.
    by apply drop_S.
  - rewrite length_take. lia.
Qed.

(** X5. Move Up followed by Move Down on the line that is then selected
    gives back the list of records, in its order, and the selection. *)
Theorem move_up_then_down_restores index m :
  0 < index < len m →
  let up := _move_bato_mirror_up index m in
  let down := _move_bato_mirror_down up.2 up.1 in
  _mirrors down.1 = _mirrors m
  ∧ down.2 = index
  ∧ _current_index down.1 = _current_index m.
Proof.
  intros Hi. cbv zeta.
  destruct (neighbours_at (_mirrors m) (Z.to_nat index))
    as (l1 & a & b & l2 & Hl & Hlen); [unfold len in Hi; lia|].
  replace index with (Z.of_nat (List.length l1) + 1) by lia.
  rewrite (move_up_swap _ _ _ _ _ Hl). cbn [fst snd].
  rewrite (move_down_swap _ l1 b a l2) by (by rewrite save_mirrors).
  cbn [fst snd].
  repeat (rewrite ?save_mirrors, ?save_index;
          progress cbn [_mirrors _current_index set_mirrors]).
  by rewrite Hl.
Qed.

Lemma move_up_then_down_restores_witness :
  let up := _move_bato_mirror_up 2 (store_ABC 1) in
  let down := _move_bato_mirror_down up.2 up.1 in
  _mirrors down.1 = [mirror_A; mirror_B; mirror_C] ∧ down.2 = 2
  ∧ _current_index down.1 = 1.
Proof.
  apply (move_up_then_down_restores 2 (store_ABC 1)). vm_compute. done.
Defined.

(** ** The current mirror under [move_mirror] and [remove_mirror] *)

Lemma py_index_valid {A} (l : list A) (i : Z) :
  0 ≤ i < Z.of_nat (List.length l) →
  ∃ x, l !! Z.to_nat i = Some x ∧ py_index l i = Ok x.
Proof.
  intros Hi. unfold py_index.
  replace (i <? 0) with false by (symmetry; apply Z.ltb_ge; lia).
  replace ((0 <=? i) && (i <? Z.of_nat (List.length l))) with true
    by (symmetry; apply andb_true_iff; split; [apply Z.leb_le|apply Z.ltb_lt]; lia).
  destruct (lookup_lt_is_Some_2 l (Z.to_nat i)) as [x Hx]; [lia|].
  exists x. by rewrite Hx.
Qed.

Lemma current_mirror_valid m :
  0 ≤ _current_index m < len m →
  ∃ c, _mirrors m !! Z.to_nat (_current_index m) = Some c
       ∧ current_mirror m = Ok c.
Proof.
  intros Hi. unfold current_mirror.
  destruct (py_index_valid (_mirrors m) (_current_index m) Hi) as (c & Hc & Hp).
  exists c. split; [done|]. destruct (_mirrors m); [done|]. done.
Qed.

Lemma insert_at_pop_lookup {A} (l : list A) (f t j : nat) x :
  l !! f = Some x → (t < List.length l)%nat →
  (take t (delete f l) ++ x :: drop t (delete f l))%list !! j
  = l !! moved_from f t j.
Proof.
  intros Hf Ht. unfold moved_from.
  pose proof (length_delete l f (mk_is_Some _ _ Hf)) as Hlen.
  destruct (decide (j = t)) as [->|Hjt].
  { rewrite insert_at_lookup by lia. done. }
  assert (Htake : List.length (take t (delete f l)) = t)
    by (rewrite length_take; lia).
  destruct (decide (j < t)%nat) as [Hlt|Hge].
  - rewrite lookup_app_l by lia. rewrite lookup_take_lt by done.
    rewrite list_lookup_delete. by destruct (decide (j < f)%nat).
  - rewrite lookup_app_r by lia. rewrite Htake.
    destruct (j - t)%nat as [|k] eqn:Ek; [lia|]. simpl.
    rewrite lookup_drop, list_lookup_delete.
    destruct (decide (t + k < f)%nat), (decide (j ≤ f)%nat);
      try lia; f_equal; lia.
Qed.





(** ** What the operations leave on disk *)

Section persistence.
Variable netloc_check : string → bool.
Variable unquote_escapes : string → string.
Variable py_repr : json → string.
Variable dict_of_other : json → res (gmap string json).

(** An operation leaves the manager as it is, or ends with a call of
    [_save_config]. *)
Lemma run_saves op m :
  run netloc_check unquote_escapes op m = m
  ∨ ∃ m0, run netloc_check unquote_escapes op m = _save_config m0
          ∧ writable m0 = writable m
          ∧ _config_file m0 = _config_file m.
Proof.
  destruct op as [url|index|f t| | |]; simpl.
  - unfold add_mirror_from_url.
    destruct (parse_search_url _ _ url) as [config|]; [|by left].
    destruct (list_find _ _) as [[i existing]|]; right; by eexists.
  - unfold remove_mirror.
    destruct (negb _); [by left|]. destruct (len m <=? 1); [by left|].
    right. cbn [fst]. destruct (_ <=? _); [by eexists|].
    destruct (_ <? _); by eexists.
  - unfold move_mirror.
    destruct (negb _); [by left|]. destruct (negb _); [by left|].
    destruct (f =? t); [by left|].
    destruct (_ !! _); [|by left]. right. by eexists.
  - unfold next_mirror. destruct (len m <=? 1); [by left|].
    destruct (_ =? 0); [by left|]. right. by eexists.
  - unfold reset_to_primary. destruct (negb _); [|by left]. right. by eexists.
  - right. by eexists.
Qed.

Lemma init_saved_state m0 :
  saveable m0 → writable m0 = true →
  init py_repr dict_of_other (_config_file (_save_config m0)) true
  = Ok (Manager (_save_config m0)).
Proof.
  intros Hs Hw. rewrite (init_saved py_repr dict_of_other m0 true Hs Hw).
  unfold _save_config. rewrite Hw.
  destruct m0 as [l i f w]. simpl in *. by subst w.
Qed.

Lemma saveable_unsave m0 : saveable (_save_config m0) → saveable m0.
Proof. unfold saveable. by rewrite save_mirrors, save_index, save_len. Qed.

Lemma payload_save m0 : payload (_save_config m0) = payload m0.
Proof. unfold payload. by rewrite save_mirrors, save_index. Qed.


End persistence.


(** ** [current_mirror] and the index a file can hold *)

(** X9. [current_mirror] on an empty list answers the first default
    record. Otherwise it answers a record of the list exactly when
    [-len <= _current_index < len], the record at [_current_index] counted
    from the end when it is negative, and raises [IndexError] for every
    other index. *)
Theorem current_mirror_outcome m :
  match current_mirror m with
  | Ok c =>
      (_mirrors m = [] ∧ head DEFAULT_MIRRORS = Some c)
      ∨ (- len m ≤ _current_index m < len m
         ∧ _mirrors m !! Z.to_nat (_current_index m `mod` len m) = Some c)
  | Raise e =>
      e = IndexError ∧ _mirrors m ≠ []
      ∧ ¬ (- len m ≤ _current_index m < len m)
  end.
Proof.
  unfold current_mirror. destruct (_mirrors m) as [|c0 l] eqn:El.
  { left. by vm_compute. }
  rewrite <- El. unfold py_index.
  assert (Hlen : 0 < len m) by (unfold len; rewrite El; simpl; lia).
  fold (len m).
  destruct (Z.ltb_spec (_current_index m) 0) as [Hneg|Hpos].
  - destruct (Z.leb_spec 0 (_current_index m + len m)) as [H1|H1];
      destruct (Z.ltb_spec (_current_index m + len m) (len m)) as [H2|H2];
      cbn [andb]; try (split; [done|]; split; [by rewrite El|lia]).
    replace (_current_index m `mod` len m) with (_current_index m + len m)
      by (apply Z.mod_unique with (-1); lia).
    destruct (_mirrors m !! _) as [c|] eqn:Ec.
    + right. split; [lia|done].
    + apply lookup_ge_None in Ec. unfold len in *. lia.
  - destruct (Z.leb_spec 0 (_current_index m)) as [H1|H1]; [|lia].
    destruct (Z.ltb_spec (_current_index m) (len m)) as [H2|H2];
      cbn [andb]; try (split; [done|]; split; [by rewrite El|lia]).
    rewrite Z.mod_small by lia.
    destruct (_mirrors m !! _) as [c|] eqn:Ec.
    + right. split; [lia|done].
    + apply lookup_ge_None in Ec. unfold len in *. lia.
Qed.

Section negative_index.
Variable py_repr : json → string.
Variable dict_of_other : json → res (gmap string json).

(** X10. The load bounds the persisted index from above only. A file
    written by [_save_config] whose [current_index] was then set to a
    negative [i] loads with that index: the current mirror is the record
    counted from the end when [-len <= i], and for [i < -len] reading it
    raises [IndexError], so that every fallback-wrapped request raises
    [IndexError] before any attempt is made and leaves the service as it
    is. *)
Theorem negative_persisted_index l i w :
  origins l → i < 0 →
  ∃ m, init py_repr dict_of_other (Some (Decoded (persisted l i))) w
       = Ok (Manager m)
       ∧ _mirrors m = l
       ∧ _current_index m = i
       ∧ (- Z.of_nat (List.length l) ≤ i →
            ∃ c, l !! Z.to_nat (Z.of_nat (List.length l) + i) = Some c
                 ∧ current_mirror m = Ok c)
       ∧ (i < - Z.of_nat (List.length l) →
            current_mirror m = Raise IndexError
            ∧ ∀ A (attempt : string → BatoService → BatoService * res A)
                generic s,
                _mirror_manager s = m →
                with_fallback attempt generic s = Some (s, Raise IndexError)).
Proof.
  intros Ho Hi. eexists. unfold init. rewrite load_persisted by done.
  cbn [mbind res_bind]. rewrite Z.min_l by (destruct Ho as [? _]; lia).
  split; [reflexivity|]. split; [done|]. split; [done|].
  destruct Ho as [Hne _].
  assert (Hcm : ∀ m, _mirrors m = l → _current_index m = i →
            current_mirror m = py_index l i).
  { intros m <- <-. unfold current_mirror. by destruct (_mirrors m). }
  split.
  - intros Hlow. rewrite Hcm by reflexivity. unfold py_index.
    replace (i <? 0) with true by (symmetry; apply Z.ltb_lt; lia).
    replace ((0 <=? i + Z.of_nat (List.length l))
             && (i + Z.of_nat (List.length l) <? Z.of_nat (List.length l)))
      with true
      by (symmetry; apply andb_true_iff; split;
          [apply Z.leb_le|apply Z.ltb_lt]; lia).
    replace (Z.of_nat (List.length l) + i) with (i + Z.of_nat (List.length l))
      by lia.
    destruct (lookup_lt_is_Some_2 l (Z.to_nat (i + Z.of_nat (List.length l))))
      as [c Hc]; [lia|].
    exists c. by rewrite Hc.
  - intros Hlow.
    assert (Hr : py_index l i = Raise IndexError).
    { unfold py_index.
      replace (i <? 0) with true by (symmetry; apply Z.ltb_lt; lia).
      replace (0 <=? i + Z.of_nat (List.length l)) with false
        by (symmetry; apply Z.leb_gt; lia).
      done. }
    split; [by rewrite Hcm by reflexivity|].
    intros A attempt generic s Hs. unfold with_fallback, current_base_url.
    rewrite Hs, Hcm, Hr by reflexivity. done.
Qed.

(** X11. The constructor lets exceptions of the load escape, since
    [_load_config] only catches [JSONDecodeError] and [OSError]: the
    exception of a file that is not UTF-8 ([UnicodeDecodeError]) or that
    [json.loads] rejects otherwise; [AttributeError] for a file whose JSON
    document is not an object; and [TypeError] for a [current_index] that
    is not a number (here for a file without [mirrors]). Something is
    constructed from a decoded file only when the document is an object
    whose [current_index] is absent or a number: an integer, a boolean or
    a float. A float that is not greater than the last position is kept
    as the index, and [current_mirror] then raises [TypeError]; a float
    above it is replaced by the last position. *)
Theorem init_raises_on_malformed_file w :
  (∀ e, init py_repr dict_of_other (Some (Rejected e)) w = Raise e)
  ∧ (∀ data, (∀ o, data ≠ JObj o) →
       init py_repr dict_of_other (Some (Decoded data)) w
       = Raise AttributeError)
  ∧ (∀ o, o !! "mirrors" = None →
       is_number (default (JInt 0) (o !! "current_index")) = false →
       init py_repr dict_of_other (Some (Decoded (JObj o))) w
       = Raise TypeError)
  ∧ (∀ data c, init py_repr dict_of_other (Some (Decoded data)) w = Ok c →
       ∃ o, data = JObj o
            ∧ is_number (default (JInt 0) (o !! "current_index")) = true)
  ∧ (∀ o f, o !! "mirrors" = None →
       o !! "current_index" = Some (JFloat f) →
       if lt_int_float 2 f
       then init py_repr dict_of_other (Some (Decoded (JObj o))) w
            = Ok (Manager {| _mirrors := DEFAULT_MIRRORS; _current_index := 2;
                             _config_file := Some (Decoded (JObj o));
                             writable := w |})
       else init py_repr dict_of_other (Some (Decoded (JObj o))) w
            = Ok (FloatIndexed DEFAULT_MIRRORS f)
            ∧ constructed_current_mirror (FloatIndexed DEFAULT_MIRRORS f)
              = Raise TypeError).
Proof.
  split; [|split; [|split; [|split]]].
  - done.
  - intros data Hno. destruct data as [| | | | | |o]; try done.
    by destruct (Hno o).
  - intros o Hm Hi. unfold init, _load_config, py_get. rewrite Hm.
    cbn [default mbind res_bind].
    by destruct (default (JInt 0) (o !! "current_index")).
  - intros data c. destruct data as [| | | | | |o]; try done.
    intros H. exists o. split; [done|].
    unfold init, _load_config, py_get in H.
    cbn [mbind res_bind] in H.
    destruct (default (JInt 0) (o !! "current_index")); try done;
      cbn [py_min mbind res_bind] in H;
      match type of H with
      | mbind _ (mbind _ ?x) = _ => by destruct x
      end.
  - intros o f Hm Hi. unfold init, _load_config, py_get.
    rewrite Hm, Hi. cbn [default id mbind res_bind py_min].
    change (match DEFAULT_MIRRORS with
            | [] => 0
            | _ => Z.of_nat (List.length DEFAULT_MIRRORS) - 1
            end) with 2.
    by destruct (lt_int_float 2 f).
Qed.

(** *** Entries of the persisted list *)

Lemma load_entry_skipped v :
  is_entry v = false → load_entry py_repr dict_of_other v = Ok None.
Proof.
  destruct v as [| | | | | |o]; try done. simpl.
  destruct (o !! "base_url") as [b|]; [|done].
  intros H. apply bool_decide_eq_false in H. by destruct H.
Qed.

Lemma load_entries_filter ms :
  load_entries py_repr dict_of_other ms
  = load_entries py_repr dict_of_other (filter (λ v, is_entry v = true) ms).
Proof.
  induction ms as [|v ms IH]; [done|].
  destruct (is_entry v) eqn:E.
  - rewrite filter_cons_True by done. rewrite !load_entries_cons. by rewrite IH.
  - rewrite filter_cons_False by (by rewrite E). rewrite load_entries_cons.
    rewrite (load_entry_skipped _ E). cbn [mbind res_bind]. rewrite IH.
    destruct (load_entries _ _ (filter _ ms)); reflexivity.
Qed.

(** X12. The load skips the entries of [mirrors] that are neither a dict
    with a [base_url] key nor a string (numbers, booleans, null, lists,
    dicts without [base_url]): the file loads as the file without them
    does, defaults included when no entry is left. *)
Theorem load_skips_unknown_entries o ms :
  _load_config py_repr dict_of_other
    (Some (Decoded (JObj (<["mirrors" := JArr ms]> o))))
  = _load_config py_repr dict_of_other
      (Some (Decoded
               (JObj (<["mirrors" := JArr (filter (λ v, is_entry v = true) ms)]> o)))).
Proof.
  unfold _load_config, py_get.
  rewrite !lookup_insert_eq, !lookup_insert_ne by done.
  destruct ms as [|v ms]; [done|].
  cbn [default id mbind res_bind].
  rewrite (load_entries_filter (v :: ms)).
  by destruct (filter _ (v :: ms)).
Qed.

Lemma load_entries_legacy (urls : list string) :
  load_entries py_repr dict_of_other (JStr <$> urls)
  = Ok (legacy_record <$> urls).
Proof.
  induction urls as [|u urls IH]; [done|].
  rewrite fmap_cons, load_entries_cons, IH. done.
Qed.

(** X13. A file in the legacy format, whose [mirrors] is a list of URL
    strings, loads as one record per string, in order: the string without
    its trailing slashes as [base_url], with the search path
    ["/v4x-search"] and the parameter [type=comic]. *)
Theorem load_legacy_format o (urls : list string) :
  urls ≠ [] →
  _load_config py_repr dict_of_other
    (Some (Decoded (JObj (<["mirrors" := JArr (JStr <$> urls)]> o))))
  = (i ← py_min (default (JInt 0) (o !! "current_index"))
               (Z.of_nat (List.length urls) - 1);
     Ok (legacy_record <$> urls, i)).
Proof.
  intros Hne. unfold _load_config, py_get.
  rewrite lookup_insert_eq, lookup_insert_ne by done.
  destruct urls as [|u urls]; [done|].
  rewrite fmap_cons. cbn [default id mbind res_bind].
  rewrite <- (fmap_cons JStr), load_entries_legacy.
  cbn [mbind res_bind fmap list_fmap List.length]. by rewrite length_fmap.
Qed.

End negative_index.

Lemma negative_persisted_index_witness :
  ∃ m, init (λ _, "") (λ _, Raise TypeError)
         (Some (Decoded (persisted [mirror_A; mirror_B; mirror_C] (-4)))) true
       = Ok (Manager m)
       ∧ current_mirror m = Raise IndexError.
Proof.
  destruct (negative_persisted_index (λ _, "") (λ _, Raise TypeError)
              [mirror_A; mirror_B; mirror_C] (-4) true)
    as (m & Hm & _ & _ & _ & Hlow).
  - apply store_ABC_origins.
  - lia.
  - exists m. split; [done|]. apply Hlow. simpl. lia.
Defined.

Lemma load_legacy_format_witness :
  _load_config (λ _, "") (λ _, Raise TypeError)
    (Some (Decoded (JObj (<["mirrors" := JArr (JStr <$> ["https://bato.to/"])]> ∅))))
  = Ok ([legacy_record "https://bato.to/"], Int 0).
Proof.
  by rewrite (load_legacy_format (λ _, "") (λ _, Raise TypeError) ∅
                ["https://bato.to/"]).
Defined.

(** ** The list box of the settings tab *)

(** X14. The list box of the settings tab shows one line per record, in
    order. The line of a record is a two-character prefix, the [base_url]
    and the [search_path] in brackets; it starts with ["* "] exactly when
    the record is at [_current_index], so that at most one line is marked,
    and none when the index is out of range. *)
Theorem mirror_lines_marker m :
  List.length (mirror_lines m) = List.length (_mirrors m)
  ∧ ∀ i line,
      mirror_lines m !! i = Some line →
      ∃ c, _mirrors m !! i = Some c
           ∧ line = (if Z.of_nat i =? _current_index m then "* " else "  ")
                    +:+ base_url c +:+ " [" +:+ search_path c +:+ "]"
           ∧ (PyStr.startswith "* " line = true
              ↔ Z.of_nat i = _current_index m).
Proof.
  unfold mirror_lines. split; [by rewrite length_fmap, length_seq|].
  intros i line. rewrite list_lookup_fmap.
  destruct (seq 0 (List.length (_mirrors m)) !! i) as [j|] eqn:Ej; [|done].
  apply lookup_seq in Ej as [-> Hlt]. simpl. intros [= <-].
  unfold format_mirror_display.
  replace ((0 <=? Z.of_nat i) && (Z.of_nat i <? len m)) with true
    by (symmetry; apply andb_true_iff; split;
        [apply Z.leb_le|apply Z.ltb_lt]; unfold len; lia).
  rewrite Nat2Z.id. cbn [negb].
  destruct (lookup_lt_is_Some_2 (_mirrors m) i Hlt) as [c Hc].
  rewrite Hc. exists c. split; [done|]. split; [done|].
  destruct (Z.eqb_spec (Z.of_nat i) (_current_index m)) as [E|E].
  - split; [done|]. intros _. unfold PyStr.startswith. simpl.
    by destruct (base_url c +:+ _).
  - split; [|done]. intros H. unfold PyStr.startswith in H. simpl in H.
    discriminate H.
Qed.

(** * Further properties of the service *)

(** ** [search_manga] *)

Lemma lstrip_by_all {A} (p : A → bool) l :
  Forall (λ a, p a = true) l → PyStr.lstrip_by p l = [].
Proof. induction 1 as [|a l Ha _ IH]; [done|]. simpl. by rewrite Ha. Qed.

Lemma rev_reverse {A} (l : list A) : rev l = reverse l.
Proof. unfold reverse. apply rev_alt. Qed.

Lemma lstrip_by_suffix {A} (p : A → bool) l :
  ∃ a, l = (a ++ PyStr.lstrip_by p l)%list ∧ Forall (λ c, p c = true) a.
Proof.
  induction l as [|c l (a & IH & Ha)]; [by exists []|]. simpl.
  destruct (p c) eqn:E; [|by exists []].
  exists (c :: a). split; [by rewrite IH at 1|by constructor].
Qed.

Lemma forallb_Forall {A} (p : A → bool) l :
  forallb p l = true ↔ Forall (λ a, p a = true) l.
Proof.
  induction l as [|a l IH]; simpl.
  - split; [constructor|done].
  - rewrite andb_true_iff, IH. split.
    + intros [? ?]. by constructor.
    + intros [? ?]%Forall_cons. done.
Qed.

(** *** The characters of a string *)

Lemma characters_cons a l :
  PyStr.characters (a :: l)
  = match PyStr.characters l with
    | (b :: c) :: cs =>
        if PyStr.is_continuation b then (a :: b :: c) :: cs
        else [a] :: (b :: c) :: cs
    | cs => [a] :: cs
    end.
Proof. reflexivity. Qed.

Lemma characters_nonempty l : Forall (λ c, c ≠ []) (PyStr.characters l).
Proof.
  induction l as [|a l IH]; [constructor|]. rewrite characters_cons.
  destruct (PyStr.characters l) as [|[|b c] cs].
  - by repeat constructor.
  - by constructor.
  - destruct (PyStr.is_continuation b).
    + apply Forall_cons in IH as [_ IH]. by constructor.
    + by constructor.
Qed.

Lemma concat_characters l : List.concat (PyStr.characters l) = l.
Proof.
  induction l as [|a l IH]; [done|]. rewrite characters_cons.
  destruct (PyStr.characters l) as [|[|b c] cs]; simpl in *.
  - by rewrite <- IH.
  - by rewrite <- IH.
  - destruct (PyStr.is_continuation b); simpl; by rewrite <- IH.
Qed.

Lemma concat_nil_nonempty {A} (cs : list (list A)) :
  Forall (λ c, c ≠ []) cs → List.concat cs = [] → cs = [].
Proof.
  destruct cs as [|c cs]; [done|]. intros [Hc _]%Forall_cons. simpl.
  by destruct c.
Qed.

(** What [strip] keeps of the characters of a string: the characters
    between the white space in front, [a], and the white space at the end,
    [b]. *)
Lemma strip_space_infix (cs : list (list ascii)) :
  ∃ a b,
    cs = (a ++ PyStr.rstrip_by PyStr.is_space
                 (PyStr.lstrip_by PyStr.is_space cs) ++ b)%list
    ∧ Forall (λ c, PyStr.is_space c = true) a
    ∧ Forall (λ c, PyStr.is_space c = true) b.
Proof.
  destruct (lstrip_by_suffix PyStr.is_space cs) as (a & Hq & Ha).
  destruct (lstrip_by_suffix PyStr.is_space
              (rev (PyStr.lstrip_by PyStr.is_space cs))) as (b & Hr & Hb).
  exists a, (rev b). unfold PyStr.rstrip_by. split; [|split; [done|]].
  - rewrite <- rev_app_distr, <- Hr, rev_involutive. exact Hq.
  - rewrite rev_reverse. by apply Forall_reverse.
Qed.

Lemma strip_blank query : PyStr.blank query = true → PyStr.strip query = "".
Proof.
  intros H%forallb_Forall. unfold PyStr.strip. by rewrite lstrip_by_all.
Qed.

Lemma strip_empty_blank query :
  PyStr.strip query = "" → PyStr.blank query = true.
Proof.
  unfold PyStr.strip, PyStr.blank. intros H.
  apply (f_equal PyStr.chars) in H. rewrite chars_of_chars in H. simpl in H.
  destruct (strip_space_infix (PyStr.characters (PyStr.chars query)))
    as (a & b & Hq & Ha & Hb).
  pose proof (characters_nonempty (PyStr.chars query)) as Hne.
  rewrite Hq in Hne. apply Forall_app in Hne as [_ Hne].
  apply Forall_app in Hne as [Hne _].
  apply (concat_nil_nonempty _ Hne) in H.
  rewrite H in Hq. simpl in Hq.
  apply forallb_Forall. rewrite Hq. by apply Forall_app.
Qed.

Lemma blank_strip query : PyStr.blank query = false ↔ PyStr.strip query ≠ "".
Proof.
  split.
  - intros H E. apply strip_empty_blank in E. congruence.
  - intros H. destruct (PyStr.blank query) eqn:E; [|done].
    by apply strip_blank in E.
Qed.

Section search_more.
Variable scraper : list request → request → response.
Variable urljoin : string → string → string.
Variable py_repr : json → string.
Variable max_search_pages : Z.

Lemma add_hit_inv base item acc acc' :
  hits_inv acc → add_hit urljoin base item acc = Ok acc' → hits_inv acc'.
Proof.
  intros [Hnd Hseen]. unfold add_hit. destruct acc as [results seen_urls].
  destruct (py_get item "data" (JObj ∅)) as [data|]; [|done].
  cbn [mbind res_bind].
  destruct (py_get data "urlPath" (JStr "")) as [url_path|]; [|done].
  cbn [mbind res_bind].
  destruct (negb (truthy url_path)); [by intros [= <-]|].
  destruct (urljoin_value urljoin base url_path) as [series_url|]; [|done].
  cbn [mbind res_bind].
  destruct (bool_decide (series_url ∈ seen_urls)) eqn:Es; [by intros [= <-]|].
  apply bool_decide_eq_false in Es.
  destruct (py_get data "name" (JStr "Unknown")) as [name|]; [|done].
  cbn [mbind res_bind].
  destruct (py_get data "slug" (JStr "")) as [slug|]; [|done].
  cbn [mbind res_bind]. intros [= <-]. unfold hits_inv. simpl in *. split.
  - rewrite fmap_app. simpl. apply NoDup_app. split; [done|]. split.
    + intros u Hu ->%list_elem_of_singleton. by apply Es, Hseen.
    + apply NoDup_singleton.
  - intros u. rewrite fmap_app. simpl.
    intros [Hu| ->%list_elem_of_singleton]%elem_of_app.
    + apply elem_of_union_r. by apply Hseen.
    + apply elem_of_union_l. by apply elem_of_singleton.
Qed.

Lemma add_hits_inv base items acc acc' :
  hits_inv acc → add_hits urljoin base items acc = Ok acc' → hits_inv acc'.
Proof.
  revert acc. induction items as [|item items IH]; intros acc Hacc.
  - by intros [= <-].
  - simpl. destruct (add_hit urljoin base item acc) as [acc1|] eqn:E1; [|done].
    cbn [mbind res_bind]. apply IH. by eapply add_hit_inv.
Qed.

Lemma search_pages_inv query pages acc s s' hits :
  hits_inv acc →
  search_pages scraper urljoin py_repr query pages acc s = Some (s', Ok hits) →
  NoDup (hit_url <$> hits).
Proof.
  revert acc s. induction pages as [|page pages IH]; intros acc s Hacc.
  - simpl. intros [= _ <-]. by destruct Hacc.
  - simpl.
    destruct (_search_with_fallback _ _ _ query page s)
      as [[s1 [[items base]|e]]|]; [|done|done].
    destruct (negb (truthy items)); [intros [= _ <-]; by destruct Hacc|].
    destruct (py_iter items) as [l|]; [|done]. cbn [mbind res_bind].
    destruct (add_hits urljoin base l acc) as [acc1|] eqn:E1; [|done].
    apply IH. by eapply add_hits_inv.
Qed.

(** X16. The results of [search_manga] have pairwise distinct URLs: an
    item whose joined URL was already returned, on the same page or on an
    earlier one, is dropped. *)
Theorem search_manga_distinct_urls query max_pages s s' hits :
  search_manga scraper urljoin py_repr max_search_pages query max_pages s
  = Some (s', Ok hits) →
  NoDup (hit_url <$> hits).
Proof.
  unfold search_manga.
  destruct (negb (PyStr.nonempty (PyStr.strip query))).
  { intros [= _ <-]. constructor. }
  apply search_pages_inv. split; [constructor|].
  intros u Hu. by apply elem_of_nil in Hu.
Qed.

Lemma search_pages_subrequests query (a n : nat) acc s :
  ∃ s' r (k : nat),
    search_pages scraper urljoin py_repr query (Z.of_nat <$> seq a n) acc s
    = Some (s', r)
    ∧ (k ≤ n)%nat ∧ (0 < n → 0 < k)%nat
    ∧ subrequests s'
      = (subrequests s ++ ((λ p, (query, Z.of_nat p)) <$> seq a k))%list.
Proof.
  revert a acc s. induction n as [|n IH]; intros a acc s.
  { exists s, (Ok acc.1), 0%nat. simpl. rewrite app_nil_r.
    split; [done|]. split; [done|]. split; [lia|done]. }
  cbn [seq fmap list_fmap search_pages].
  destruct (search_with_fallback_returns scraper urljoin py_repr query
              (Z.of_nat a) s) as [[s1 r1] Hs].
  pose proof (search_with_fallback_subrequests _ _ _ _ _ _ _ _ Hs) as Hsub.
  rewrite Hs.
  assert (Hone : ∀ r : res (list SearchHit), ∃ s' r' (k : nat),
            Some (s1, r) = Some (s', r') ∧ (k ≤ S n)%nat ∧ (0 < S n → 0 < k)%nat
            ∧ subrequests s'
              = (subrequests s
                 ++ ((λ p, (query, Z.of_nat p)) <$> seq a k))%list).
  { intros r. exists s1, r, 1%nat. split; [done|]. split; [lia|].
    split; [lia|]. by rewrite Hsub. }
  destruct r1 as [[items base]|e]; [|apply Hone].
  destruct (negb (truthy items)); [apply Hone|].
  destruct (py_iter items) as [l|]; [|apply Hone]. cbn [mbind res_bind].
  destruct (add_hits urljoin base l acc) as [acc1|]; [|apply Hone].
  destruct (IH (S a) acc1 s1) as (s' & r & k & Hrun & Hk & _ & Hs').
  exists s', r, (S k). split; [done|]. split; [lia|]. split; [lia|].
  rewrite Hs', Hsub, <- app_assoc. done.
Qed.

(** X15. A query that is empty or made of white space only, of ASCII or
    of Unicode (the no-break space, the ideographic space and the like),
    is answered with an empty list at once: no sub-request is made, no
    request is sent and the mirror manager is not touched, whatever the
    page limit. Every other query makes at least the sub-request for
    page 1, for the query without the white space around it. The blank
    queries are those that [strip] makes empty. *)
Theorem search_manga_blank_query query max_pages s :
  (PyStr.blank query = true →
   search_manga scraper urljoin py_repr max_search_pages query max_pages s
   = Some (s, Ok []))
  ∧ (PyStr.blank query = false →
     ∃ s' r rest,
       search_manga scraper urljoin py_repr max_search_pages query max_pages s
       = Some (s', r)
       ∧ subrequests s'
         = (subrequests s ++ (PyStr.strip query, 1) :: rest)%list)
  ∧ (PyStr.blank query = true ↔ PyStr.strip query = "").
Proof.
  split; [|split].
  - intros H. unfold search_manga. by rewrite strip_blank.
  - intros H%blank_strip. unfold search_manga, range1.
    destruct (PyStr.strip query) as [|c q] eqn:E; [done|].
    cbn [PyStr.nonempty negb].
    destruct (search_pages_subrequests (String c q) 1
                (Z.to_nat (Z.max 1 (default max_search_pages max_pages)))
                ([], ∅) s) as (s' & r & k & Hrun & Hk & Hpos & Hs').
    exists s', r. destruct k as [|k]; [lia|].
    eexists. split; [done|]. by rewrite Hs'.
  - split; [apply strip_blank|apply strip_empty_blank].
Qed.

(** X17. For a query that is not blank, [search_manga] returns, and its
    paginated sub-requests are those for the pages [1, 2, ..., k] in this
    order, with [1 <= k <= max(1, max_pages)]: a page is requested only
    after all pages before it, none twice, and never more pages than the
    bound (given, or taken from the configuration). *)
Theorem search_manga_pages query max_pages s :
  PyStr.strip query ≠ "" →
  ∃ s' r (k : nat),
    search_manga scraper urljoin py_repr max_search_pages query max_pages s
    = Some (s', r)
    ∧ 1 ≤ Z.of_nat k ≤ Z.max 1 (default max_search_pages max_pages)
    ∧ subrequests s'
      = (subrequests s ++ page_requests (PyStr.strip query) k)%list.
Proof.
  intros Hq. unfold search_manga, range1, page_requests.
  destruct (PyStr.strip query) as [|c q]; [done|]. cbn [PyStr.nonempty negb].
  destruct (search_pages_subrequests (String c q) 1
              (Z.to_nat (Z.max 1 (default max_search_pages max_pages)))
              ([], ∅) s) as (s' & r & k & Hrun & Hk & Hpos & Hs').
  exists s', r, k. split; [done|]. split; [lia|done].
Qed.

End search_more.

Lemma search_manga_blank_query_witness :
  search_manga all_down join (λ _, "") 3 blank_query None default_service
  = Some (default_service, Ok []).
Proof.
  apply (proj1 (search_manga_blank_query all_down join (λ _, "") 3 blank_query
                  None default_service)).
  reflexivity.
Defined.

(** The run of the repository's test [test_search_manga_parses_results] *)
Lemma test_search_run :
  search_manga test_search_scraper join (λ _, "") 3 " query " (Some 3)
    default_service
  = Some (after_test_search, Ok test_search_hits).
Proof. by vm_compute. Qed.

Lemma search_manga_distinct_urls_witness :
  NoDup (hit_url <$> test_search_hits).
Proof.
  exact (search_manga_distinct_urls test_search_scraper join (λ _, "") 3
           " query " (Some 3) default_service _ _ test_search_run).
Defined.

Lemma search_manga_pages_witness :
  ∃ s' r (k : nat),
    search_manga test_search_scraper join (λ _, "") 3 " query " (Some 3)
      default_service
    = Some (s', r)
    ∧ 1 ≤ Z.of_nat k ≤ 3
    ∧ subrequests s' = page_requests "query" k.
Proof.
  apply (search_manga_pages test_search_scraper join (λ _, "") 3 " query "
           (Some 3) default_service).
  by vm_compute.
Defined.

(** ** The requests of a fallback-wrapped call *)

Lemma reset_to_primary_mirrors m : _mirrors (reset_to_primary m) = _mirrors m.
Proof.
  unfold reset_to_primary. destruct (negb _); [by rewrite save_mirrors|done].
Qed.

Lemma reset_to_primary_index m : _current_index (reset_to_primary m) = 0.
Proof.
  unfold reset_to_primary.
  destruct (Z.eqb_spec (_current_index m) 0); simpl; [done|].
  by rewrite save_index.
Qed.

Lemma current_base_url_valid m :
  0 ≤ _current_index m < len m →
  ∃ c, _mirrors m !! Z.to_nat (_current_index m) = Some c
       ∧ current_base_url m = Ok (base_url c).
Proof.
  intros (c & Hc & Hm)%current_mirror_valid. exists c. split; [done|].
  unfold current_base_url. by rewrite Hm.
Qed.

Lemma final_index_other {A} m k (e : exn) :
  is_request_exception e = false →
  final_index (A:=A) m k (Raise e) = _current_index m + Z.of_nat k - 1.
Proof. by destruct e. Qed.

Lemma final_index_succ {A} m m' k (r : res A) :
  _current_index m' = _current_index m + 1 →
  final_index m' k r = final_index m (S k) r.
Proof. intros H. destruct r as [a|[]]; simpl; lia. Qed.

Lemma fallback_loop_calls {A}
  (attempt : string → BatoService → BatoService * res A)
  (f : string → request) generic fuel tried last_error s s' r :
  attempt_frame attempt →
  (∀ b s0, calls (attempt b s0).1 = (calls s0 ++ [f b])%list) →
  (∀ e, last_error = Some e → is_request_exception e = true) →
  0 ≤ _current_index (_mirror_manager s) < len (_mirror_manager s) →
  fallback_loop attempt generic fuel tried last_error s = Some (s', r) →
  ∃ k : nat,
    Z.of_nat k
    ≤ len (_mirror_manager s) - _current_index (_mirror_manager s)
    ∧ (tried = [] → (1 ≤ k)%nat)
    ∧ calls s'
      = (calls s
         ++ ((λ c, f (base_url c)) <$> targets (_mirror_manager s) k))%list
    ∧ _mirrors (_mirror_manager s') = _mirrors (_mirror_manager s)
    ∧ _current_index (_mirror_manager s')
      = final_index (_mirror_manager s) k r
    ∧ (∀ a base, r = Ok (a, base) →
         base_url <$> list.last (targets (_mirror_manager s) k) = Some base).
Proof.
  intros Hf Hlog. revert tried last_error s.
  induction fuel as [|fuel IH]; intros tried last_error s Hlast Hi; [done|].
  simpl.
  destruct (current_base_url_valid _ Hi) as (c & Hc & ->).
  assert (Hone : targets (_mirror_manager s) 1 = [c]).
  { unfold targets. erewrite drop_S by done. done. }
  destruct (decide (base_url c ∈ tried)) as [Hin|Hnin].
  { rewrite bool_decide_eq_true_2 by done. unfold exhausted.
    intros [= <- <-]. exists 0%nat. simpl.
    split; [lia|]. split; [by intros ->; apply elem_of_nil in Hin|].
    split; [by rewrite app_nil_r|].
    split; [apply reset_to_primary_mirrors|].
    split; [|done]. rewrite reset_to_primary_index.
    destruct last_error as [e|]; [|done].
    specialize (Hlast e eq_refl). by destruct e. }
  rewrite bool_decide_eq_false_2 by done.
  pose proof (Hf (base_url c) s) as Hm.
  pose proof (Hlog (base_url c) s) as Hcalls.
  destruct (attempt (base_url c) s) as [s1 [x|e]]; simpl in Hm, Hcalls.
  { intros [= <- <-]. exists 1%nat. rewrite Hone, Hm.
    split; [lia|]. split; [done|]. split; [done|]. split; [done|].
    split; [simpl; lia|]. by intros a base [= _ <-]. }
  destruct (is_request_exception e) eqn:Ee.
  2: { intros [= <- <-]. exists 1%nat. rewrite Hone, Hm.
       split; [lia|]. split; [done|]. split; [done|]. split; [done|].
       split; [|done]. rewrite final_index_other by done. lia. }
  destruct (next_mirror (_mirror_manager s1)) as [m' [c'|]] eqn:En.
  - rewrite Hm in En.
    apply next_mirror_some_succ in En as (Hmm & Hidx & Hlt); [|done].
    intros (k & Hk & _ & Hc' & Hmir & Hfin & Hbase)%IH;
      [|by intros e0 [= <-]
       |unfold len in *; simpl; rewrite Hmm, Hidx; lia].
    simpl in *. exists (S k).
    assert (Ht : targets (_mirror_manager s) (S k) = c :: targets m' k).
    { unfold targets. rewrite Hmm, Hidx.
      erewrite (drop_S _ c (Z.to_nat (_current_index (_mirror_manager s))))
        by done.
      simpl.
      by replace (Z.to_nat (_current_index (_mirror_manager s) + 1))
        with (S (Z.to_nat (_current_index (_mirror_manager s)))) by lia. }
    rewrite Ht. unfold len in *. rewrite Hmm, Hidx in Hk.
    split; [lia|]. split; [lia|].
    split; [by rewrite Hc', Hcalls, <- app_assoc|].
    split; [congruence|].
    split; [by rewrite Hfin; apply final_index_succ|].
    intros a base Hr. specialize (Hbase a base Hr).
    destruct (targets m' k) as [|c2 t]; [done|]. by rewrite last_cons_cons.
  - unfold exhausted. intros [= <- <-]. exists 1%nat. simpl. rewrite Hone.
    rewrite reset_to_primary_mirrors.
    assert (Hnm : _mirrors m' = _mirrors (_mirror_manager s)).
    { pose proof (next_mirror_mirrors (_mirror_manager s1)) as H.
      rewrite En in H. simpl in H. by rewrite H, Hm. }
    split; [lia|]. split; [done|]. split; [done|]. split; [done|].
    split; [|done].
    rewrite reset_to_primary_index. by destruct e.
Qed.

Lemma with_fallback_calls {A}
  (attempt : string → BatoService → BatoService * res A)
  (f : string → request) generic s :
  attempt_frame attempt →
  (∀ b s0, calls (attempt b s0).1 = (calls s0 ++ [f b])%list) →
  0 ≤ _current_index (_mirror_manager s) < len (_mirror_manager s) →
  ∃ s' r (k : nat),
    with_fallback attempt generic s = Some (s', r)
    ∧ 1 ≤ Z.of_nat k
      ≤ len (_mirror_manager s) - _current_index (_mirror_manager s)
    ∧ calls s'
      = (calls s
         ++ ((λ c, f (base_url c)) <$> targets (_mirror_manager s) k))%list
    ∧ _mirrors (_mirror_manager s') = _mirrors (_mirror_manager s)
    ∧ _current_index (_mirror_manager s')
      = final_index (_mirror_manager s) k r
    ∧ (∀ a base, r = Ok (a, base) →
         base_url <$> list.last (targets (_mirror_manager s) k) = Some base).
Proof.
  intros Hf Hlog Hi.
  destruct (with_fallback_returns attempt generic s Hf) as [[s' r] Hrun].
  exists s', r. unfold with_fallback in *.
  destruct (current_base_url_valid _ Hi) as (c & Hc & Hcb).
  rewrite Hcb in *.
  assert (Hnone : ∀ e, @None exn = Some e → is_request_exception e = true)
    by done.
  destruct (fallback_loop_calls _ f _ _ _ _ _ _ _ Hf Hlog Hnone Hi Hrun)
    as (k & Hk & Hpos & H).
  exists k. split; [done|]. split; [|done]. specialize (Hpos eq_refl). lia.
Qed.

Section request_order.
Variable scraper : list request → request → response.
Variable urljoin : string → string → string.
Variable py_repr : json → string.

(** X18. A page request and a search sub-request, started with a valid
    [_current_index], return, and what they send is one request per
    mirror to the first [k >= 1] records from the current one on, in list
    order: the mirrors before the current one are never tried, none is
    tried twice, and the list of records is left as it is. Afterwards
    [_current_index] is 0 when the call raises a [RequestException], and
    otherwise the position of the last record tried, whose origin a
    successful call returns. *)
Theorem fallback_requests_in_list_order path params query page s :
  let m := _mirror_manager s in
  0 ≤ _current_index m < len m →
  (∃ s' r (k : nat),
     _request_with_fallback scraper urljoin path params s = Some (s', r)
     ∧ 1 ≤ Z.of_nat k ≤ len m - _current_index m
     ∧ calls s'
       = (calls s
          ++ ((λ c, Get (urljoin (base_url c) path) params) <$> targets m k))%list
     ∧ _mirrors (_mirror_manager s') = _mirrors m
     ∧ _current_index (_mirror_manager s') = final_index m k r
     ∧ (∀ a base, r = Ok (a, base) →
          base_url <$> list.last (targets m k) = Some base))
  ∧ (∃ s' r (k : nat),
       _search_with_fallback scraper urljoin py_repr query page s
       = Some (s', r)
       ∧ 1 ≤ Z.of_nat k ≤ len m - _current_index m
       ∧ calls s'
         = (calls s
            ++ ((λ c, PostSearch (urljoin (base_url c) "/apo/") query page)
                  <$> targets m k))%list
       ∧ _mirrors (_mirror_manager s') = _mirrors m
       ∧ _current_index (_mirror_manager s') = final_index m k r
       ∧ (∀ a base, r = Ok (a, base) →
            base_url <$> list.last (targets m k) = Some base)).
Proof.
  intros m Hi. split.
  - apply (with_fallback_calls _ (λ b, Get (urljoin b path) params));
      [apply request_attempt_frame|done|done].
  - apply (with_fallback_calls
             (search_attempt scraper urljoin py_repr query page)
             (λ b, PostSearch (urljoin b "/apo/") query page)
             _ (log_subrequest query page s));
      [apply search_attempt_frame|done|done].
Qed.

End request_order.

Lemma fallback_requests_in_list_order_witness :
  ∃ s' r (k : nat),
    _request_with_fallback all_down join "/x" None (service_at (store_ABC 1))
    = Some (s', r)
    ∧ 1 ≤ Z.of_nat k ≤ 2
    ∧ calls s'
      = (λ c, Get (join (base_url c) "/x") None) <$> targets (store_ABC 1) k.
Proof.
  destruct (proj1 (fallback_requests_in_list_order all_down join (λ _, "")
                     "/x" None "q" 1 (service_at (store_ABC 1))
                     (conj (Z.le_0_1) eq_refl)))
    as (s' & r & k & Hrun & Hk & Hcalls & _).
  by exists s', r, k.
Defined.

(** X19. Whenever a fallback-wrapped call raises a [RequestException],
    whatever the attempt and the store, the mirror manager was reset to
    the primary mirror before: [_current_index] is 0 and the records are
    those the manager had. The next call starts at the primary mirror. *)
Theorem fallback_failure_resets_to_primary {A}
  (attempt : string → BatoService → BatoService * res A) generic s s' msg :
  attempt_frame attempt →
  with_fallback attempt generic s = Some (s', Raise (RequestException msg)) →
  _current_index (_mirror_manager s') = 0
  ∧ _mirrors (_mirror_manager s') = _mirrors (_mirror_manager s).
Proof.
  intros Hf. unfold with_fallback.
  destruct (current_base_url (_mirror_manager s)) as [cb|] eqn:Ecb.
  2: { intros [= <- E]. unfold current_base_url, current_mirror in Ecb.
       destruct (_mirrors (_mirror_manager s));
         [by vm_compute in Ecb|].
       unfold py_index in Ecb. repeat case_match; simplify_eq/=. }
  generalize (enough s) (@nil string) (@None exn).
  intros fuel. revert s cb Ecb.
  induction fuel as [|fuel IH]; intros s cb Ecb tried last_error; [done|].
  simpl. rewrite Ecb.
  destruct (bool_decide (cb ∈ tried)).
  { unfold exhausted. intros [= <- _].
    split; [apply reset_to_primary_index|apply reset_to_primary_mirrors]. }
  pose proof (Hf cb s) as Hm.
  destruct (attempt cb s) as [s1 [x|e]]; simpl in Hm; [done|].
  destruct e as [msg'| | | | | | |]; simpl; try done.
  destruct (next_mirror (_mirror_manager s1)) as [m' [c'|]] eqn:En.
  - pose proof (next_mirror_mirrors (_mirror_manager s1)) as Hmm.
    rewrite En in Hmm. simpl in Hmm.
    destruct (current_base_url m') as [cb'|] eqn:Ecb'.
    + intros H. eapply IH in H; [|done]. simpl in H. by rewrite Hmm, Hm in H.
    + destruct fuel as [|fuel']; [done|]. simpl. rewrite Ecb'.
      intros [= <- E]. unfold current_base_url, current_mirror in Ecb'.
      destruct (_mirrors m'); [by vm_compute in Ecb'|].
      unfold py_index in Ecb'. repeat case_match; simplify_eq/=.
  - pose proof (next_mirror_mirrors (_mirror_manager s1)) as Hmm.
    rewrite En in Hmm. simpl in Hmm.
    unfold exhausted. intros [= <- _]. simpl.
    split; [apply reset_to_primary_index|].
    by rewrite reset_to_primary_mirrors, Hmm, Hm.
Qed.

Lemma all_down_from_A_run :
  _request_with_fallback all_down join "/x" None (service_at (store_ABC 0))
  = Some (after_failure_from_A, Raise (RequestException "down")).
Proof. by vm_compute. Qed.

Lemma fallback_failure_resets_to_primary_witness :
  _current_index (_mirror_manager after_failure_from_A) = 0
  ∧ _mirrors (_mirror_manager after_failure_from_A)
    = [mirror_A; mirror_B; mirror_C].
Proof.
  apply (fallback_failure_resets_to_primary
           (request_attempt all_down join "/x" None)
           "All mirrors failed for path: /x" (service_at (store_ABC 0))
           after_failure_from_A "down").
  - apply request_attempt_frame.
  - exact all_down_from_A_run.
Defined.

(** ** All mirrors down *)

Lemma fallback_loop_all_fail {A}
  (attempt : string → BatoService → BatoService * res A)
  (f : string → request) generic fuel tried last_error s :
  attempt_frame attempt →
  (∀ b s0, calls (attempt b s0).1 = (calls s0 ++ [f b])%list) →
  (∀ b s0, ∃ msg, (attempt b s0).2 = Raise (RequestException msg)) →
  let m := _mirror_manager s in
  0 ≤ _current_index m < len m →
  NoDup (base_url <$> drop (Z.to_nat (_current_index m)) (_mirrors m)) →
  (∀ u, u ∈ base_url <$> drop (Z.to_nat (_current_index m)) (_mirrors m) →
        u ∉ tried) →
  len m - _current_index m ≤ Z.of_nat fuel →
  ∃ s' msg,
    fallback_loop attempt generic fuel tried last_error s
    = Some (s', Raise (RequestException msg))
    ∧ calls s'
      = (calls s
         ++ ((λ c, f (base_url c))
               <$> drop (Z.to_nat (_current_index m)) (_mirrors m)))%list
    ∧ _current_index (_mirror_manager s') = 0
    ∧ _mirrors (_mirror_manager s') = _mirrors m.
Proof.
  intros Hf Hlog Hfail. cbv zeta. revert tried last_error s.
  induction fuel as [|fuel IH]; intros tried last_error s Hi Hnd Hfresh Hfuel;
    [lia|].
  simpl.
  destruct (current_base_url_valid _ Hi) as (c & Hc & ->).
  pose proof (drop_S _ _ _ Hc) as Hdrop. rewrite Hdrop in Hnd, Hfresh.
  rewrite fmap_cons in Hnd, Hfresh. apply NoDup_cons in Hnd as [Hc_new Hnd].
  rewrite bool_decide_eq_false_2 by (apply Hfresh; by left).
  pose proof (Hf (base_url c) s) as Hm.
  pose proof (Hlog (base_url c) s) as Hcalls.
  destruct (Hfail (base_url c) s) as [msg Hr].
  destruct (attempt (base_url c) s) as [s1 r]; simpl in Hm, Hcalls, Hr.
  subst r. cbn [is_request_exception]. rewrite Hm.
  destruct (decide (_current_index (_mirror_manager s) + 1
                    < len (_mirror_manager s))) as [Hlt|Hlast].
  - rewrite next_mirror_step by lia.
    destruct (_mirrors (_mirror_manager s)
                !! S (Z.to_nat (_current_index (_mirror_manager s))))
      as [c'|] eqn:Ec'.
    2: { apply lookup_ge_None in Ec'. unfold len in *. lia. }
    set (s2 := set_manager _ s1).
    assert (Hm2 : _mirrors (_mirror_manager s2) = _mirrors (_mirror_manager s))
      by (unfold s2; simpl; by rewrite save_mirrors).
    assert (Hi2 : _current_index (_mirror_manager s2)
                  = _current_index (_mirror_manager s) + 1)
      by (unfold s2; simpl; by rewrite save_index).
    assert (Hn : Z.to_nat (_current_index (_mirror_manager s2))
                 = S (Z.to_nat (_current_index (_mirror_manager s))))
      by (rewrite Hi2; lia).
    destruct (IH (tried ++ [base_url c])%list (Some (RequestException msg)) s2)
      as (s' & msg' & Hrun & Hcalls' & Hidx & Hmir).
    + unfold len. rewrite Hm2, Hi2. unfold len in *. lia.
    + by rewrite Hm2, Hn.
    + rewrite Hm2, Hn. intros u Hu [Ht| ->%list_elem_of_singleton]%elem_of_app.
      * apply (Hfresh u); [by right|done].
      * done.
    + unfold len. rewrite Hm2, Hi2. unfold len in *. lia.
    + exists s', msg'. split; [done|]. split; [|split; [done|congruence]].
      rewrite Hcalls', Hm2, Hn. unfold s2. simpl. rewrite Hcalls, Hdrop.
      by rewrite <- app_assoc.
  - rewrite next_mirror_at_last by lia. unfold exhausted. simpl.
    exists (set_manager (reset_to_primary (_mirror_manager s)) s1), msg.
    split; [done|]. simpl. rewrite Hcalls, Hdrop.
    split; [|split; [apply reset_to_primary_index
                    |apply reset_to_primary_mirrors]].
    assert (Hnil : drop (S (Z.to_nat (_current_index (_mirror_manager s))))
                     (_mirrors (_mirror_manager s)) = [])
      by (apply drop_ge; unfold len in *; lia).
    by rewrite Hnil.
Qed.

Section all_down.
Variable scraper : list request → request → response.
Variable urljoin : string → string → string.

(** X20. When every request fails, in a store with pairwise distinct
    origins, a page request tries every record from the current one to the
    last one exactly once, in list order, and no record before the current
    one; then it raises a [RequestException] and leaves [_current_index]
    at 0. *)
Theorem request_with_all_mirrors_down path params s :
  (∀ history rq, ∃ msg, scraper history rq = Failed msg) →
  let m := _mirror_manager s in
  store_inv m → 0 ≤ _current_index m < len m →
  ∃ s' msg,
    _request_with_fallback scraper urljoin path params s
    = Some (s', Raise (RequestException msg))
    ∧ calls s'
      = (calls s
         ++ ((λ c, Get (urljoin (base_url c) path) params)
               <$> drop (Z.to_nat (_current_index m)) (_mirrors m)))%list
    ∧ _current_index (_mirror_manager s') = 0
    ∧ _mirrors (_mirror_manager s') = _mirrors m.
Proof.
  intros Hdown m (_ & Hnd & _) Hi. subst m.
  unfold _request_with_fallback, with_fallback.
  destruct (current_base_url_valid _ Hi) as (c & Hc & ->).
  apply (fallback_loop_all_fail _ (λ b, Get (urljoin b path) params)).
  - apply request_attempt_frame.
  - done.
  - intros b s0. unfold request_attempt, send.
    destruct (Hdown (calls s0) (Get (urljoin b path) params)) as [msg ->].
    by exists msg.
  - done.
  - rewrite <- (take_drop (Z.to_nat (_current_index (_mirror_manager s)))
                  (_mirrors (_mirror_manager s))) in Hnd.
    rewrite fmap_app in Hnd. by apply NoDup_app in Hnd as (_ & _ & Hnd).
  - intros u _. apply not_elem_of_nil.
  - unfold enough, len in *. lia.
Qed.

End all_down.

Lemma request_with_all_mirrors_down_witness :
  ∃ s' msg,
    _request_with_fallback all_down join "/x" None (service_at (store_ABC 1))
    = Some (s', Raise (RequestException msg))
    ∧ calls s' = [Get "https://b.example/x" None; Get "https://c.example/x" None]
    ∧ _current_index (_mirror_manager s') = 0.
Proof.
  destruct (request_with_all_mirrors_down all_down join "/x" None
              (service_at (store_ABC 1)))
    as (s' & msg & Hrun & Hcalls & Hidx & _).
  - intros history rq. by exists "down".
  - apply store_ABC_inv. lia.
  - by vm_compute.
  - by exists s', msg.
Defined.

(** ** The comic id of [get_series_info] *)

Lemma digit_run_nil decimal cs c :
  PyStr.digit_run decimal cs = [] → head cs = Some c →
  PyStr.is_decimal decimal c = false.
Proof.
  destruct cs as [|c' cs]; [done|]. simpl. intros H [= <-].
  by destruct (PyStr.is_decimal decimal c').
Qed.

Lemma search_title_id_head decimal rest :
  search_title_id decimal (PyStr.chars "/title/" ++ rest)%list
  = match PyStr.digit_run decimal (PyStr.characters rest) with
    | [] => search_title_id decimal (PyStr.chars "title/" ++ rest)%list
    | digits => Some (List.concat digits)
    end.
Proof. reflexivity. Qed.

Lemma search_title_id_Some decimal l d :
  search_title_id decimal l = Some d →
  ∃ pre rest c cs,
    l = (pre ++ PyStr.chars "/title/" ++ rest)%list
    ∧ PyStr.digit_run decimal (PyStr.characters rest) = c :: cs
    ∧ d = List.concat (c :: cs).
Proof.
  induction l as [|a l IH]; [done|]. cbn [search_title_id].
  assert (Hrec : search_title_id decimal l = Some d →
            ∃ pre rest c cs,
              a :: l = (pre ++ PyStr.chars "/title/" ++ rest)%list
              ∧ PyStr.digit_run decimal (PyStr.characters rest) = c :: cs
              ∧ d = List.concat (c :: cs)).
  { intros (pre & rest & c & cs & -> & H2 & H3)%IH.
    by exists (a :: pre), rest, c, cs. }
  repeat case_match; try exact Hrec; subst.
  intros [= <-]. by eexists [], _, _, _.
Qed.

Lemma digit_run_head decimal cs c cs' :
  PyStr.digit_run decimal cs = c :: cs' →
  head cs = Some c ∧ PyStr.is_decimal decimal c = true.
Proof.
  destruct cs as [|c0 cs0]; [done|]. simpl.
  destruct (PyStr.is_decimal decimal c0) eqn:E; [|done]. by intros [= <- _].
Qed.

Lemma search_title_id_tail decimal a l :
  search_title_id decimal (a :: l) = None → search_title_id decimal l = None.
Proof. cbn [search_title_id]. repeat case_match; done. Qed.

Lemma search_title_id_None decimal l :
  search_title_id decimal l = None →
  ∀ pre rest c,
    l = (pre ++ PyStr.chars "/title/" ++ rest)%list →
    head (PyStr.characters rest) = Some c →
    PyStr.is_decimal decimal c = false.
Proof.
  intros Hn pre. revert l Hn.
  induction pre as [|a pre IH]; intros l Hn rest c -> Hc.
  - rewrite app_nil_l, search_title_id_head in Hn.
    destruct (PyStr.digit_run decimal (PyStr.characters rest)) eqn:E; [|done].
    by eapply digit_run_nil.
  - simpl in Hn. apply (search_title_id_tail decimal a) in Hn.
    by eapply IH.
Qed.

(** The decimal digits of the full-width forms, U+FF10..U+FF19
    ([EF BC 90..99]), and a lookup for a URL whose id is written with
    them: both queries are sent for the id ["１２"]. *)
Example full_width_lookup :
  let full_width c :=
    match PyStr.code <$> c with
    | [b1; b2; b3] =>
        ((b1 =? 239) && (b2 =? 188) && (144 <=? b3) && (b3 <=? 153))%N
    | _ => false
    end in
  let id := PyStr.of_chars (ascii_of_N <$> [239; 188; 145; 239; 188; 146]%N) in
  ∃ s' r,
    get_series_info (fake_scraper test_comic_response test_chapters_response)
      join (λ _, "") (λ _, true) full_width
      ("https://bato.to/title/" +:+ id +:+ "-x") default_service
    = Some (s', r)
    ∧ calls s' = [PostComic "https://bato.to/apo/" id;
                  PostChapters "https://bato.to/apo/" id].
Proof. eexists _, _. split; [by vm_compute|done]. Qed.

Section series_id.
Variable scraper : list request → request → response.
Variable urljoin : string → string → string.
Variable py_repr : json → string.
Variable netloc_check : string → bool.
Variable decimal : list ascii → bool.

Lemma series_attempt_calls comic_id b s :
  ∃ extra,
    calls (series_attempt scraper urljoin py_repr comic_id b s).1
    = (calls s ++ extra)%list
    ∧ Forall (series_request comic_id) extra.
Proof.
  unfold series_attempt.
  pose proof (post_json_state scraper py_repr
                (PostComic (urljoin b "/apo/") comic_id) s) as H1.
  destruct (post_json _ _ (PostComic _ _) s) as [s1 [j|e]]; simpl in H1; subst s1.
  - pose proof (post_json_state scraper py_repr
                  (PostChapters (urljoin b "/apo/") comic_id)
                  (log_call (PostComic (urljoin b "/apo/") comic_id) s)) as H2.
    destruct (post_json _ _ (PostChapters _ _) _) as [s2 r2]; simpl in H2.
    subst s2. simpl.
    exists [PostComic (urljoin b "/apo/") comic_id;
            PostChapters (urljoin b "/apo/") comic_id].
    split; [by rewrite <- app_assoc|].
    repeat constructor; eexists; [by left|by right].
  - simpl. exists [PostComic (urljoin b "/apo/") comic_id].
    split; [done|]. repeat constructor. eexists. by left.
Qed.

(** X21. [get_series_info] returns. A URL that does not parse, or whose
    path has no ["/title/"] with a decimal digit as its next character,
    raises at once ([ValueError] for the missing id), with no request sent
    and the service left as it is. A decimal digit is an ASCII digit or a
    decimal digit of Unicode outside ASCII, as [\d] has it. Otherwise the
    call is the lookup for one comic id, a non-empty run of decimal digits
    that follows ["/title/"] in the path: the service is left as that
    lookup leaves it, an exception of the lookup is raised, and every
    request sent is one of the two queries of the lookup for that id. *)
Theorem get_series_info_requests series_url s :
  ∃ s' r extra,
    get_series_info scraper urljoin py_repr netloc_check decimal series_url s
    = Some (s', r)
    ∧ calls s' = (calls s ++ extra)%list
    ∧ match Urllib.urlparse netloc_check series_url with
      | Raise e => s' = s ∧ r = Raise e
      | Ok parsed =>
          (no_comic_id decimal (Urllib.path parsed) →
           s' = s ∧ r = Raise ValueError)
          ∧ (¬ no_comic_id decimal (Urllib.path parsed) →
             ∃ id r1,
               comic_id_of decimal (Urllib.path parsed) id
               ∧ _get_series_info_graphql scraper urljoin py_repr id s
                 = Some (s', r1)
               ∧ (∀ e, r1 = Raise e → r = Raise e)
               ∧ Forall (series_request id) extra)
          ∧ (extra ≠ [] →
             ∃ id, comic_id_of decimal (Urllib.path parsed) id
                   ∧ Forall (series_request id) extra)
      end.
Proof.
  unfold get_series_info.
  destruct (Urllib.urlparse netloc_check series_url) as [parsed|e].
  2: { exists s, (Raise e), []. by rewrite app_nil_r. }
  destruct (search_title_id decimal (PyStr.chars (Urllib.path parsed)))
    as [digits|] eqn:Eid.
  2: { exists s, (Raise ValueError), []. rewrite app_nil_r.
       split; [done|]. split; [done|]. split; [done|]. split; [|done].
       intros Hno. destruct Hno. intros pre rest c Hp Hc.
       by eapply search_title_id_None. }
  pose proof (search_title_id_Some _ _ _ Eid)
    as (pre & rest & c & cs & Hpath & Hrun & Hds).
  pose proof (digit_run_head _ _ _ _ Hrun) as [Hc Hdc].
  set (comic_id := PyStr.of_chars digits).
  assert (Hid : comic_id_of decimal (Urllib.path parsed) comic_id).
  { unfold comic_id_of, comic_id. rewrite chars_of_chars. split.
    - intros E. apply (f_equal PyStr.chars) in E.
      rewrite chars_of_chars in E. simpl in E. rewrite E in Hds.
      pose proof (characters_nonempty rest) as Hne.
      destruct (PyStr.characters rest) as [|c0 cs0]; [done|].
      injection Hc as ->. apply Forall_cons in Hne as [Hne _].
      symmetry in Hds. simpl in Hds. apply app_eq_nil in Hds as [-> _]. done.
    - exists pre, rest. by rewrite Hrun. }
  assert (Hno : ¬ no_comic_id decimal (Urllib.path parsed)).
  { intros Hall. by rewrite (Hall pre rest c Hpath Hc) in Hdc. }
  destruct (with_fallback_returns
              (series_attempt scraper urljoin py_repr comic_id)
              ("All mirrors failed for comic ID: " +:+ comic_id) s
              (series_attempt_frame scraper urljoin py_repr comic_id))
    as [[s1 r1] Hret].
  unfold _get_series_info_graphql. rewrite Hret.
  assert (Hcalls : ∃ extra, calls s1 = (calls s ++ extra)%list
                            ∧ Forall (series_request comic_id) extra).
  { revert Hret.
    apply (with_fallback_preserves
             (λ s0, ∃ extra, calls s0 = (calls s ++ extra)%list
                             ∧ Forall (series_request comic_id) extra)).
    - intros b s0 (extra & Hs0 & Hex).
      destruct (series_attempt_calls comic_id b s0) as (extra' & -> & Hex').
      exists (extra ++ extra')%list. rewrite Hs0, <- app_assoc.
      split; [done|]. by apply Forall_app.
    - done.
    - exists []. by rewrite app_nil_r. }
  destruct Hcalls as (extra & Hcalls & Hex).
  destruct r1 as [[[comic_data chapters_data] base]|e].
  - eexists s1, _, extra. split; [done|]. split; [done|].
    split; [done|]. split.
    + intros _. exists comic_id. eexists. split; [done|]. split; [done|].
      split; [done|done].
    + intros _. by exists comic_id.
  - exists s1, (Raise e), extra. split; [done|]. split; [done|].
    split; [done|]. split.
    + intros _. exists comic_id. eexists. split; [done|]. split; [done|].
      split; [by intros e' [= <-]|done].
    + intros _. by exists comic_id.
Qed.

End series_id.

(** ** [_extract_chapters] *)

Section extract.
Variable urljoin : string → string → string.

Lemma omap_anchor_chapter_urls b (anchors : list Anchor) :
  chapter_url <$> omap (anchor_chapter urljoin b) anchors
  = urljoin b <$> omap href anchors.
Proof.
  induction anchors as [|a anchors IH]; [done|]. simpl.
  unfold anchor_chapter at 1. destruct (href a) as [h|]; simpl;
    [f_equal|]; exact IH.
Qed.

Lemma omap_rev {A B} (f : A → option B) (l : list A) :
  omap f (rev l) = rev (omap f l).
Proof.
  induction l as [|a l IH]; [done|]. simpl. rewrite omap_app, IH. simpl.
  destruct (f a); simpl; [done|]. by rewrite app_nil_r.
Qed.

Lemma fmap_rev {A B} (f : A → B) (l : list A) : f <$> rev l = rev (f <$> l).
Proof.
  induction l as [|a l IH]; [done|]. simpl. by rewrite fmap_app, IH.
Qed.

(** X22. The HTML extractor [_extract_chapters] answers one chapter per
    anchor that has an [href], in the reverse of the document order, with
    the [href] joined to the base: the base it is given when that is a
    non-empty string, else the origin of the current mirror (and it raises
    what reading the current mirror raises). Reversing the anchors
    reverses its answer. *)
Theorem extract_chapters_reversed (anchors : list Anchor) base s :
  let url_base :=
    match base with
    | Some (String a b) => Ok (String a b)
    | _ => current_base_url (_mirror_manager s)
    end in
  match url_base with
  | Ok b =>
      ∃ l, _extract_chapters urljoin anchors base s = Ok l
           ∧ chapter_url <$> l = rev (urljoin b <$> omap href anchors)
           ∧ _extract_chapters urljoin (rev anchors) base s = Ok (rev l)
  | Raise e => _extract_chapters urljoin anchors base s = Raise e
  end.
Proof.
  cbv zeta. unfold _extract_chapters.
  assert (H : ∀ b,
    ∃ l, Ok (rev (omap (anchor_chapter urljoin b) anchors)) = Ok l
         ∧ chapter_url <$> l = rev (urljoin b <$> omap href anchors)
         ∧ Ok (rev (omap (anchor_chapter urljoin b) (rev anchors)))
           = Ok (rev l)).
  { intros b. eexists. split; [done|].
    split; [by rewrite fmap_rev, omap_anchor_chapter_urls|].
    by rewrite omap_rev. }
  destruct base as [[|a b]|]; simpl.
  - destruct (current_base_url _) as [b|]; [apply H|done].
  - apply H.
  - destruct (current_base_url _) as [b|]; [apply H|done].
Qed.

End extract.

(** ** The metadata of [get_series_info] *)

Lemma add_attribute_lookup (data : gmap string json) key label attributes k v :
  add_attribute data key label attributes !! k = Some v
  ↔ (k = label ∧ data !! key = Some v ∧ truthy v = true)
    ∨ ((k ≠ label ∨ ∀ w, data !! key = Some w → truthy w = false)
       ∧ attributes !! k = Some v).
Proof.
  unfold add_attribute. destruct (data !! key) as [w|] eqn:Ew.
  - destruct (truthy w) eqn:Et.
    + rewrite lookup_insert_Some. split.
      * intros [[<- <-]|[Hne Hl]]; [by left|right]. split; [by left|done].
      * intros [(-> & [= ->] & _)|[[Hne|Hf] Hl]]; [by left| |].
        -- right. by split.
        -- specialize (Hf w eq_refl). congruence.
    + split.
      * intros Hl. right. split; [|done]. right. by intros ? [= <-].
      * intros [(_ & [= ->] & Hv)|[_ Hl]]; [congruence|done].
  - split.
    + intros Hl. right. split; [|done]. by right.
    + by intros [(_ & ? & _)|[_ Hl]].
Qed.

Section metadata.
Variable scraper : list request → request → response.
Variable urljoin : string → string → string.
Variable py_repr : json → string.
Variable netloc_check : string → bool.
Variable decimal : list ascii → bool.

Lemma build_series_info_metadata path comic_data chapters_data base info :
  build_series_info urljoin path comic_data chapters_data base = Ok info →
  ∃ data : gmap string json,
    py_get comic_data "data" (JObj ∅) = Ok (JObj data)
    ∧ info_title info = default (JStr "Unknown Title") (data !! "name")
    ∧ info_description info = description_of data
    ∧ info_url info = urljoin base path
    ∧ ∀ label v,
        info_attributes info !! label = Some v
        ↔ truthy v = true
          ∧ ∃ key, attribute_source label key ∧ data !! key = Some v.
Proof.
  unfold build_series_info.
  destruct (py_get comic_data "data" (JObj ∅)) as [data|]; [|done].
  cbn [mbind res_bind].
  destruct data as [| | | | | |data]; try done.
  cbn [py_get mbind res_bind].
  destruct (py_iter chapters_data) as [chs|]; cbn [mbind res_bind];
    [|by repeat case_match].
  assert (Hd : match default JNull (data !! "summary") with
               | JObj o => if truthy (default JNull (data !! "summary"))
                           then Ok (default (JStr "") (o !! "code"))
                           else Ok (JStr "")
               | _ => Ok (JStr "")
               end = Ok (description_of data)).
  { unfold description_of.
    destruct (data !! "summary") as [[| | | | | |o]|]; try done. simpl.
    by destruct (bool_decide (o = ∅)). }
  rewrite Hd. cbn [mbind res_bind].
  destruct (add_chapters urljoin base chs []) as [chapters|]; [|done].
  cbn [mbind res_bind]. intros [= <-]. exists data. simpl.
  split; [done|]. split; [done|]. split; [done|]. split; [done|].
  intros label v. rewrite !add_attribute_lookup, lookup_empty.
  unfold attribute_source. split.
  - intros [(-> & Hv & Ht)|[_ [(-> & Hv & Ht)|[_ ?]]]]; [| |done].
    + split; [done|]. exists "genres". split; [by right|done].
    + split; [done|]. exists "authors". split; [by left|done].
  - intros (Ht & key & [[-> ->]|[-> ->]] & Hv).
    + right. split; [by left|]. left. done.
    + left. done.
Qed.

(** X23. The metadata of a successful [get_series_info], read from the
    [data] of the comic node that the answering mirror returned: the title
    is its [name], or ["Unknown Title"] when it has none; the description
    is the [code] of its [summary] when that is a non-empty dict, else
    empty; the attributes hold [Authors] and [Genres], each exactly when
    the upstream value is truthy, and nothing else; and the returned URL
    is the path of the given URL joined to the origin of the mirror that
    answered, whatever the host of the given URL. *)
Theorem get_series_info_metadata series_url s s' info :
  get_series_info scraper urljoin py_repr netloc_check decimal series_url s
  = Some (s', Ok info) →
  ∃ parsed comic_id comic_data chapters_data base (data : gmap string json),
    Urllib.urlparse netloc_check series_url = Ok parsed
    ∧ _get_series_info_graphql scraper urljoin py_repr comic_id s
      = Some (s', Ok (comic_data, chapters_data, base))
    ∧ py_get comic_data "data" (JObj ∅) = Ok (JObj data)
    ∧ info_title info = default (JStr "Unknown Title") (data !! "name")
    ∧ info_description info = description_of data
    ∧ info_url info = urljoin base (Urllib.path parsed)
    ∧ ∀ label v,
        info_attributes info !! label = Some v
        ↔ truthy v = true
          ∧ ∃ key, attribute_source label key ∧ data !! key = Some v.
Proof.
  unfold get_series_info.
  destruct (Urllib.urlparse netloc_check series_url) as [parsed|]; [|done].
  destruct (search_title_id _) as [digits|]; [|done].
  destruct (_get_series_info_graphql _ _ _ _ s)
    as [[s1 [[[comic_data chapters_data] base]|e]]|] eqn:Eg; [|done|done].
  intros [= <- Hb].
  apply build_series_info_metadata in Hb as (data & Hb).
  by exists parsed, (PyStr.of_chars digits), comic_data, chapters_data, base, data.
Qed.

End metadata.

Lemma get_series_info_metadata_witness :
  ∃ parsed comic_id comic_data chapters_data base (data : gmap string json),
    Urllib.urlparse (λ _, true) "https://bato.to/title/12345-sample-series"
    = Ok parsed
    ∧ _get_series_info_graphql
        (fake_scraper test_comic_response test_chapters_response) join
        (λ _, "") comic_id default_service
      = Some (after_test_lookup, Ok (comic_data, chapters_data, base))
    ∧ py_get comic_data "data" (JObj ∅) = Ok (JObj data)
    ∧ info_title test_series_info
      = default (JStr "Unknown Title") (data !! "name")
    ∧ info_description test_series_info = description_of data
    ∧ info_url test_series_info = join base (Urllib.path parsed)
    ∧ ∀ label v,
        info_attributes test_series_info !! label = Some v
        ↔ truthy v = true
          ∧ ∃ key, attribute_source label key ∧ data !! key = Some v.
Proof.
  exact (get_series_info_metadata
           (fake_scraper test_comic_response test_chapters_response)
           join (λ _, "") (λ _, true) (λ _, false)
           "https://bato.to/title/12345-sample-series" default_service
           after_test_lookup test_series_info test_series_run).
Defined.

(** * The Add button of the settings tab *)

Lemma lstrip_by_prefix_head {A} (p : A → bool) l a t :
  PyStr.rstrip_by p (PyStr.lstrip_by p l) = a :: t → p a = false.
Proof.
  unfold PyStr.rstrip_by. intros H.
  destruct (lstrip_by_suffix p (rev (PyStr.lstrip_by p l))) as (b & Hb & _).
  apply (f_equal (@rev _)) in Hb.
  rewrite rev_involutive, rev_app_distr, H in Hb. simpl in Hb.
  by apply lstrip_by_first in Hb.
Qed.

Lemma strip_by_idempotent {A} (p : A → bool) l :
  PyStr.rstrip_by p (PyStr.lstrip_by p (PyStr.rstrip_by p (PyStr.lstrip_by p l)))
  = PyStr.rstrip_by p (PyStr.lstrip_by p l).
Proof.
  assert (H : PyStr.lstrip_by p (PyStr.rstrip_by p (PyStr.lstrip_by p l))
              = PyStr.rstrip_by p (PyStr.lstrip_by p l)).
  { destruct (PyStr.rstrip_by _ _) as [|a t] eqn:E; [done|].
    apply lstrip_by_head. by eapply lstrip_by_prefix_head. }
  rewrite H. apply rstrip_by_id. intros a Ha. by eapply rstrip_by_last.
Qed.

(** *** The characters of a concatenation of characters *)

Lemma characters_well_formed l : well_formed (PyStr.characters l).
Proof.
  induction l as [|a l [IH1 IH2]]; [by split; constructor|].
  rewrite characters_cons.
  destruct (PyStr.characters l) as [|[|b c] cs]; simpl in *.
  - split; repeat constructor. by exists a, [].
  - apply Forall_cons in IH1 as [(? & ? & ? & _) _]. done.
  - apply Forall_cons in IH1 as [(b' & t & [= <- <-] & Ht) IH1].
    destruct (PyStr.is_continuation b) eqn:Eb.
    + split; [|done]. constructor; [|done]. exists a, (b :: c).
      split; [done|]. by constructor.
    + split.
      * constructor; [by exists a, []|]. constructor; [|done].
        by exists b, c.
      * simpl. constructor; [|done]. by exists b, c.
Qed.

Lemma well_formed_app_l a b : well_formed (a ++ b) → well_formed a.
Proof.
  intros [H1 H2]. apply Forall_app in H1 as [H1 _]. split; [done|].
  destruct a as [|c a]; [constructor|]. simpl in *.
  by apply Forall_app in H2 as [H2 _].
Qed.

Lemma well_formed_app_r a b : well_formed (a ++ b) → well_formed b.
Proof.
  intros [H1 H2]. apply Forall_app in H1 as [_ H1]. split; [done|].
  destruct a as [|c a]; [done|]. simpl in *.
  apply Forall_app in H2 as [_ H2].
  destruct b as [|d b]; [constructor|]. by apply Forall_cons in H2 as [_ H2].
Qed.

Lemma characters_continue a t l :
  Forall (λ b, PyStr.is_continuation b = true) t →
  (∀ b c cs, PyStr.characters l = (b :: c) :: cs →
             PyStr.is_continuation b = false) →
  PyStr.characters (a :: t ++ l) = (a :: t) :: PyStr.characters l.
Proof.
  intros Ht Hl. revert a. induction Ht as [|b t Hb _ IH]; intros a.
  - simpl app. rewrite characters_cons.
    destruct (PyStr.characters l) as [|[|b c] cs] eqn:E; [done|done|].
    by rewrite (Hl b c cs eq_refl).
  - change (a :: (b :: t) ++ l)%list with (a :: b :: t ++ l)%list.
    rewrite characters_cons, IH. by rewrite Hb.
Qed.

Lemma characters_concat cs :
  well_formed cs → PyStr.characters (List.concat cs) = cs.
Proof.
  induction cs as [|c cs IH]; [done|]. intros Hw.
  pose proof (well_formed_app_r [c] cs Hw) as Hcs.
  destruct Hw as [H1 H2]. simpl in H2.
  apply Forall_cons in H1 as [(a & t & -> & Ht) _].
  change (List.concat ((a :: t) :: cs))
    with (a :: t ++ List.concat cs)%list.
  rewrite characters_continue; [by rewrite IH|done|].
  rewrite IH by done. intros b c cs' ->.
  apply Forall_cons in H2 as [(b' & t' & [= <- <-] & Hb) _]. done.
Qed.

Lemma strip_idempotent s : PyStr.strip (PyStr.strip s) = PyStr.strip s.
Proof.
  unfold PyStr.strip. rewrite chars_of_chars. f_equal.
  destruct (strip_space_infix (PyStr.characters (PyStr.chars s)))
    as (a & b & Hq & _ & _).
  pose proof (characters_well_formed (PyStr.chars s)) as Hw.
  rewrite Hq in Hw. apply well_formed_app_r, well_formed_app_l in Hw.
  rewrite characters_concat by done. by rewrite strip_by_idempotent.
Qed.

Section add_button.
Variable netloc_check : string → bool.
Variable unquote_escapes : string → string.

Lemma parse_search_url_strip url :
  parse_search_url netloc_check unquote_escapes (PyStr.strip url)
  = parse_search_url netloc_check unquote_escapes url.
Proof. unfold parse_search_url, with_scheme. by rewrite strip_idempotent. Qed.

Lemma add_mirror_from_url_strip url m :
  add_mirror_from_url netloc_check unquote_escapes (PyStr.strip url) m
  = add_mirror_from_url netloc_check unquote_escapes url m.
Proof. unfold add_mirror_from_url. by rewrite parse_search_url_strip. Qed.

(** X26. The Add button of the settings tab leaves the manager as
    [add_mirror_from_url] on the text of the entry field does: stripping
    the text first changes nothing, and a blank text, which the button
    does not pass on, would have been rejected. The entry field is
    emptied exactly when the text parses as a search URL, and otherwise
    text and manager stay as they are; the status line always starts with
    ["Status: "]. *)
Theorem add_bato_mirror_outcome entry m :
  let '(m', entry', status) :=
    _add_bato_mirror netloc_check unquote_escapes entry m in
  m' = (add_mirror_from_url netloc_check unquote_escapes entry m).1
  ∧ match parse_search_url netloc_check unquote_escapes entry with
    | Some _ => entry' = ""
    | None => entry' = entry ∧ m' = m
    end
  ∧ PyStr.startswith "Status: " status = true.
Proof.
  unfold _add_bato_mirror.
  destruct (PyStr.strip entry) as [|c url] eqn:Es.
  - simpl. unfold add_mirror_from_url, parse_search_url. rewrite Es. simpl.
    done.
  - cbn [PyStr.nonempty negb]. rewrite <- Es, add_mirror_from_url_strip.
    pose proof (add_mirror_from_url_cases netloc_check unquote_escapes
                  entry m) as H.
    destruct (parse_search_url netloc_check unquote_escapes entry)
      as [config|].
    + destruct (list_find _ _) as [[i existing]|];
        destruct H as [msg ->]; simpl; repeat split;
        unfold PyStr.startswith; simpl; by destruct msg.
    + rewrite H. simpl. done.
Qed.

End add_button.

(** * [_extract_attributes] *)

Lemma attribute_value_collected collected :
  collected ≠ [] → Forall (λ text, text ≠ "") collected →
  attribute_value_ok (attribute_value collected).
Proof.
  intros Hne Hall. destruct collected as [|t [|t' rest]]; [done| |].
  - left. exists t. split; [done|]. by apply Forall_cons in Hall as [? _].
  - right. exists (t :: t' :: rest). split; [done|]. split; [simpl; lia|done].
Qed.

Lemma add_attr_item_inv attributes item :
  map_Forall (λ label v,
      attribute_value_ok v ∧ list.last (PyStr.chars label) ≠ Some ":"%char)
    attributes →
  map_Forall (λ label v,
      attribute_value_ok v ∧ list.last (PyStr.chars label) ≠ Some ":"%char)
    (add_attr_item attributes item).
Proof.
  intros Hinv. unfold add_attr_item.
  destruct (label_tag item) as [label_text|]; [|done].
  destruct (value_container item) as [[children own_text]|]; [|done].
  set (nonempty_children :=
         filter (λ text, PyStr.nonempty text = true) children).
  assert (Hc : Forall (λ text, text ≠ "") nonempty_children).
  { apply Forall_forall. intros t [Ht _]%list_elem_of_filter. by destruct t. }
  assert (Hlabel : list.last (PyStr.chars (PyStr.rstrip_char ":" label_text))
                   ≠ Some ":"%char).
  { unfold PyStr.rstrip_char. rewrite chars_of_chars.
    intros H%rstrip_by_last. done. }
  destruct nonempty_children as [|t rest] eqn:E.
  - destruct own_text as [|c own]; [done|]. cbn [PyStr.nonempty].
    apply map_Forall_insert_2; [|done]. split; [|done].
    left. by eexists.
  - apply map_Forall_insert_2; [|done]. split; [|done].
    by apply attribute_value_collected.
Qed.

(** X27. Every attribute [_extract_attributes] returns has a value that is
    a non-empty text or a list of two or more non-empty texts, under a
    label that does not end with a colon: an item without label tag,
    without value container or without any non-empty text adds nothing. *)
Theorem extract_attributes_values items :
  map_Forall (λ label v,
      attribute_value_ok v ∧ list.last (PyStr.chars label) ≠ Some ":"%char)
    (_extract_attributes items).
Proof.
  unfold _extract_attributes.
  assert (H : ∀ acc,
    map_Forall (λ label v,
        attribute_value_ok v ∧ list.last (PyStr.chars label) ≠ Some ":"%char)
      acc →
    map_Forall (λ label v,
        attribute_value_ok v ∧ list.last (PyStr.chars label) ≠ Some ":"%char)
      (foldl add_attr_item acc items)).
  { induction items as [|item items IH]; intros acc Hacc; [done|].
    simpl. by apply IH, add_attr_item_inv. }
  apply H, map_Forall_empty.
Qed.

(** * [sanitize_filename] *)

Section sanitize.
Import BaseParser.

Lemma underscore_eqb c : (c =? underscore)%N = true ↔ c = underscore.
Proof. apply N.eqb_eq. Qed.

Lemma flush_small run : (run < 3)%nat → flush run = replicate run underscore.
Proof.
  intros H. unfold flush.
  by replace (3 <=? run)%nat with false by (symmetry; apply Nat.leb_gt; lia).
Qed.

Lemma flush_Forall (P : N → Prop) run : P underscore → Forall P (flush run).
Proof.
  intros H. unfold flush. destruct (3 <=? run)%nat; [by repeat constructor|].
  by apply Forall_replicate.
Qed.

Lemma flush_length run : (List.length (flush run) ≤ run)%nat.
Proof.
  unfold flush. destruct (Nat.leb_spec 3 run); simpl; [lia|].
  by rewrite length_replicate.
Qed.

Lemma collapse_Forall (P : N → Prop) run l :
  P underscore → Forall P l → Forall P (collapse run l).
Proof.
  intros Hu Hl. revert run.
  induction Hl as [|c l Hc Hl IH]; intros run; simpl; [by apply flush_Forall|].
  destruct (c =? underscore)%N; [apply IH|].
  apply Forall_app. split; [by apply flush_Forall|]. by constructor.
Qed.

Lemma collapse_length run l :
  (List.length (collapse run l) ≤ run + List.length l)%nat.
Proof.
  revert run. induction l as [|c l IH]; intros run; simpl.
  - pose proof (flush_length run). lia.
  - destruct (c =? underscore)%N.
    + specialize (IH (S run)). lia.
    + rewrite length_app. simpl. pose proof (flush_length run).
      specialize (IH 0%nat). lia.
Qed.

Lemma replace_illegal_allowed name :
  Forall (λ c, allowed c = true) (replace_illegal name).
Proof.
  unfold replace_illegal. apply Forall_fmap, Forall_forall. intros c _. simpl.
  by destruct (allowed c) eqn:E.
Qed.

Lemma replace_illegal_id l :
  Forall (λ c, allowed c = true) l → replace_illegal l = l.
Proof.
  unfold replace_illegal. induction 1 as [|c l Hc _ IH]; [done|].
  rewrite fmap_cons, IH. by rewrite Hc.
Qed.

(** *** Stripping *)

Lemma lstrip_suffix l :
  ∃ a, l = (a ++ lstrip l)%list ∧ Forall (λ c, c = underscore) a.
Proof.
  induction l as [|c l (a & IH & Ha)]; [by exists []|]. simpl.
  destruct (c =? underscore)%N eqn:E.
  - apply underscore_eqb in E as ->. exists (underscore :: a).
    split; [by rewrite IH at 1|by constructor].
  - by exists [].
Qed.

Lemma lstrip_head l : head (lstrip l) ≠ Some underscore.
Proof.
  induction l as [|c l IH]; [done|]. simpl.
  destruct (c =? underscore)%N eqn:E; [done|]. simpl. intros [= ->].
  by rewrite N.eqb_refl in E.
Qed.

Lemma lstrip_id l : head l ≠ Some underscore → lstrip l = l.
Proof.
  destruct l as [|c l]; [done|]. simpl. intros H.
  destruct (c =? underscore)%N eqn:E; [|done].
  apply underscore_eqb in E as ->. done.
Qed.

Lemma strip_infix l :
  ∃ a b, l = (a ++ strip l ++ b)%list
         ∧ Forall (λ c, c = underscore) a ∧ Forall (λ c, c = underscore) b.
Proof.
  destruct (lstrip_suffix l) as (a & Hl & Ha).
  destruct (lstrip_suffix (rev (lstrip l))) as (b & Hr & Hb).
  exists a, (rev b). unfold strip. split; [|split; [done|]].
  - rewrite <- rev_app_distr, <- Hr, rev_involutive. done.
  - rewrite rev_reverse. by apply Forall_reverse.
Qed.

Lemma strip_last l : list.last (strip l) ≠ Some underscore.
Proof.
  unfold strip. rewrite rev_reverse, last_reverse. apply lstrip_head.
Qed.

Lemma strip_head l : head (strip l) ≠ Some underscore.
Proof.
  unfold strip. rewrite rev_reverse, head_reverse.
  destruct (lstrip_suffix (rev (lstrip l))) as (b & Hr & Hb).
  destruct (lstrip (rev (lstrip l))) as [|c m] eqn:Em; [done|].
  intros Hlast.
  assert (H : list.last (rev (lstrip l)) = Some underscore)
    by (by rewrite Hr, last_app_cons).
  rewrite rev_reverse, last_reverse in H. by apply lstrip_head in H.
Qed.

Lemma strip_id l :
  head l ≠ Some underscore → list.last l ≠ Some underscore → strip l = l.
Proof.
  intros Hh Hl. unfold strip. rewrite (lstrip_id l) by done.
  rewrite lstrip_id; [apply rev_involutive|].
  by rewrite rev_reverse, head_reverse.
Qed.

Lemma strip_length l : (List.length (strip l) ≤ List.length l)%nat.
Proof.
  destruct (strip_infix l) as (a & b & Hl & _).
  rewrite Hl at 2. rewrite !length_app. lia.
Qed.

(** *** Runs of underscores *)

Lemma has_triple_infix a l b : has_triple l → has_triple (a ++ l ++ b).
Proof.
  intros (pre & post & ->). exists (a ++ pre)%list, (post ++ b)%list.
  by rewrite <- !app_assoc.
Qed.

Lemma triple_free_tail a l : triple_free (a :: l) = true → triple_free l = true.
Proof.
  simpl. destruct l as [|b [|c l]]; [done..|].
  by intros [_ ?]%andb_true_iff.
Qed.

Lemma triple_free_not_has l : triple_free l = true → ¬ has_triple l.
Proof.
  intros Ht (pre & post & ->). induction pre as [|a pre IH].
  - simpl in Ht. done.
  - apply IH. by apply (triple_free_tail a).
Qed.

Lemma triple_free_cons_other c l :
  c ≠ underscore → triple_free (c :: l) = triple_free l.
Proof.
  intros Hc. simpl. destruct l as [|b [|d l]]; [done..|].
  replace (c =? underscore)%N with false
    by (symmetry; by apply N.eqb_neq).
  done.
Qed.

Lemma triple_free_flush run c l :
  c ≠ underscore → triple_free (flush run ++ c :: l)%list = triple_free l.
Proof.
  intros Hc.
  assert (Hcu : (c =? underscore)%N = false) by (by apply N.eqb_neq).
  pose proof (triple_free_cons_other c l Hc) as H1.
  assert (H2 : triple_free (underscore :: c :: l) = triple_free l).
  { change (triple_free (underscore :: c :: l))
      with (match l with
            | d :: _ =>
                negb ((underscore =? underscore)%N && (c =? underscore)%N
                      && (d =? underscore)%N)
                && triple_free (c :: l)
            | [] => true
            end).
    rewrite Hcu. destruct l; [done|]. simpl andb. by rewrite <- H1. }
  assert (H3 : triple_free (underscore :: underscore :: c :: l) = triple_free l).
  { change (triple_free (underscore :: underscore :: c :: l))
      with (negb ((underscore =? underscore)%N && (underscore =? underscore)%N
                  && (c =? underscore)%N)
            && triple_free (underscore :: c :: l)).
    by rewrite Hcu, H2. }
  unfold flush. destruct run as [|[|[|run]]]; simpl app; done.
Qed.

Lemma collapse_triple_free run l : triple_free (collapse run l) = true.
Proof.
  revert run. induction l as [|c l IH]; intros run.
  - simpl. unfold flush. by destruct run as [|[|[|run]]].
  - simpl. destruct (c =? underscore)%N eqn:E; [apply IH|].
    rewrite triple_free_flush; [apply IH|]. intros ->.
    by rewrite N.eqb_refl in E.
Qed.

Lemma replicate_triple run :
  (3 ≤ run)%nat → has_triple (replicate run underscore).
Proof.
  intros H. exists [], (replicate (run - 3) underscore).
  destruct run as [|[|[|run]]]; try lia. simpl. by rewrite Nat.sub_0_r.
Qed.

Lemma collapse_id run l :
  ¬ has_triple (replicate run underscore ++ l) →
  collapse run l = (replicate run underscore ++ l)%list.
Proof.
  revert run. induction l as [|c l IH]; intros run Hn.
  - simpl. rewrite app_nil_r in *. apply flush_small.
    destruct (decide (run < 3)%nat); [done|].
    destruct Hn. apply replicate_triple. lia.
  - simpl. destruct (c =? underscore)%N eqn:E.
    + apply underscore_eqb in E as ->.
      rewrite IH; rewrite replicate_S_end, <- app_assoc; done.
    + rewrite flush_small, IH; [done| |].
      * intros Ht. apply Hn.
        apply (has_triple_infix (replicate run underscore ++ [c]) l []) in Ht.
        by rewrite app_nil_r, <- app_assoc in Ht.
      * destruct (decide (run < 3)%nat); [done|].
        destruct Hn.
        apply (has_triple_infix [] (replicate run underscore) (c :: l)).
        apply replicate_triple. lia.
Qed.

(** *** What survives *)

Lemma collapse_all_underscores run l :
  Forall (λ c, c = underscore) l →
  Forall (λ c, c = underscore) (collapse run l).
Proof. intros H. by apply collapse_Forall. Qed.

Lemma lstrip_all_underscores l :
  Forall (λ c, c = underscore) l → lstrip l = [].
Proof. induction 1 as [|c l -> _ IH]; [done|]. done. Qed.

Lemma strip_all_underscores l :
  Forall (λ c, c = underscore) l → strip l = [].
Proof.
  intros H. unfold strip. by rewrite (lstrip_all_underscores l).
Qed.

Lemma collapse_keeps c run l :
  c ≠ underscore → c ∈ l → c ∈ collapse run l.
Proof.
  intros Hc Hin. revert run.
  induction l as [|d l IH]; intros run; [by apply elem_of_nil in Hin|].
  simpl. apply elem_of_cons in Hin as [<-|Hin].
  - replace (c =? underscore)%N with false by (symmetry; by apply N.eqb_neq).
    apply elem_of_app. right. by left.
  - destruct (d =? underscore)%N; [by apply IH|].
    apply elem_of_app. right. right. by apply IH.
Qed.

Lemma strip_keeps c l : c ≠ underscore → c ∈ l → c ∈ strip l.
Proof.
  intros Hc Hin. destruct (strip_infix l) as (a & b & Hl & Ha & Hb).
  rewrite Hl in Hin.
  apply elem_of_app in Hin as [Hin|[Hin|Hin]%elem_of_app]; [|done|].
  - rewrite Forall_forall in Ha. by apply Ha in Hin.
  - rewrite Forall_forall in Hb. by apply Hb in Hin.
Qed.

Lemma sanitize_filename_clean name : clean (sanitize_filename name).
Proof.
  unfold clean, sanitize_filename.
  destruct (strip_infix (collapse 0 (replace_illegal name)))
    as (a & b & Hl & _).
  split; [|split; [|split; [apply strip_head|apply strip_last]]].
  - assert (H : Forall (λ c, allowed c = true)
                  (collapse 0 (replace_illegal name)))
      by (apply collapse_Forall; [done|apply replace_illegal_allowed]).
    rewrite Hl in H. by apply Forall_app in H as [_ [H _]%Forall_app].
  - intros Ht. apply (has_triple_infix a _ b) in Ht. rewrite <- Hl in Ht.
    revert Ht. apply triple_free_not_has, collapse_triple_free.
Qed.

Lemma sanitize_filename_id name : clean name → sanitize_filename name = name.
Proof.
  intros (Ha & Ht & Hh & Hl). unfold sanitize_filename.
  rewrite replace_illegal_id by done.
  rewrite collapse_id by done. simpl. by apply strip_id.
Qed.

(** X24. The name [sanitize_filename] returns is made of letters, digits
    and the characters [_], [.] and [-] only; it has no three underscores
    in a row and neither starts nor ends with an underscore; it is not
    longer than the name given. It is empty exactly when every character
    of the name given is an underscore or outside that class: such a name
    yields an empty file name. *)
Theorem sanitize_filename_shape name :
  clean (sanitize_filename name)
  ∧ (List.length (sanitize_filename name) ≤ List.length name)%nat
  ∧ (sanitize_filename name = []
     ↔ Forall (λ c, c = underscore ∨ allowed c = false) name).
Proof.
  split; [apply sanitize_filename_clean|]. split.
  - unfold sanitize_filename.
    pose proof (strip_length (collapse 0 (replace_illegal name))).
    pose proof (collapse_length 0 (replace_illegal name)).
    unfold replace_illegal in *. rewrite length_fmap in *. lia.
  - unfold sanitize_filename. split.
    + intros He. apply Forall_forall. intros c Hin.
      destruct (decide (c = underscore)) as [|Hc]; [by left|]. right.
      destruct (allowed c) eqn:Ea; [|done]. exfalso.
      assert (Hs : c ∈ strip (collapse 0 (replace_illegal name))).
      { apply strip_keeps, collapse_keeps; [done..|].
        unfold replace_illegal. apply list_elem_of_fmap.
        exists c. by rewrite Ea. }
      rewrite He in Hs. by apply elem_of_nil in Hs.
    + intros Hall. apply strip_all_underscores, collapse_all_underscores.
      unfold replace_illegal. apply Forall_fmap.
      eapply Forall_impl; [exact Hall|]. intros c [->|Hc]; simpl; [done|].
      by rewrite Hc.
Qed.

(** X25. [sanitize_filename] leaves a name as it is exactly when the name
    is already of that shape, and sanitizing twice gives what sanitizing
    once gives. *)
Theorem sanitize_filename_fixpoint name :
  (sanitize_filename name = name ↔ clean name)
  ∧ sanitize_filename (sanitize_filename name) = sanitize_filename name.
Proof.
  split; [split|].
  - intros <-. apply sanitize_filename_clean.
  - apply sanitize_filename_id.
  - apply sanitize_filename_id, sanitize_filename_clean.
Qed.

End sanitize.
